(* ===== verification/_CoqProject ===== *)
-Q . S2P
Prelude.v
Python.v
PyString.v
PyPath.v
PySorted.v
Imaging.v
IO.v
World.v
Scenes.v
Grid.v
Order.v
Pack.v
Unpack.v
RoundTrip.v
Handlers.v
PackHandler.v
UnpackHandler.v
Footprint.v
EndToEnd.v
Cli.v
Session.v
