(* ===== verification/Prelude.v ===== *)
(** * flipbook_tool: a verification development

    The program ([src/flipbook_tool.py], 102 lines of Python on top of
    Pillow) converts between a folder of numbered frame images and one
    spritesheet that holds the frames in a grid.  It has five parts:

    - the layout planner [calc_grid_size] (lines 7-13) picks the grid
      (rows, cols) for a number of frames;
    - the frame orderer [sort_image_files] (lines 15-21) sorts file names
      by the first number they contain;
    - the packer [pack_spritesheet] (lines 23-58) lists a folder, keeps the
      image files, orders them, asks the planner for a grid, pastes frame
      number i at column i % cols and row i // cols of a transparent
      canvas and saves it as [flipbook_{rows}x{cols}.tga] in the folder;
    - the unpacker [unpack_spritesheet] (lines 60-85) creates a folder
      named after the sheet, parses "rows:cols", divides the sheet into
      cells of (width // cols, height // rows) pixels and saves the cell
      (row, col) as [frame_{row * cols + col:04d}.png] in the folder;
    - the command line (lines 87-102) calls the packer on a directory and
      the unpacker on a file followed by one more argument, and otherwise
      prints a message and exits with status 1.

    The packer calls the orderer and the planner; the command line calls
    the packer and the unpacker; everything else the program does is a call
    of Python, of [os], or of Pillow.

    ** Files of the development, in dependency order

    The environment of the program (modelled from its documentation, not
    code of the repository):

    - [Prelude] (this file): exceptions ([exn]) and the outcome of a
      fallible call ([result], with the bind notation [let* x := e in k] of
      [py_scope]); the tactics [zdiv_lia], [zdiv_nia], [case_test],
      [inv_ok] and [in_list]; the hint databases [flip] and [flip_rw]; the lemmas on
      row-major indices, cells of a grid, lists and loops that can raise
      ([mapM] and [fold_result] in [result]) that the components share.
    - [Python]: the builtins on integers and lists the program calls:
      [len], [range], [range3] (three-argument range), [enumerate],
      [getitem] (indexing, with its IndexError), [int_math_sqrt]
      ([int(math.sqrt(n))]), and [floordiv] and [pymod] ([//] and [%]
      with their ZeroDivisionError).
    - [PyString]: strings as lists of characters (code points below 256)
      and the string builtins the program calls: [re_search_digits]
      ([re.search(r'(\d+)', s)]), [int_of_digits] and [int_of_str]
      ([int(s)] with blanks, sign and underscores), [str_of_int],
      [format_0wd] ([{:04d}]), [lower], [endswith_any], [split_on].
    - [PyPath]: [os.path.basename], [os.path.splitext] and [os.path.join]
      of the POSIX flavour, on strings.
    - [PySorted]: [sorted(l, key=...)] as a stable insertion sort over a
      key order ([Class KeyOrder]), with the theorem [sorted_unique] that
      ascending-and-stable determines the result: any stable sorting
      algorithm, Python's included, returns the same list.
    - [Imaging]: what the program needs of Pillow, as the interface
      [Class Imaging] (an image has a size and a colour at each coordinate;
      [Image_new], [image_paste], [image_crop] are characterised pixel by
      pixel), and its implementation on row-major pixel lists
      ([list_imaging]), on which the examples run.
    - [IO]: the monad [io] of computations over a state that can raise,
      its loops [foldM] and [forM_], the equations that run a computation
      step by step, and three kinds of specification: triples ([hoare]),
      invariants ([keeps]), and the facts [quiet] and [atomic] with the
      lemmas on the state a sequence or a loop leaves ([io_bind_state],
      [foldM_state]); the hint database [io_quiet] and the tactics
      [quiet_step], [atomic_step] and [keeps_pure] pass the steps that
      only read.
    - [World]: the state: a tree of directories and files (a finite map
      from resolved paths to nodes), the current directory, the order in
      which [os.listdir] lists, and the lines printed.  [resolve] walks a
      path string; [isdir], [isfile], [listdir], [makedirs], [Image_open],
      [image_save] and [print] are the calls of the program, each with the
      exception the operating system raises; [world_wf] is the invariant
      of the tree, kept by every call; [differs_in F] relates two worlds
      that are the same outside the set of paths [F].
    - [Scenes]: four concrete worlds ([studio], [cluttered], [gallery],
      [reused]) for the examples.

    The program:

    - [Grid]: [calc_grid_size] with its loop [scan_rows], in which [%]
      and [//] raise on a candidate 0, the contract [grid_spec] and the
      exhaustive reference [grid_ref].
    - [Order]: [extract_number] (the key: [KInt n] or [KInf] for
      [float('inf')]) and [sort_image_files].
    - [Pack]: the packer on names and decoded images: the extension filter
      of line 25 ([select_image_files]), the position of a frame
      ([paste_position], lines 50-51, with the ZeroDivisionError of a
      grid without columns), the paste loop ([paste_frames], lines
      48-52), the output name ([output_filename], line 55) and lines
      26-52 as a whole ([pack_images]); the specification [painted] of a
      pixel of the sheet.  Proved against [Imaging].
    - [Unpack]: the unpacker on a decoded sheet: [parse_dimensions] (line
      69), [crop_box] (lines 78-81), [frame_filename] (line 83), the nested
      loops ([grid_cells], [extract_frames], lines 76-83) and lines 72-83
      as a whole ([unpack_images]).  Proved against [Imaging].
    - [RoundTrip]: the packer followed by the unpacker
      ([pack_then_unpack]) and the unpacker followed by the packer
      ([unpack_then_pack]), on decoded images.
    - [Handlers]: the two functions as they are written, statement by
      statement, in [io world]: [pack_spritesheet] with the body of its
      loop [paste_file], and [unpack_spritesheet] with [output_folder_of]
      (line 62) and the body of its loops [save_frame]; their messages;
      that both keep [world_wf], and that the packer is [atomic].
    - [PackHandler]: [pack_spritesheet] against [pack_images]: the world
      after a run ([after_pack]), the run that raises, the second run.
    - [UnpackHandler]: [unpack_spritesheet] against [parse_dimensions] and
      [unpack_images] ([cut]): the outcome of a run ([after_unpack]), the
      runs that raise, the files a run leaves alone.
    - [Footprint]: the paths a run of each handler may change
      ([pack_footprint], [unpack_footprint]), with the names of sheets and
      frames given by their shape ([sheet_file], [frame_file]).
    - [EndToEnd]: a run of the packer followed by a run of the unpacker on
      the file it wrote, in one world.
    - [Cli]: [main] (lines 87-102), the meaning of a command line as the
      relation [invoked] and as the function [invocation_of], the
      handler [run] of a meaning and its [footprint].
    - [Session]: one run of the program as a step between worlds
      ([runs]), sequences of runs ([reachable]), the two runs that pack
      and unpack, through [main], and what no sequence of runs changes.

    ** What the theorems show

    - Planner: [calc_grid_size] refines [grid_spec] (rows * cols = n,
      1 <= rows <= cols, rows the largest divisor with rows^2 <= n), which
      determines the grid; it is the most square factorisation, a single
      row exactly for primes, equal to the exhaustive reference; it
      raises exactly on negative counts, with ValueError, so the loop
      never divides by zero, although it would on any candidate 0
      ([scan_rows_raises]); the fallback after the loop is taken exactly
      for 0.
    - Orderer: the result is the unique ascending and stable arrangement
      of the input; numbered frames come out in index order from any
      directory order; the result depends on the directory order exactly
      when two names share a key; only the first digit run counts.
    - Packer on images: never raises on well-formed frames (the grid has
      a column, so the positions exist); the sheet is a well-formed image
      of the size of the grid; the colour of every pixel of the sheet in
      general (that of the last frame whose box holds the pixel, [painted])
      and for frames of one size (exactly one frame per pixel, no gap, no
      overlap).
    - Unpacker on images: raises exactly for a zero dimension; for
      positive dimensions frame i is the cell (i // cols, i % cols) under
      the name [frame_name i], names distinct; every crop box lies inside
      the sheet; negative dimensions give no frame.
    - Round trip on images: unpacking a packed sheet returns the frames;
      packing an unpacked sheet returns the sheet exactly when the grid is
      the planner's.
    - Packer on the file system: a run refines [pack_images] on the
      pictures of the folder in sorted order, and writes one file and one
      line; on a folder without image files it writes one line; it raises
      at the first selected entry that is not a picture, or when a
      directory has the name of the sheet, and never otherwise; when it
      raises the world is unchanged; a second run writes the same file
      system.
    - Unpacker on the file system: a run creates the folder and then
      refines [cut]; after it every cell of the grid is a file of the
      folder; with bad dimensions it raises and the folder stays; a sheet
      without extension collides with its own folder; a run leaves every
      other file alone.
    - Command line: [main] runs the handler of the meaning [invoked]
      gives its arguments; what it rejects ends in [SystemExit 1] with one
      line printed and no file touched; a directory is packed whatever
      follows; the exceptions a run can end in are listed by mode
      ([raised_by]), and the errors of a missing path are not among them;
      a run, however it ends, changes the file system in the [footprint]
      of its command line only: a sheet in the folder packed, or the
      folder of the sheet unpacked and frames in it.
    - Sessions: after the two runs on a folder of frames of one size,
      frame i of the packing order is the file [frame_name i] of the
      folder named after the sheet; by induction on the runs, whatever is
      not a file named like a sheet, nor a file named like a frame in a
      folder of the current directory, is after any sequence of runs what
      it was before.

    Theorems about images are stated for every instance of [Imaging];
    theorems about runs for every world with [world_wf], every listing
    order included.  The examples instantiate them on [list_imaging] and
    on the worlds of [Scenes].

    ** Conventions and bounds

    Python's unbounded [int] is [Z]; [//] and [%] are [floordiv] and
    [pymod]: ZeroDivisionError for a divisor 0, else [Z.div] and
    [Z.modulo], which agree with Python's floor division for every sign
    of the operands.  The specifications ([grid_spec], [painted],
    [frame_at], [is_frame_of]) use [Z.div] and [Z.modulo] directly.  A
    function that can raise returns [result A]; a
    function that also acts on the file system or the console is an
    [io world A], and an exception leaves the world as the calls before it
    made it.  [sys.exit(1)] is the exception [SystemExit 1], which
    carries the exit status of the process.
    No definition needs fuel: the loops are structural recursions over
    [range] lists and over the arguments of [foldM], the path walk is a
    recursion over the components, and the one well-founded recursion
    ([digits_of], the decimal digits of a number) is total by
    construction; its equations are proved without functional
    extensionality, and the development rests on no axiom.
    [int(math.sqrt(n))] goes through a binary64 float; the
    model uses the exact [Z.sqrt], and the two agree for every n < 2^52.
    Characters are code points below 256, where [\d] matches the ASCII
    digits only and [int] strips the blanks 9-13, 32, 133 and 160.

    ** Not modelled

    - Image modes and file formats: a decoded image is a grid of RGBA
      colours, a file is a picture or bytes that do not decode, and what
      [Image.save] writes [Image.open] reads back unchanged.  The
      conversions that [paste] and [save] apply between modes, the TGA
      and PNG encoders, and the laziness of [Image.open] are outside the
      model.
    - The operating system beyond names: symbolic links, permissions,
      full disks, interrupted writes, concurrent changes of the folder by
      other processes, and paths of other flavours than POSIX.
    - Standard error and the traceback an uncaught exception prints.
    - The limit of 4300 digits that [int] puts on a string, and counts of
      frames from 2^52 on, where the float square root may be off by one.
      A folder holds far fewer files. *)

From Stdlib Require Import ZArith Lia List Sorted.
From stdpp Require Import prelude sorting.

#[global] Open Scope Z_scope.

(** ** Exceptions and fallible results *)

(** The exception classes that can escape the program. *)
Inductive exn : Type :=
| ValueError
| ZeroDivisionError
| IndexError
| FileNotFoundError
| FileExistsError
| NotADirectoryError
| IsADirectoryError
| UnidentifiedImageError
| SystemExit (status : Z).

#[global] Instance exn_eq_dec : EqDecision exn.
Proof. solve_decision. Defined.

(** The outcome of a call: a value, or an exception that propagates. *)
Inductive result (A : Type) : Type :=
| Ok (a : A)
| Raise (e : exn).
Arguments Ok {A} a.
Arguments Raise {A} e.

#[global] Instance result_eq_dec `{EqDecision A} : EqDecision (result A).
Proof. solve_decision. Defined.

#[global] Instance result_ret : MRet result := @Ok.
#[global] Instance result_bind : MBind result :=
  fun A B f r => match r with Ok a => f a | Raise e => Raise e end.
#[global] Instance result_fmap : FMap result :=
  fun A B f r => match r with Ok a => Ok (f a) | Raise e => Raise e end.

Declare Scope py_scope.
Delimit Scope py_scope with py.
Notation "'let*' x ':=' c1 'in' c2" := (mbind (fun x => c2) c1)
  (at level 10, x pattern, c1 at level 100, c2 at level 200,
   format "'[v' 'let*'  x  ':='  c1  'in' '/' c2 ']'") : py_scope.
#[global] Open Scope py_scope.

(** [is_ok r]: the call returned normally. *)
Definition is_ok {A} (r : result A) : bool :=
  match r with Ok _ => true | Raise _ => false end.

(** ** Tactics and hint databases *)

(** [lia] and [nia] after the characteristic equations of [/] and [mod]. *)
Ltac zdiv_lia := Z.div_mod_to_equations; lia.
Ltac zdiv_nia := Z.div_mod_to_equations; nia.

(** Case analysis on the boolean tests the model inherits from the code. *)
Ltac case_test :=
  match goal with
  | |- context [?a =? ?b] => destruct (Z.eqb_spec a b)
  | |- context [?a <? ?b] => destruct (Z.ltb_spec a b)
  | |- context [?a <=? ?b] => destruct (Z.leb_spec a b)
  end.

(** Inversion of a successful bind. *)
Ltac inv_ok :=
  repeat match goal with
  | H : Ok _ = Ok _ |- _ => injection H as H; subst
  | H : Raise _ = Ok _ |- _ => discriminate H
  | H : Ok _ = Raise _ |- _ => discriminate H
  | H : (_, _) = (_, _) |- _ => injection H as ? ?; subst
  end.

(** Membership in a list that is written out. *)
Ltac in_list := by repeat (first [apply list_elem_of_here | apply list_elem_of_further]).

Create HintDb flip discriminated.
Create Rewrite HintDb flip_rw.

(** ** Monad laws of [result] *)

Lemma result_bind_ok {A B} (f : A -> result B) (a : A) :
  mbind f (Ok a) = f a.
Proof. reflexivity. Qed.

Lemma result_bind_raise {A B} (f : A -> result B) (e : exn) :
  mbind f (Raise e) = Raise e.
Proof. reflexivity. Qed.

Lemma result_bind_ret {A} (r : result A) : mbind Ok r = r.
Proof. by destruct r. Qed.

Lemma result_bind_assoc {A B C} (f : A -> result B) (g : B -> result C) r :
  mbind g (mbind f r) = mbind (fun a => mbind g (f a)) r.
Proof. by destruct r. Qed.

Lemma result_bind_inv {A B} (f : A -> result B) (r : result A) (b : B) :
  mbind f r = Ok b <-> exists a, r = Ok a /\ f a = Ok b.
Proof.
  destruct r as [a|e]; simpl; split.
  - eauto.
  - by intros (a' & [= ->] & ?).
  - discriminate.
  - by intros (a' & ? & ?).
Qed.

#[export] Hint Rewrite @result_bind_ok @result_bind_raise @result_bind_ret : flip_rw.

(** ** Floor division and row-major indices *)

(** An index splits uniquely into a row and a column of a grid that is
    [cols] wide: the decomposition the packer computes with [//] and [%]
    and the unpacker inverts with [row * cols + col]. *)
Lemma index_div (cols row col : Z) :
  0 <= col < cols -> (row * cols + col) / cols = row.
Proof.
  intros. rewrite Z.add_comm, Z.div_add by lia.
  rewrite Z.div_small by lia. lia.
Qed.

Lemma index_mod (cols row col : Z) :
  0 <= col < cols -> (row * cols + col) mod cols = col.
Proof.
  intros. rewrite Z.add_comm, Z.mod_add by lia. apply Z.mod_small. lia.
Qed.

Lemma index_join (cols i : Z) :
  0 < cols -> (i / cols) * cols + i mod cols = i.
Proof. intros. zdiv_lia. Qed.

Lemma index_row_bound (rows cols i : Z) :
  0 < cols -> 0 <= i < rows * cols -> 0 <= i / cols < rows.
Proof. intros. zdiv_nia. Qed.

Lemma index_col_bound (cols i : Z) :
  0 < cols -> 0 <= i mod cols < cols.
Proof. intros. zdiv_lia. Qed.

Lemma mod0_divide (n d : Z) : 0 < d -> n mod d = 0 <-> (d | n).
Proof. intros. apply Z.mod_divide. lia. Qed.

Lemma divide_square_bound (n d : Z) :
  0 < n -> 0 < d -> (d | n) -> d * d <= n <-> d <= n / d.
Proof.
  intros Hn Hd [k ->]. rewrite Z.div_mul by lia. nia.
Qed.

#[export] Hint Resolve index_row_bound index_col_bound : flip.
#[export] Hint Rewrite index_div index_mod index_join using lia : flip_rw.

(** ** Lists *)

Lemma NoDup_fmap_inj_on {A B} (f : A -> B) (l : list A) (x y : A) :
  NoDup (f <$> l) -> x ∈ l -> y ∈ l -> f x = f y -> x = y.
Proof.
  induction l as [|z l IH]; [by rewrite elem_of_nil|].
  rewrite fmap_cons, NoDup_cons, !elem_of_cons.
  intros [Hz Hl] [->|Hx] [->|Hy] E; auto.
  - destruct Hz. rewrite E. by apply list_elem_of_fmap_2.
  - destruct Hz. rewrite <- E. by apply list_elem_of_fmap_2.
Qed.

(** A list without repetition that reads the same in both directions has
    at most one element. *)
Lemma NoDup_reverse_eq {A} (l : list A) (x y : A) :
  NoDup l -> reverse l = l -> x ∈ l -> y ∈ l -> x = y.
Proof.
  intros Hnd E. destruct l as [|z l]; [by intros ?%elem_of_nil|].
  assert (l = []) as ->; [|by intros ->%list_elem_of_singleton ->%list_elem_of_singleton].
  destruct l as [|z' l _] using rev_ind; [done|]. exfalso.
  rewrite reverse_cons, reverse_snoc in E. injection E as -> _.
  apply NoDup_cons in Hnd as [Hz _]. apply Hz, elem_of_app. right. apply list_elem_of_here.
Qed.

Lemma filter_none {A} (P : A -> Prop) `{forall x, Decision (P x)} (l : list A) :
  (forall x, x ∈ l -> ~ P x) -> filter P l = [].
Proof.
  induction l as [|x l IH]; intros Hl; [done|].
  rewrite filter_cons, decide_False by (apply Hl; left).
  apply IH. intros y ?. apply Hl. by right.
Qed.

Lemma filter_all {A} (P : A -> Prop) `{forall x, Decision (P x)} (l : list A) :
  (forall x, x ∈ l -> P x) -> filter P l = l.
Proof.
  induction l as [|x l IH]; intros Hl; [done|].
  rewrite filter_cons, decide_True by (apply Hl; left).
  f_equal. apply IH. intros y ?. apply Hl. by right.
Qed.

Lemma StronglySorted_impl {A} (R1 R2 : relation A) (l : list A) :
  (forall x y, R1 x y -> R2 x y) -> StronglySorted R1 l -> StronglySorted R2 l.
Proof.
  intros HR. induction 1; constructor; [done|].
  eapply Forall_impl; [done | auto].
Qed.

Lemma NoDup_omap {A B} (f : A -> option B) (l : list A) :
  NoDup l ->
  (forall x y z, x ∈ l -> y ∈ l -> f x = Some z -> f y = Some z -> x = y) ->
  NoDup (omap f l).
Proof.
  induction 1 as [|x l Hx Hl IH]; intros Hinj; [constructor|]. cbn.
  assert (NoDup (omap f l))
    by (apply IH; intros y1 y2 z ? ?; apply Hinj; by apply list_elem_of_further).
  destruct (f x) as [z|] eqn:E; [|done]. constructor; [|done].
  intros (y & Hy & Ey)%list_elem_of_omap. destruct Hx.
  by rewrite (Hinj x y z) by (done || by constructor).
Qed.

(** ** Boxes of a grid *)

(** A coordinate lies in the [q]-th cell of width [w] exactly when its
    quotient by [w] is [q]; its offset in the cell is the remainder. *)
Lemma cell_iff_div (w x q : Z) : 0 < w -> 0 <= x - q * w < w <-> x / w = q.
Proof. intros. split; intros; zdiv_nia. Qed.

Lemma cell_offset (w x : Z) : 0 < w -> x - (x / w) * w = x mod w.
Proof. intros. zdiv_lia. Qed.

Lemma cell_div (w q d : Z) : 0 <= d < w -> (q * w + d) / w = q.
Proof. apply index_div. Qed.

Lemma cell_index_bound (rows cols r c : Z) :
  0 <= r < rows -> 0 <= c < cols -> 0 <= r * cols + c < rows * cols.
Proof. intros. nia. Qed.

Lemma div_lt_cells (w n x : Z) : 0 < w -> 0 <= x < n * w -> 0 <= x / w < n.
Proof. intros. zdiv_nia. Qed.

(** ** Loops that can raise: [mapM] in [result] *)

(** A loop whose every iteration succeeds succeeds, and its results are
    related to the inputs one by one. *)
Lemma mapM_result_Forall2 {A B} (f : A -> result B) (P : A -> B -> Prop) (l : list A) :
  (forall x, x ∈ l -> exists y, f x = Ok y /\ P x y) ->
  exists k, mapM f l = Ok k /\ Forall2 P l k.
Proof.
  induction l as [|x l IH]; intros Hf; [by exists []|].
  destruct (Hf x) as (y & Hy & ?); [left|].
  destruct IH as (k & Hk & ?); [intros z ?; apply Hf; by right|].
  exists (y :: k). simpl. rewrite Hy. simpl. rewrite Hk. by split; [|constructor].
Qed.

(** A loop raises the exception of its first failing iteration. *)
Lemma mapM_result_raise {A B} (f : A -> result B) (l1 l2 : list A) (x : A) (e : exn) :
  (forall z, z ∈ l1 -> is_ok (f z) = true) -> f x = Raise e ->
  mapM f (l1 ++ x :: l2) = Raise e.
Proof.
  induction l1 as [|z l1 IH]; intros Hok Hx; simpl; [by rewrite Hx|].
  pose proof (Hok z ltac:(left)) as Hz. destruct (f z); [|done]. simpl.
  rewrite IH; [done | | done]. intros w ?. apply Hok. by right.
Qed.

Lemma mapM_result_cons {A B} (f : A -> result B) (x : A) (l : list A) (k : list B) :
  mapM f (x :: l) = Ok k <-> exists y k', f x = Ok y /\ mapM f l = Ok k' /\ k = y :: k'.
Proof.
  simpl. destruct (f x) as [y|]; simpl; [|split; [done | by intros (? & ? & ? & _)]].
  destruct (mapM f l) as [k'|]; simpl; split.
  - intros [= <-]. eauto.
  - by intros (? & ? & [= <-] & [= <-] & ->).
  - done.
  - by intros (? & ? & _ & ? & _).
Qed.

(** What every result of [f] satisfies, the results of the loop satisfy
    in order. *)
Lemma mapM_result_fmap {A B C} (f : A -> result B) (g : B -> C) (h : A -> C)
    (l : list A) (k : list B) :
  (forall x y, f x = Ok y -> g y = h x) -> mapM f l = Ok k -> g <$> k = h <$> l.
Proof.
  intros Hf. revert k. induction l as [|x l IH]; intros k; [by intros [= <-]|].
  intros (y & k' & Hy & Hk & ->)%mapM_result_cons. rewrite !fmap_cons. f_equal; eauto.
Qed.

Lemma mapM_result_nil {A B} (f : A -> result B) : mapM f [] = Ok [].
Proof. done. Qed.

(** ** Loops with an accumulator *)

(** A [for] loop that threads an accumulator through a body that may
    raise: the loop ends at the first exception. *)
Fixpoint fold_result {A B} (body : B -> A -> result B) (init : B) (l : list A) : result B :=
  match l with
  | [] => Ok init
  | x :: l => let* b := body init x in fold_result body b l
  end.

Lemma fold_result_cons_ok {A B} (body : B -> A -> result B) (init b : B) (x : A) (l : list A) :
  body init x = Ok b -> fold_result body init (x :: l) = fold_result body b l.
Proof. simpl. by intros ->. Qed.

Lemma fold_result_cons_raise {A B} (body : B -> A -> result B) (init : B) (x : A) l e :
  body init x = Raise e -> fold_result body init (x :: l) = Raise e.
Proof. simpl. by intros ->. Qed.

Lemma list_bind_singleton {A B} (g : A -> B) (l : list A) :
  (x ← l; [g x]) = g <$> l.
Proof. induction l as [|x l IH]; [done|]. by rewrite bind_cons, IH. Qed.
