(* ===== verification/Python.v ===== *)
(** * Python: the builtins the program calls

    The program is written against Python's builtins and standard library.
    This file models the ones it calls, from their documented behaviour:
    [range] with one and with three arguments, [len], [enumerate],
    [int(math.sqrt(n))], and the floor division [//] and the remainder [%]
    with their ZeroDivisionError.  Each definition
    is executable, and each comes with the lemmas the components use in
    place of unfolding it. *)

From Stdlib Require Import ZArith Lia List.
From stdpp Require Import prelude sorting.
From S2P Require Import Prelude.

(** ** [len] *)

Definition len {A} (l : list A) : Z := Z.of_nat (length l).

Lemma len_nonneg {A} (l : list A) : 0 <= len l.
Proof. unfold len. lia. Qed.

Lemma len_nil {A} : len (@nil A) = 0.
Proof. reflexivity. Qed.

Lemma len_cons {A} (x : A) l : len (x :: l) = len l + 1.
Proof. unfold len. simpl. lia. Qed.

Lemma len_app {A} (l1 l2 : list A) : len (l1 ++ l2) = len l1 + len l2.
Proof. unfold len. rewrite length_app. lia. Qed.

Lemma len_0_nil {A} (l : list A) : len l = 0 <-> l = [].
Proof. unfold len. destruct l; simpl; split; intros; try done; lia. Qed.

#[export] Hint Resolve len_nonneg : flip.
#[export] Hint Rewrite @len_nil @len_cons @len_app : flip_rw.

(** ** [range] *)

(** [range(n)]: 0, 1, ..., n-1; empty when [n <= 0]. *)
Definition range (n : Z) : list Z := seqZ 0 n.

(** The number of elements of [range(start, stop, step)]. *)
Definition range_len (start stop step : Z) : Z :=
  if 0 <? step then
    if start <? stop then (stop - start - 1) / step + 1 else 0
  else if step <? 0 then
    if stop <? start then (start - stop - 1) / (- step) + 1 else 0
  else 0.

(** [range(start, stop, step)]: start, start+step, ... up to and excluding
    stop.  Python raises ValueError for [step = 0]; the program only passes
    the literal -1, and the model yields the empty list there. *)
Definition range3 (start stop step : Z) : list Z :=
  (fun i => start + i * step) <$> seqZ 0 (range_len start stop step).

Lemma elem_of_range (n i : Z) : i ∈ range n <-> 0 <= i < n.
Proof. unfold range. rewrite elem_of_seqZ. lia. Qed.

Lemma length_range (n : Z) : length (range n) = Z.to_nat n.
Proof. apply length_seqZ. Qed.

Lemma range_nonpos (n : Z) : n <= 0 -> range n = [].
Proof.
  intros. apply length_zero_iff_nil. rewrite length_range. lia.
Qed.

Lemma range_succ (n : Z) : 0 <= n -> range (n + 1) = range n ++ [n].
Proof.
  intros. unfold range. rewrite seqZ_app by lia. simpl. f_equal.
Qed.

Lemma NoDup_range (n : Z) : NoDup (range n).
Proof. apply NoDup_seqZ. Qed.

Lemma StronglySorted_seqZ (m n : Z) :
  StronglySorted (fun x y => m <= x < y /\ y < m + n) (seqZ m n).
Proof.
  destruct (Z.le_gt_cases n 0); [rewrite seqZ_nil by done; constructor|].
  assert (forall k : nat, StronglySorted
            (fun x y => m <= x < y /\ y < m + Z.of_nat k) (seqZ m (Z.of_nat k))) as Hk.
  { induction k as [|k IH]; [constructor|].
    rewrite seqZ_S. apply StronglySorted_app_2.
    - intros x y Hx ->%list_elem_of_singleton. apply elem_of_seqZ in Hx. lia.
    - eapply StronglySorted_impl; [|exact IH]. intros x y ?. simpl in *. lia.
    - repeat constructor. }
  specialize (Hk (Z.to_nat n)). by rewrite Z2Nat.id in Hk by lia.
Qed.

Lemma StronglySorted_range (n : Z) :
  StronglySorted (fun x y => 0 <= x < y /\ y < n) (range n).
Proof.
  eapply StronglySorted_impl; [|apply (StronglySorted_seqZ 0 n)].
  intros x y ?. simpl in *. lia.
Qed.

(** The descending range of the divisor scan: [range(s, 0, -1)]. *)
Lemma range3_down_nil (s : Z) : s <= 0 -> range3 s 0 (-1) = [].
Proof.
  intros. unfold range3, range_len. simpl.
  destruct (Z.ltb_spec 0 s); [lia | done].
Qed.

Lemma range_len_down (s : Z) : range_len s 0 (-1) = Z.max 0 s.
Proof.
  unfold range_len. simpl. destruct (Z.ltb_spec 0 s); [| lia].
  change (- (-1)) with 1. rewrite Z.div_1_r. lia.
Qed.

Lemma range3_down_cons (s : Z) :
  0 < s -> range3 s 0 (-1) = s :: range3 (s - 1) 0 (-1).
Proof.
  intros. unfold range3. rewrite !range_len_down.
  replace (Z.max 0 s) with (Z.succ (s - 1)) by lia.
  replace (Z.max 0 (s - 1)) with (s - 1) by lia.
  rewrite seqZ_cons by lia. rewrite fmap_cons. f_equal; [lia |].
  change (Z.succ 0) with (1 + 0). rewrite <- fmap_add_seqZ.
  rewrite <- list_fmap_compose. replace (Z.pred (Z.succ (s - 1))) with (s - 1) by lia.
  apply list_fmap_ext. intros _ i _. simpl. lia.
Qed.

Lemma elem_of_range3_down (s x : Z) : x ∈ range3 s 0 (-1) <-> 1 <= x <= s.
Proof.
  destruct (Z.le_gt_cases s 0) as [Hs|Hs].
  { rewrite range3_down_nil by done. rewrite elem_of_nil. lia. }
  revert x. pattern s. apply Zlt_lower_bound_ind with (z := 1); [| lia].
  clear s Hs. intros s IH Hs x.
  rewrite range3_down_cons, elem_of_cons by lia.
  destruct (decide (s = 1)) as [->|].
  - rewrite range3_down_nil by lia. rewrite elem_of_nil. lia.
  - rewrite IH by lia. lia.
Qed.

(** ** [int(math.sqrt(n))] *)

(** [math.sqrt] raises ValueError ("math domain error") on a negative
    argument; [int] truncates the float.  For [0 <= n < 2^52] the float
    square root is exact enough that the truncation is the integer square
    root. *)
Definition int_math_sqrt (n : Z) : result Z :=
  if n <? 0 then Raise ValueError else Ok (Z.sqrt n).

Lemma int_math_sqrt_ok (n : Z) : 0 <= n -> int_math_sqrt n = Ok (Z.sqrt n).
Proof. intros. unfold int_math_sqrt. case_test; [lia | done]. Qed.

Lemma int_math_sqrt_neg (n : Z) : n < 0 -> int_math_sqrt n = Raise ValueError.
Proof. intros. unfold int_math_sqrt. case_test; [done | lia]. Qed.

Lemma sqrt_pos (n : Z) : 1 <= n -> 1 <= Z.sqrt n.
Proof. intros. apply Z.sqrt_le_square; lia. Qed.

#[export] Hint Resolve sqrt_pos Z.sqrt_nonneg : flip.

(** ** [enumerate] *)

(** [enumerate(l, start)]: the elements paired with their position. *)
Fixpoint enumerate_from {A} (start : Z) (l : list A) : list (Z * A) :=
  match l with
  | [] => []
  | x :: l' => (start, x) :: enumerate_from (start + 1) l'
  end.

Definition enumerate {A} (l : list A) : list (Z * A) := enumerate_from 0 l.

Lemma length_enumerate_from {A} (start : Z) (l : list A) :
  length (enumerate_from start l) = length l.
Proof. revert start. induction l; intros; simpl; by f_equal. Qed.

Lemma enumerate_from_app {A} (start : Z) (l1 l2 : list A) :
  enumerate_from start (l1 ++ l2)
  = enumerate_from start l1 ++ enumerate_from (start + len l1) l2.
Proof.
  revert start. induction l1 as [|x l1 IH]; intros start; simpl.
  - by rewrite len_nil, Z.add_0_r.
  - rewrite IH, len_cons. do 3 f_equal. lia.
Qed.

Lemma enumerate_snoc {A} (l : list A) (x : A) :
  enumerate (l ++ [x]) = enumerate l ++ [(len l, x)].
Proof. unfold enumerate. by rewrite enumerate_from_app. Qed.

Lemma lookup_enumerate_from {A} (start : Z) (l : list A) (i : nat) :
  enumerate_from start l !! i = (fun x => (start + Z.of_nat i, x)) <$> l !! i.
Proof.
  revert start i. induction l as [|x l IH]; intros start [|i]; simpl; try done.
  - by rewrite Z.add_0_r.
  - rewrite IH. destruct (l !! i); simpl; [|done]. do 2 f_equal. lia.
Qed.

Lemma elem_of_enumerate_from {A} (start : Z) (l : list A) (i : Z) (x : A) :
  (i, x) ∈ enumerate_from start l <->
  start <= i /\ l !! Z.to_nat (i - start) = Some x.
Proof.
  rewrite list_elem_of_lookup. setoid_rewrite lookup_enumerate_from. split.
  - intros (k & Hk). destruct (l !! k) eqn:E; simplify_eq/=.
    split; [lia|]. by replace (Z.to_nat (start + Z.of_nat k - start)) with k by lia.
  - intros [? Hx]. exists (Z.to_nat (i - start)). rewrite Hx. simpl.
    do 2 f_equal. lia.
Qed.

Lemma fmap_snd_enumerate_from {A} (start : Z) (l : list A) :
  (enumerate_from start l).*2 = l.
Proof. revert start. induction l; intros; simpl; by f_equal. Qed.

(** ** [a // b] and [a % b] *)

(** Floor division of ints; a zero divisor raises ZeroDivisionError. *)
Definition floordiv (a b : Z) : result Z :=
  if b =? 0 then Raise ZeroDivisionError else Ok (a / b).

Lemma floordiv_ok (a b : Z) : b <> 0 -> floordiv a b = Ok (a / b).
Proof. intros. unfold floordiv. case_test; [lia | done]. Qed.

Lemma floordiv_zero (a : Z) : floordiv a 0 = Raise ZeroDivisionError.
Proof. done. Qed.

Lemma floordiv_raises (a b : Z) (e : exn) :
  floordiv a b = Raise e <-> b = 0 /\ e = ZeroDivisionError.
Proof.
  unfold floordiv. case_test; split; try done.
  - by intros [= <-].
  - by intros [_ ->].
  - by intros [? _].
Qed.

(** The remainder of ints, with the sign of the divisor; a zero divisor
    raises ZeroDivisionError. *)
Definition pymod (a b : Z) : result Z :=
  if b =? 0 then Raise ZeroDivisionError else Ok (a mod b).

Lemma pymod_ok (a b : Z) : b <> 0 -> pymod a b = Ok (a mod b).
Proof. intros. unfold pymod. case_test; [lia | done]. Qed.

Lemma pymod_zero (a : Z) : pymod a 0 = Raise ZeroDivisionError.
Proof. done. Qed.

(** ** Subscription *)

(** [l\[i\]] for a non-negative index: IndexError past the end. *)
Definition getitem {A} (l : list A) (i : nat) : result A :=
  match l !! i with
  | Some x => Ok x
  | None => Raise IndexError
  end.

Lemma getitem_ok {A} (l : list A) (i : nat) (x : A) : l !! i = Some x -> getitem l i = Ok x.
Proof. unfold getitem. by intros ->. Qed.
