(* ===== verification/PyString.v ===== *)
(** * PyString: Python strings and the string builtins the program calls

    A Python [str] is a list of characters ([str], with string literals
    coerced).  Characters are the code points below 256; on them [\d]
    matches exactly the ten ASCII digits.  The file models the digit
    scanning behind [re.search(r'(\d+)', s)], [int] of a run of digits,
    the decimal printing behind f-strings ([str_of_int], [format_0wd] for
    [{n:04d}]), [str.lower] and [str.endswith], each with the lemmas that
    let the components reason without unfolding them. *)

From Stdlib Require Import ZArith Lia List Ascii String.
From stdpp Require Import prelude strings.
From Equations Require Import Equations.
From S2P Require Import Prelude.

Abbreviation str := (list ascii).
Coercion list_ascii_of_string : string >-> list.

(** ** Characters *)

Definition ord (c : ascii) : Z := Z.of_N (N_of_ascii c).
Definition chr (n : Z) : ascii := ascii_of_N (Z.to_N n).

Definition is_digit (c : ascii) : bool := (48 <=? ord c) && (ord c <=? 57).
Definition digit_val (c : ascii) : Z := ord c - 48.
Definition digit_chr (d : Z) : ascii := chr (48 + d).

Lemma ord_range (c : ascii) : 0 <= ord c < 256.
Proof. unfold ord. pose proof (N_ascii_bounded c). lia. Qed.

Lemma ord_chr (n : Z) : 0 <= n < 256 -> ord (chr n) = n.
Proof.
  intros. unfold ord, chr. rewrite N_ascii_embedding by lia. lia.
Qed.

Lemma chr_ord (c : ascii) : chr (ord c) = c.
Proof. unfold ord, chr. rewrite N2Z.id. apply ascii_N_embedding. Qed.

Lemma ord_inj (c d : ascii) : ord c = ord d -> c = d.
Proof. intros E. rewrite <- (chr_ord c), <- (chr_ord d). by rewrite E. Qed.

Lemma is_digit_digit_chr (d : Z) : 0 <= d < 10 -> is_digit (digit_chr d) = true.
Proof.
  intros. unfold is_digit, digit_chr. rewrite ord_chr by lia.
  apply andb_true_iff. lia.
Qed.

Lemma digit_val_digit_chr (d : Z) : 0 <= d < 10 -> digit_val (digit_chr d) = d.
Proof. intros. unfold digit_val, digit_chr. rewrite ord_chr by lia. lia. Qed.

Lemma digit_val_range (c : ascii) : is_digit c = true -> 0 <= digit_val c < 10.
Proof. unfold is_digit, digit_val. rewrite andb_true_iff. lia. Qed.

Lemma digit_chr_digit_val (c : ascii) :
  is_digit c = true -> digit_chr (digit_val c) = c.
Proof.
  intros. unfold digit_chr, digit_val.
  replace (48 + (ord c - 48)) with (ord c) by lia. apply chr_ord.
Qed.

#[export] Hint Rewrite ord_chr chr_ord digit_val_digit_chr is_digit_digit_chr
  using lia : flip_rw.

(** ** Longest prefix satisfying a test *)

Section take_while.
Context {A : Type} (p : A -> bool).

Fixpoint take_while (l : list A) : list A :=
  match l with
  | [] => []
  | x :: l' => if p x then x :: take_while l' else []
  end.

Fixpoint drop_while (l : list A) : list A :=
  match l with
  | [] => []
  | x :: l' => if p x then drop_while l' else l
  end.

Lemma take_drop_while (l : list A) : take_while l ++ drop_while l = l.
Proof. induction l as [|x l IH]; simpl; [done|]. destruct (p x); simpl; by f_equal. Qed.

Lemma take_while_Forall (l : list A) : Forall (fun x => p x = true) (take_while l).
Proof.
  induction l as [|x l IH]; simpl; [done|].
  destruct (p x) eqn:E; by constructor.
Qed.

Lemma take_while_app (l1 l2 : list A) :
  Forall (fun x => p x = true) l1 ->
  take_while (l1 ++ l2) = l1 ++ take_while l2.
Proof. induction 1 as [|x l1 Hx _ IH]; simpl; [done|]. by rewrite Hx, IH. Qed.

Lemma take_while_all (l : list A) :
  Forall (fun x => p x = true) l -> take_while l = l.
Proof.
  intros H. rewrite <- (app_nil_r l) at 1.
  rewrite take_while_app by done. apply app_nil_r.
Qed.

Lemma take_while_stop (x : A) (l : list A) : p x = false -> take_while (x :: l) = [].
Proof. simpl. by intros ->. Qed.

Lemma drop_while_app (l1 l2 : list A) :
  Forall (fun x => p x = true) l1 ->
  drop_while (l1 ++ l2) = drop_while l2.
Proof. induction 1 as [|x l1 Hx _ IH]; simpl; [done|]. by rewrite Hx. Qed.

(** What [drop_while] leaves starts with an element that fails the test. *)
Lemma drop_while_cons (l : list A) (x : A) (l' : list A) :
  drop_while l = x :: l' -> p x = false.
Proof.
  induction l as [|y l IH]; simpl; [done|].
  destruct (p y) eqn:E; [done|]. by intros [= <- _].
Qed.

End take_while.

(** ** [int] of a run of decimal digits *)

Definition int_of_digits (s : str) : Z :=
  foldl (fun acc c => 10 * acc + digit_val c) 0 s.

Abbreviation all_digits := (Forall (fun c => is_digit c = true)).
Abbreviation no_digit := (Forall (fun c => is_digit c = false)).

Lemma int_of_digits_snoc (s : str) (c : ascii) :
  int_of_digits (s ++ [c]) = 10 * int_of_digits s + digit_val c.
Proof. unfold int_of_digits. by rewrite foldl_app. Qed.

Lemma int_of_digits_nonneg (s : str) : all_digits s -> 0 <= int_of_digits s.
Proof.
  induction s as [|c s IH] using rev_ind; [done|].
  rewrite Forall_app, Forall_singleton, int_of_digits_snoc.
  intros [? ?%digit_val_range]. specialize (IH ltac:(done)). lia.
Qed.

(** Leading zeros do not change the value: [int("0007") = 7]. *)
Lemma int_of_digits_zeros (k : nat) (s : str) :
  int_of_digits (replicate k "0"%char ++ s) = int_of_digits s.
Proof.
  unfold int_of_digits. rewrite foldl_app. f_equal.
  induction k as [|k IH] using nat_ind; [done|].
  rewrite replicate_S_end, foldl_app. simpl. by rewrite IH.
Qed.

(** ** [re.search(r'(\d+)', s)] *)

(** The text of the leftmost match of [\d+]: skip to the first digit, then
    take digits greedily.  [None] when the string holds no digit. *)
Fixpoint re_search_digits (s : str) : option str :=
  match s with
  | [] => None
  | c :: s' =>
      if is_digit c then Some (c :: take_while is_digit s')
      else re_search_digits s'
  end.

Lemma re_search_digits_None (s : str) :
  re_search_digits s = None <-> no_digit s.
Proof.
  induction s as [|c s IH]; simpl; [by split; auto|].
  rewrite Forall_cons. destruct (is_digit c); [split; [done | by intros [? _]] | tauto].
Qed.

Lemma re_search_digits_skip (pre s : str) :
  no_digit pre -> re_search_digits (pre ++ s) = re_search_digits s.
Proof. induction 1 as [|c pre Hc _ IH]; simpl; [done|]. by rewrite Hc. Qed.

Lemma re_search_digits_digits (ds post : str) :
  ds <> [] -> all_digits ds ->
  re_search_digits (ds ++ post) = Some (ds ++ take_while is_digit post).
Proof.
  destruct ds as [|c ds]; [done|]. intros _ [Hc Hds]%Forall_cons. simpl.
  by rewrite Hc, take_while_app.
Qed.

(** The match found in [pre ++ ds ++ post], when [pre] holds no digit, [ds]
    is a non-empty run of digits and [post] does not start with one. *)
Lemma re_search_digits_run (pre ds post : str) :
  no_digit pre -> ds <> [] -> all_digits ds ->
  take_while is_digit post = [] ->
  re_search_digits (pre ++ ds ++ post) = Some ds.
Proof.
  intros. rewrite re_search_digits_skip, re_search_digits_digits by done.
  f_equal. rewrite H2. apply app_nil_r.
Qed.

Lemma re_search_digits_all_digits (s m : str) :
  re_search_digits s = Some m -> m <> [] /\ all_digits m.
Proof.
  induction s as [|c s IH]; simpl; [done|].
  destruct (is_digit c) eqn:E; [|done]. intros [= <-]. split; [done|].
  constructor; [done | apply take_while_Forall].
Qed.

(** ** Decimal printing: [str(n)] and [f"{n}"] *)

(** The decimal digits of a non-negative integer, most significant first.
    The equations of the definition are proved without functional
    extensionality, so nothing that uses them rests on an axiom. *)
#[local] Unset Equations With Funext.
Equations? digits_of (n : Z) : str by wf (Z.to_nat n) lt :=
digits_of n with decide (n < 10) => {
  | left _ := [digit_chr n];
  | right _ := digits_of (n / 10) ++ [digit_chr (n mod 10)] }.
Proof. zdiv_lia. Qed.

(** [str(n)] for an [int]. *)
Definition str_of_int (n : Z) : str :=
  if n <? 0 then "-" ++ digits_of (- n) else digits_of n.

(** [s.zfill(width)] on a run of digits: pad with zeros on the left. *)
Definition zfill (width : nat) (s : str) : str :=
  replicate (width - length s) "0"%char ++ s.

(** [f"{n:0wd}"]: sign-aware zero padding to [width] characters. *)
Definition format_0wd (width : nat) (n : Z) : str :=
  if n <? 0 then "-" ++ zfill (width - 1) (digits_of (- n))
  else zfill width (digits_of n).

Lemma digits_of_nonempty (n : Z) : digits_of n <> [].
Proof.
  funelim (digits_of n); [done|]. intros E. by apply app_eq_nil in E as [_ ?].
Qed.

Lemma digits_of_all_digits (n : Z) : 0 <= n -> all_digits (digits_of n).
Proof.
  funelim (digits_of n); intros Hn.
  - apply Forall_singleton, is_digit_digit_chr. lia.
  - apply Forall_app. split; [apply H; zdiv_lia|].
    apply Forall_singleton, is_digit_digit_chr. zdiv_lia.
Qed.

(** Printing then parsing returns the number. *)
Lemma int_of_digits_digits_of (n : Z) : 0 <= n -> int_of_digits (digits_of n) = n.
Proof.
  funelim (digits_of n); intros Hn.
  - unfold int_of_digits. simpl. rewrite digit_val_digit_chr; lia.
  - rewrite int_of_digits_snoc, H by zdiv_lia.
    rewrite digit_val_digit_chr by zdiv_lia. zdiv_lia.
Qed.

Lemma digits_of_inj (n m : Z) :
  0 <= n -> 0 <= m -> digits_of n = digits_of m -> n = m.
Proof.
  intros ? ? E. rewrite <- (int_of_digits_digits_of n), <- (int_of_digits_digits_of m) by done.
  by rewrite E.
Qed.

Lemma str_of_int_nonneg (n : Z) : 0 <= n -> str_of_int n = digits_of n.
Proof. intros. unfold str_of_int. case_test; [lia | done]. Qed.

Lemma digits_of_head (n : Z) :
  0 <= n -> exists c s, digits_of n = c :: s /\ is_digit c = true.
Proof.
  intros Hn. pose proof (digits_of_all_digits n Hn) as H.
  destruct (digits_of n) as [|c s] eqn:E; [by apply digits_of_nonempty in E|].
  apply Forall_cons in H as [? _]. eauto.
Qed.

Lemma str_of_int_inj (n m : Z) : str_of_int n = str_of_int m -> n = m.
Proof.
  unfold str_of_int. repeat case_test.
  - intros [= E]. apply digits_of_inj in E; lia.
  - destruct (digits_of_head m) as (c & s & -> & Hc); [lia|].
    by intros [= <- _].
  - destruct (digits_of_head n) as (c & s & -> & Hc); [lia|].
    by intros [= -> _].
  - apply digits_of_inj; lia.
Qed.

Lemma zfill_all_digits (w : nat) (s : str) : all_digits s -> all_digits (zfill w s).
Proof.
  intros. apply Forall_app. split; [|done]. by apply Forall_replicate.
Qed.

Lemma int_of_digits_zfill (w : nat) (s : str) :
  int_of_digits (zfill w s) = int_of_digits s.
Proof. apply int_of_digits_zeros. Qed.

Lemma length_zfill (w : nat) (s : str) : length (zfill w s) = (w `max` length s)%nat.
Proof. unfold zfill. rewrite length_app, length_replicate. lia. Qed.

Lemma format_0wd_nonneg (w : nat) (n : Z) :
  0 <= n -> format_0wd w n = zfill w (digits_of n).
Proof. intros. unfold format_0wd. case_test; [lia | done]. Qed.

Lemma format_0wd_all_digits (w : nat) (n : Z) :
  0 <= n -> format_0wd w n <> [] /\ all_digits (format_0wd w n).
Proof.
  intros. rewrite format_0wd_nonneg by done. split.
  - intros [_ E]%app_eq_nil. by apply (digits_of_nonempty n).
  - by apply zfill_all_digits, digits_of_all_digits.
Qed.

(** Zero padding does not change the number read back. *)
Lemma int_of_digits_format_0wd (w : nat) (n : Z) :
  0 <= n -> int_of_digits (format_0wd w n) = n.
Proof.
  intros. by rewrite format_0wd_nonneg, int_of_digits_zfill, int_of_digits_digits_of.
Qed.

Lemma format_0wd_inj (w : nat) (n m : Z) :
  0 <= n -> 0 <= m -> format_0wd w n = format_0wd w m -> n = m.
Proof.
  intros ? ? E. rewrite <- (int_of_digits_format_0wd w n), <- (int_of_digits_format_0wd w m) by done.
  by rewrite E.
Qed.

(** ** [str.lower] and [str.endswith] *)

(** [str.lower] on the code points below 256: A-Z and the accented capitals
    192-222 (except the multiplication sign 215) move up by 32. *)
Definition lower_chr (c : ascii) : ascii :=
  let n := ord c in
  if (65 <=? n) && (n <=? 90) then chr (n + 32)
  else if (192 <=? n) && (n <=? 222) && negb (n =? 215) then chr (n + 32)
  else c.

Definition lower (s : str) : str := lower_chr <$> s.

(** [s.endswith(suffix)]. *)
Definition endswith (s suffix : str) : bool := bool_decide (suffix `suffix_of` s).

(** [s.endswith((suffix1, suffix2, ...))]: any of a tuple of suffixes. *)
Definition endswith_any (s : str) (suffixes : list str) : bool :=
  existsb (endswith s) suffixes.

Lemma lower_app (s t : str) : lower (s ++ t) = lower s ++ lower t.
Proof. apply fmap_app. Qed.

Lemma lower_chr_idemp (c : ascii) : lower_chr (lower_chr c) = lower_chr c.
Proof.
  by destruct c as [[] [] [] [] [] [] [] []].
Qed.

Lemma lower_idemp (s : str) : lower (lower s) = lower s.
Proof.
  unfold lower. rewrite <- list_fmap_compose. apply list_fmap_ext.
  intros _ c _. apply lower_chr_idemp.
Qed.

Lemma length_lower (s : str) : length (lower s) = length s.
Proof. apply length_fmap. Qed.

Lemma endswith_true (s suffix : str) :
  endswith s suffix = true <-> exists k, s = k ++ suffix.
Proof. unfold endswith. by rewrite bool_decide_eq_true. Qed.

Lemma endswith_app (s suffix : str) : endswith (s ++ suffix) suffix = true.
Proof. apply endswith_true. eauto. Qed.

(** A string that ends with one suffix does not end with a different one
    of the same length. *)
Lemma endswith_other (s suffix other : str) :
  length other = length suffix -> other <> suffix ->
  endswith (s ++ suffix) other = false.
Proof.
  intros Hlen Hne. apply not_true_is_false. intros [k E]%endswith_true.
  apply app_inj_2 in E as [_ ?]; [congruence | done].
Qed.

Lemma endswith_any_true (s : str) (suffixes : list str) :
  endswith_any s suffixes = true <-> exists suffix, suffix ∈ suffixes /\ endswith s suffix = true.
Proof.
  unfold endswith_any. rewrite existsb_exists.
  by setoid_rewrite list_elem_of_In.
Qed.

(** A string that ends with [suffix] ends with a string at least as long
    only if [suffix] ends that string too. *)
Lemma endswith_longer (s suffix other : str) :
  (length suffix <= length other)%nat -> ~ suffix `suffix_of` other ->
  endswith (s ++ suffix) other = false.
Proof.
  intros Hlen Hns. apply not_true_is_false. unfold endswith.
  rewrite bool_decide_eq_true. intros Ho.
  destruct (suffix_weak_total suffix other (s ++ suffix)) as [?|Hos];
    [by apply suffix_app_r | done | done |].
  apply Hns. apply suffix_length in Hos as Hlen'.
  destruct Hos as [k ->]. rewrite length_app in Hlen.
  destruct k; [done | simpl in Hlen; lia].
Qed.

Lemma lower_literal (s : str) :
  Forall (fun c => lower_chr c = c) s -> lower s = s.
Proof.
  induction 1 as [|c s Hc _ IH]; [done|]. unfold lower in *.
  rewrite fmap_cons. by f_equal.
Qed.

(** ** [str.split(sep)] with a one-character separator *)

(** The pieces of [s] between the occurrences of [sep]: always at least
    one piece, and one more than there are separators. *)
Fixpoint split_on (sep : ascii) (s : str) : list str :=
  match s with
  | [] => [[]]
  | c :: s' =>
      if decide (c = sep) then [] :: split_on sep s'
      else match split_on sep s' with
           | piece :: pieces => (c :: piece) :: pieces
           | [] => [[c]]
           end
  end.

Lemma split_on_nonempty (sep : ascii) (s : str) : split_on sep s <> [].
Proof.
  induction s as [|c s IH]; simpl; [done|].
  destruct (decide (c = sep)); [done|]. by destruct (split_on sep s).
Qed.

Lemma split_on_no_sep (sep : ascii) (s : str) :
  sep ∉ s -> split_on sep s = [s].
Proof.
  induction s as [|c s IH]; simpl; [done|].
  rewrite not_elem_of_cons. intros [? ?].
  rewrite decide_False by done. by rewrite IH.
Qed.

Lemma split_on_app (sep : ascii) (a b : str) :
  sep ∉ a -> split_on sep (a ++ sep :: b) = a :: split_on sep b.
Proof.
  induction a as [|c a IH]; simpl.
  - intros _. by rewrite decide_True.
  - rewrite not_elem_of_cons. intros [? ?].
    rewrite decide_False by done. by rewrite IH.
Qed.

(** The last piece is what follows the last separator. *)
Lemma split_on_last (sep : ascii) (a b : str) :
  sep ∉ b -> split_on sep (a ++ sep :: b) = split_on sep a ++ [b].
Proof.
  intros Hb. induction a as [|c a IH]; simpl.
  - by rewrite decide_True, split_on_no_sep.
  - destruct (decide (c = sep)); [by rewrite IH|]. rewrite IH.
    pose proof (split_on_nonempty sep a). by destruct (split_on sep a).
Qed.

Lemma split_on_snoc (sep : ascii) (a : str) :
  split_on sep (a ++ [sep]) = split_on sep a ++ [[]].
Proof. apply split_on_last, not_elem_of_nil. Qed.

(** No piece holds the separator. *)
Lemma split_on_pieces (sep : ascii) (s : str) :
  Forall (fun piece => sep ∉ piece) (split_on sep s).
Proof.
  induction s as [|c s IH]; simpl; [by repeat constructor; apply not_elem_of_nil|].
  destruct (decide (c = sep)); [by constructor; [apply not_elem_of_nil|]|].
  destruct (split_on sep s) as [|piece pieces];
    [by repeat constructor; rewrite list_elem_of_singleton|].
  apply Forall_cons in IH as [? ?]. constructor; [|done].
  by apply not_elem_of_cons.
Qed.

(** ** [int(s)] on a string *)

(** The characters [int] skips around a number, below 256: tab to
    carriage return, space, NEL and the no-break space. *)
Definition is_space (c : ascii) : bool :=
  let n := ord c in
  ((9 <=? n) && (n <=? 13)) || (n =? 32) || (n =? 133) || (n =? 160).

Definition strip (s : str) : str :=
  reverse (drop_while is_space (reverse (drop_while is_space s))).

(** The value of a run of decimal digits in which single underscores may
    separate digits; [None] when the text is not of that shape.
    [after_digit] tells whether the previous character was a digit. *)
Fixpoint digit_groups (s : str) (after_digit : bool) (acc : Z) : option Z :=
  match s with
  | [] => if after_digit then Some acc else None
  | c :: s' =>
      if is_digit c then digit_groups s' true (10 * acc + digit_val c)
      else if bool_decide (c = "_"%char) && after_digit then digit_groups s' false acc
      else None
  end.

(** [int(s)]: blanks around, an optional sign, then the digits.  Raises
    ValueError on anything else. *)
Definition int_of_str (s : str) : result Z :=
  let body := strip s in
  let parsed :=
    match body with
    | c :: rest =>
        if bool_decide (c = "-"%char) then Z.opp <$> digit_groups rest false 0
        else if bool_decide (c = "+"%char) then digit_groups rest false 0
        else digit_groups body false 0
    | [] => None
    end in
  match parsed with
  | Some n => Ok n
  | None => Raise ValueError
  end.

Lemma digit_groups_digits (s : str) (after_digit : bool) (acc : Z) :
  all_digits s -> s <> [] \/ after_digit = true ->
  digit_groups s after_digit acc
  = Some (foldl (fun a c => 10 * a + digit_val c) acc s).
Proof.
  intros Hs. revert after_digit acc. induction Hs as [|c s Hc _ IH]; intros b acc Hne; simpl.
  - destruct Hne as [? | ->]; done.
  - rewrite Hc. apply IH. by right.
Qed.

Lemma is_digit_not_space (c : ascii) : is_digit c = true -> is_space c = false.
Proof.
  unfold is_digit, is_space. rewrite andb_true_iff. intros [? ?]. simpl.
  repeat (case_test; try lia); done.
Qed.

Lemma drop_while_head {A} (p : A -> bool) (x : A) (l : list A) :
  p x = false -> drop_while p (x :: l) = x :: l.
Proof. simpl. by intros ->. Qed.

Lemma strip_digits (s : str) : all_digits s -> strip s = s.
Proof.
  intros Hs. unfold strip.
  assert (forall t : str, all_digits t -> drop_while is_space t = t) as Hd.
  { intros [|c t]; [done|]. intros [?%is_digit_not_space _]%Forall_cons.
    by apply drop_while_head. }
  rewrite (Hd s) by done. rewrite Hd by by apply Forall_reverse.
  apply reverse_involutive.
Qed.

(** Reading back what [str] printed. *)
Lemma int_of_str_digits_of (n : Z) : 0 <= n -> int_of_str (digits_of n) = Ok n.
Proof.
  intros Hn. unfold int_of_str.
  rewrite strip_digits by by apply digits_of_all_digits.
  destruct (digits_of_head n Hn) as (c & s & E & Hc).
  pose proof (digits_of_all_digits n Hn) as Hall.
  pose proof (int_of_digits_digits_of n Hn) as Hval.
  rewrite E in *.
  rewrite !bool_decide_eq_false_2 by (intros ->; done).
  rewrite digit_groups_digits by (done || by left). by rewrite <- Hval.
Qed.

Lemma strip_no_blank_ends (c d : ascii) (s : str) :
  is_space c = false -> is_space d = false -> strip (c :: s ++ [d]) = c :: s ++ [d].
Proof.
  intros Hc Hd. unfold strip. rewrite drop_while_head by done.
  rewrite reverse_cons, reverse_app. simpl. rewrite Hd.
  change (d :: reverse s ++ [c]) with ([d] ++ reverse s ++ [c]).
  by rewrite !reverse_app, reverse_involutive.
Qed.

(** [str(n)] holds digits and possibly a minus sign, nothing else. *)
Lemma str_of_int_chars (n : Z) :
  Forall (fun c => is_digit c = true \/ c = "-"%char) (str_of_int n).
Proof.
  unfold str_of_int. case_test.
  - constructor; [by right|].
    eapply Forall_impl; [apply digits_of_all_digits; lia | by left].
  - eapply Forall_impl; [by apply digits_of_all_digits | by left].
Qed.

Lemma format_0wd_chars (w : nat) (n : Z) :
  Forall (fun c => is_digit c = true \/ c = "-"%char) (format_0wd w n).
Proof.
  unfold format_0wd. case_test.
  - constructor; [by right|].
    eapply Forall_impl; [apply zfill_all_digits, digits_of_all_digits; lia | by left].
  - eapply Forall_impl; [by apply zfill_all_digits, digits_of_all_digits | by left].
Qed.

Lemma format_0wd_no_char (w : nat) (n : Z) (c : ascii) :
  is_digit c = false -> c <> "-"%char -> c ∉ format_0wd w n.
Proof.
  intros Hc Hm Hin. pose proof (format_0wd_chars w n) as Hall.
  rewrite Forall_forall in Hall. destruct (Hall c Hin); congruence.
Qed.

Lemma str_of_int_no_char (n : Z) (c : ascii) :
  is_digit c = false -> c <> "-"%char -> c ∉ str_of_int n.
Proof.
  intros Hc Hm Hin. pose proof (str_of_int_chars n) as Hall.
  rewrite Forall_forall in Hall. destruct (Hall c Hin); congruence.
Qed.

Lemma all_digits_last (s : str) :
  all_digits s -> s <> [] -> exists t d, s = t ++ [d] /\ is_digit d = true.
Proof.
  intros Hs Hne. destruct s as [|c s] using rev_ind; [done|].
  apply Forall_app in Hs as [_ [? _]%Forall_cons]. eauto.
Qed.

(** [int(str(n)) = n] for every integer. *)
Lemma int_of_str_str_of_int (n : Z) : int_of_str (str_of_int n) = Ok n.
Proof.
  unfold str_of_int. case_test; [|by apply int_of_str_digits_of].
  assert (0 <= - n) as Hn by lia.
  pose proof (digits_of_all_digits _ Hn) as Hall.
  destruct (all_digits_last _ Hall (digits_of_nonempty _)) as (t & d & E & Hd).
  pose proof (int_of_digits_digits_of _ Hn) as Hval.
  unfold int_of_str. rewrite E in *. simpl.
  rewrite strip_no_blank_ends by (done || by apply is_digit_not_space).
  rewrite bool_decide_eq_true_2 by done.
  rewrite digit_groups_digits; [|done|by left; destruct t]. simpl.
  unfold int_of_digits in Hval. rewrite Hval. f_equal. lia.
Qed.
