(* ===== verification/PyPath.v ===== *)
(** * PyPath: the functions of [os.path] the program calls

    [os.path.basename], [os.path.splitext] and [os.path.join] as the POSIX
    flavour of the standard library computes them, on strings.  They do
    not look at the file system.  [basename] is what follows the last
    slash; [splitext] cuts the last component at its last dot unless only
    dots precede it; [join] inserts a slash unless the first part is empty
    or ends with one, and restarts at a second part that is absolute. *)

From Stdlib Require Import ZArith Lia List Ascii String.
From stdpp Require Import prelude strings.
From S2P Require Import Prelude PyString.

(** ** Cutting a string at the last occurrence of a character *)

Section last_occurrence.
Variable sep : ascii.

Definition is_not_sep (c : ascii) : bool := bool_decide (c <> sep).

(** [s\[s.rfind(sep) + 1:\]]: the whole of [s] when [sep] does not occur. *)
Definition after_last (s : str) : str :=
  reverse (take_while is_not_sep (reverse s)).

(** [s\[:s.rfind(sep) + 1\]]: empty when [sep] does not occur. *)
Definition up_to_last (s : str) : str :=
  reverse (drop_while is_not_sep (reverse s)).

Lemma no_sep_Forall (s : str) : sep ∉ s <-> Forall (fun c => is_not_sep c = true) s.
Proof.
  rewrite Forall_forall. unfold is_not_sep. split.
  - intros Hs c Hc. apply bool_decide_eq_true. by intros ->.
  - intros Hs Hin. by apply Hs, bool_decide_eq_true in Hin.
Qed.

Lemma up_to_after_last (s : str) : up_to_last s ++ after_last s = s.
Proof.
  unfold up_to_last, after_last.
  by rewrite <- reverse_app, take_drop_while, reverse_involutive.
Qed.

Lemma after_last_no_sep (s : str) : sep ∉ after_last s.
Proof.
  apply no_sep_Forall. unfold after_last. rewrite Forall_reverse. apply take_while_Forall.
Qed.

Lemma after_last_app (a b : str) : sep ∉ b -> after_last (a ++ sep :: b) = b.
Proof.
  intros Hb%no_sep_Forall. unfold after_last.
  rewrite reverse_app, reverse_cons, <- app_assoc, take_while_app by by rewrite Forall_reverse.
  change ([sep] ++ reverse a) with (sep :: reverse a).
  rewrite (take_while_stop _ sep) by (apply bool_decide_eq_false_2; auto).
  by rewrite app_nil_r, reverse_involutive.
Qed.

Lemma up_to_last_app (a b : str) : sep ∉ b -> up_to_last (a ++ sep :: b) = a ++ [sep].
Proof.
  intros Hb. apply (app_inv_tail (after_last (a ++ sep :: b))).
  rewrite up_to_after_last, after_last_app by done. by rewrite <- app_assoc.
Qed.

Lemma after_last_id (s : str) : sep ∉ s -> after_last s = s.
Proof.
  intros Hs%no_sep_Forall. unfold after_last.
  rewrite take_while_all by by rewrite Forall_reverse. apply reverse_involutive.
Qed.

Lemma up_to_last_id (s : str) : sep ∉ s -> up_to_last s = [].
Proof.
  intros Hs. apply (app_inv_tail (after_last s)).
  rewrite up_to_after_last. by rewrite after_last_id.
Qed.

(** A non-empty [up_to_last] ends with the separator. *)
Lemma up_to_last_cases (s : str) :
  up_to_last s = [] \/ exists s', up_to_last s = s' ++ [sep].
Proof.
  unfold up_to_last. destruct (drop_while _ _) as [|d l] eqn:E; [by left|].
  right. exists (reverse l). rewrite reverse_cons. do 2 f_equal.
  apply drop_while_cons, bool_decide_eq_false in E. by destruct (decide (d = sep)).
Qed.

(** The last piece of a split is what follows the last separator. *)
Lemma last_split_on (s : str) : last (split_on sep s) = Some (after_last s).
Proof.
  pose proof (up_to_after_last s) as Hs. pose proof (after_last_no_sep s) as Hb.
  destruct (up_to_last_cases s) as [E|[a E]]; rewrite E in Hs; simpl in Hs.
  - rewrite <- Hs at 1. by rewrite split_on_no_sep.
  - rewrite <- Hs at 1. rewrite <- app_assoc. simpl.
    rewrite split_on_last by done. apply last_snoc.
Qed.

End last_occurrence.

(** ** The three functions *)

(** [os.path.basename(p)]. *)
Definition basename (p : str) : str := after_last "/" p.

(** The test of the loop of [splitext] that skips leading dots. *)
Definition only_dots (s : str) : bool := forallb (fun c => bool_decide (c = "."%char)) s.

(** [os.path.splitext(p)]: no extension when the last component has no
    dot, or only dots before its last dot. *)
Definition splitext (p : str) : str * str :=
  let name := after_last "/" p in
  let stem_dot := up_to_last "." name in
  let stem := removelast stem_dot in
  if bool_decide (stem_dot = []) || only_dots stem then (p, [])
  else (up_to_last "/" p ++ stem, "."%char :: after_last "." name).

(** [os.path.join(a, b)]. *)
Definition join (a b : str) : str :=
  if bool_decide (head b = Some "/"%char) then b
  else if bool_decide (a = [] \/ last a = Some "/"%char) then a ++ b
  else a ++ "/"%char :: b.

(** ** Their laws *)

Lemma basename_no_sep (p : str) : "/"%char ∉ basename p.
Proof. apply after_last_no_sep. Qed.

Lemma basename_id (p : str) : "/"%char ∉ p -> basename p = p.
Proof. apply after_last_id. Qed.

(** The last component of a joined path is the name that was joined. *)
Lemma basename_join (a b : str) : "/"%char ∉ b -> basename (join a b) = b.
Proof.
  intros Hb. unfold join, basename. case_bool_decide as Hh.
  { destruct b as [|c b]; [done|]. injection Hh as ->. destruct Hb. left. }
  case_bool_decide as Ha; [|by apply after_last_app].
  destruct Ha as [->|[a' ->]%last_Some]; [by apply after_last_id|].
  rewrite <- app_assoc. by apply after_last_app.
Qed.

(** The two halves [splitext] returns make up the path. *)
Lemma splitext_app (p : str) : (splitext p).1 ++ (splitext p).2 = p.
Proof.
  unfold splitext. set (name := after_last "/" p).
  destruct (_ || _) eqn:E; [apply app_nil_r|]. simpl.
  apply orb_false_iff in E as [E%bool_decide_eq_false _].
  destruct (up_to_last_cases "." name) as [?|[stem Hs]]; [done|].
  rewrite Hs, removelast_last, <- app_assoc.
  pose proof (up_to_after_last "." name) as Hn. rewrite Hs, <- app_assoc in Hn.
  simpl in Hn. rewrite Hn. apply up_to_after_last.
Qed.

(** A name with an extension is cut at its last dot. *)
Lemma splitext_name (stem ext : str) :
  "/"%char ∉ stem -> "/"%char ∉ ext -> "."%char ∉ ext -> only_dots stem = false ->
  splitext (stem ++ "."%char :: ext) = (stem, "."%char :: ext).
Proof.
  intros Hs He Hd Hstem. unfold splitext.
  assert ("/"%char ∉ stem ++ "."%char :: ext) as Hn.
  { rewrite elem_of_app, elem_of_cons. intros [?|[?|?]]; done. }
  rewrite (after_last_id _ _ Hn), (up_to_last_id _ _ Hn), up_to_last_app, after_last_app by done.
  rewrite removelast_last, Hstem, orb_false_r.
  rewrite bool_decide_eq_false_2; [done | by destruct stem].
Qed.

(** A name without a dot has no extension. *)
Lemma splitext_no_dot (p : str) : "."%char ∉ after_last "/" p -> splitext p = (p, []).
Proof.
  intros Hp. unfold splitext. rewrite up_to_last_id by done.
  by rewrite bool_decide_eq_true_2.
Qed.

(** The stem of a name holds no slash. *)
Lemma splitext_no_sep (p : str) : "/"%char ∉ p -> "/"%char ∉ (splitext p).1.
Proof.
  intros Hp Hin. apply Hp. rewrite <- (splitext_app p). apply elem_of_app. by left.
Qed.
