(* ===== verification/PySorted.v ===== *)
(** * PySorted: the contract of [sorted(iterable, key=f)]

    Python's [sorted] is a stable sort: ascending in the keys under [<],
    with elements of equal key kept in their input order.  The model is a
    stable insertion sort.  Which algorithm the interpreter runs is
    immaterial: [sorted_unique] shows that the ascending and stable
    arrangement of a list is unique, so every stable sort computes the
    list [sorted] returns.

    The keys are any type with a strict comparison satisfying [KeyOrder]
    (a strict weak order, which is what [sorted] needs of [<]); the frame
    orderer instantiates it with "an int or +inf". *)

From Stdlib Require Import List Sorted.
From stdpp Require Import prelude sorting.
From S2P Require Import Prelude.

(** What [sorted] requires of the comparison [<] on keys. *)
Class KeyOrder {K : Type} (lt : K -> K -> bool) : Prop := {
  key_lt_irrefl x : lt x x = false;
  key_lt_trans x y z : lt x y = true -> lt y z = true -> lt x z = true;
  key_lt_cotrans x y z : lt x z = true -> lt x y = true \/ lt y z = true;
}.

Section sorted.
Context {A K : Type} (lt : K -> K -> bool) `{!KeyOrder lt} (key : A -> K).
Implicit Types (x y : A) (l : list A) (k : K).

(** [x] may stand before [y]: not [key y < key x]. *)
Definition key_le (x y : A) : Prop := lt (key y) (key x) = false.

(** [x]'s key compares equal to [k]: neither is less than the other. *)
Definition same_key (k : K) (x : A) : bool :=
  negb (lt k (key x)) && negb (lt (key x) k).

(** Insert [x] in front of the first element that is not smaller: before
    every element of equal key, since [x] came earlier in the input. *)
Fixpoint insert_sorted (x : A) (l : list A) : list A :=
  match l with
  | [] => [x]
  | y :: l' => if lt (key y) (key x) then y :: insert_sorted x l' else x :: l
  end.

Definition sorted (l : list A) : list A := foldr insert_sorted [] l.

(** ** The order on keys *)

#[local] Instance key_le_refl : Reflexive key_le.
Proof. intros x. apply key_lt_irrefl. Qed.

#[local] Instance key_le_trans : Transitive key_le.
Proof.
  intros x y z Hxy Hyz. unfold key_le in *.
  destruct (lt (key z) (key x)) eqn:E; [|done].
  destruct (key_lt_cotrans _ (key y) _ E); congruence.
Qed.

#[local] Instance key_le_total : Total key_le.
Proof.
  intros x y. unfold key_le.
  destruct (lt (key y) (key x)) eqn:E1; [|by left].
  destruct (lt (key x) (key y)) eqn:E2; [|by right].
  pose proof (key_lt_trans _ _ _ E1 E2) as E. by rewrite key_lt_irrefl in E.
Qed.

Lemma same_key_true k x :
  same_key k x = true <-> lt k (key x) = false /\ lt (key x) k = false.
Proof. unfold same_key. rewrite andb_true_iff, !negb_true_iff. tauto. Qed.

Lemma same_key_refl x : same_key (key x) x = true.
Proof. apply same_key_true. by rewrite key_lt_irrefl. Qed.

Lemma same_key_lt k x y :
  same_key k x = true -> same_key k y = true -> lt (key x) (key y) = false.
Proof.
  intros [Hx1 Hx2]%same_key_true [Hy1 Hy2]%same_key_true.
  destruct (lt (key x) (key y)) eqn:E; [|done].
  destruct (key_lt_cotrans _ k _ E); congruence.
Qed.

Lemma same_key_le k x y :
  same_key k x = true -> key_le x y -> key_le y x -> same_key k y = true.
Proof.
  intros [Hx1 Hx2]%same_key_true Hxy Hyx. unfold key_le in *.
  apply same_key_true. split.
  - destruct (lt k (key y)) eqn:E; [|done].
    destruct (key_lt_cotrans _ (key x) _ E); congruence.
  - destruct (lt (key y) k) eqn:E; [|done].
    destruct (key_lt_cotrans _ (key x) _ E); congruence.
Qed.

(** ** Permutation *)

Lemma insert_sorted_perm x l : insert_sorted x l ≡ₚ x :: l.
Proof.
  induction l as [|y l IH]; simpl; [done|].
  destruct (lt (key y) (key x)); [|done]. rewrite IH. apply Permutation_swap.
Qed.

Lemma sorted_perm l : sorted l ≡ₚ l.
Proof.
  induction l as [|x l IH]; simpl; [done|].
  by rewrite insert_sorted_perm, IH.
Qed.

Lemma length_sorted l : length (sorted l) = length l.
Proof. by rewrite sorted_perm. Qed.

Lemma elem_of_sorted x l : x ∈ sorted l <-> x ∈ l.
Proof. by rewrite sorted_perm. Qed.

#[global] Instance sorted_proper : Proper ((≡ₚ) ==> (≡ₚ)) sorted.
Proof. intros l1 l2 E. by rewrite !sorted_perm. Qed.

(** ** Ascending order *)

Lemma insert_sorted_sorted x l :
  StronglySorted key_le l -> StronglySorted key_le (insert_sorted x l).
Proof.
  induction 1 as [|y l Hl IH Hy]; simpl; [repeat constructor|].
  destruct (lt (key y) (key x)) eqn:E.
  - constructor; [done|]. rewrite insert_sorted_perm. constructor; [|done].
    unfold key_le. destruct (lt (key x) (key y)) eqn:E2; [|done].
    pose proof (key_lt_trans _ _ _ E E2) as E3. by rewrite key_lt_irrefl in E3.
  - constructor; [by constructor|]. constructor; [done|].
    eapply Forall_impl; [done|]. intros z Hz. by trans y.
Qed.

Lemma sorted_sorted l : StronglySorted key_le (sorted l).
Proof.
  induction l as [|x l IH]; simpl; [constructor | by apply insert_sorted_sorted].
Qed.

(** ** Stability *)

Lemma filter_insert_sorted k x l :
  filter (same_key k) (insert_sorted x l) = filter (same_key k) (x :: l).
Proof.
  induction l as [|y l IH]; simpl; [done|].
  destruct (lt (key y) (key x)) eqn:E; [|done].
  rewrite !filter_cons in *. rewrite IH.
  destruct (decide (same_key k y)) as [Hy|]; [|done].
  destruct (decide (same_key k x)) as [Hx|]; [|done].
  apply Is_true_true in Hx, Hy. by rewrite (same_key_lt k y x) in E.
Qed.

Lemma sorted_stable k l :
  filter (same_key k) (sorted l) = filter (same_key k) l.
Proof.
  induction l as [|x l IH]; simpl; [done|].
  by rewrite filter_insert_sorted, !filter_cons, IH.
Qed.

(** ** Uniqueness of the stable ascending arrangement *)

Lemma sorted_head_same_key x y l1 l2 :
  StronglySorted key_le (x :: l1) -> StronglySorted key_le (y :: l2) ->
  x ∈ y :: l2 -> y ∈ x :: l1 -> same_key (key x) y = true.
Proof.
  intros [Hx _]%StronglySorted_cons [Hy _]%StronglySorted_cons Hin1 Hin2.
  rewrite Forall_forall in Hx, Hy.
  apply (same_key_le _ x); [apply same_key_refl | |].
  - apply elem_of_cons in Hin2 as [->|?]; [done | by apply Hx].
  - apply elem_of_cons in Hin1 as [->|?]; [done | by apply Hy].
Qed.

Lemma stable_sorted_unique l1 l2 :
  StronglySorted key_le l1 -> StronglySorted key_le l2 ->
  (forall k, filter (same_key k) l1 = filter (same_key k) l2) ->
  l1 = l2.
Proof.
  intros H1. revert l2. induction l1 as [|x l1 IH]; intros l2 H2 Hf.
  - destruct l2 as [|y l2]; [done|]. specialize (Hf (key y)).
    rewrite filter_nil, filter_cons, decide_True in Hf; [done|].
    apply Is_true_true, same_key_refl.
  - destruct l2 as [|y l2].
    { specialize (Hf (key x)).
      rewrite filter_nil, filter_cons, decide_True in Hf; [done|].
      apply Is_true_true, same_key_refl. }
    assert (x ∈ y :: l2) as Hx.
    { eapply (list_elem_of_filter (same_key (key x))). rewrite <- Hf.
      rewrite filter_cons, decide_True by apply Is_true_true, same_key_refl. left. }
    assert (y ∈ x :: l1) as Hy.
    { eapply (list_elem_of_filter (same_key (key y))). rewrite Hf.
      rewrite filter_cons, decide_True by apply Is_true_true, same_key_refl. left. }
    pose proof (sorted_head_same_key x y l1 l2 H1 H2 Hx Hy) as Hxy.
    pose proof (Hf (key x)) as Hfx.
    rewrite !filter_cons in Hfx.
    rewrite decide_True in Hfx by apply Is_true_true, same_key_refl.
    rewrite decide_True in Hfx by by apply Is_true_true.
    injection Hfx as <- _. f_equal.
    apply StronglySorted_cons in H1 as [_ H1], H2 as [_ H2].
    apply IH; [done..|]. intros k. specialize (Hf k).
    rewrite !filter_cons in Hf. destruct (decide (same_key k x)); congruence.
Qed.

(** The contract of [sorted]: its result is the one arrangement of the
    input that is ascending in the keys and keeps the input order among
    elements of equal key. *)
Theorem sorted_unique l l' :
  l' = sorted l <->
  StronglySorted key_le l' /\ forall k, filter (same_key k) l' = filter (same_key k) l.
Proof.
  split.
  - intros ->. split; [apply sorted_sorted | intros k; apply sorted_stable].
  - intros [Hs Hf]. apply stable_sorted_unique; [done | apply sorted_sorted |].
    intros k. by rewrite sorted_stable.
Qed.

(** Sorting a list that is already ascending returns it unchanged. *)
Lemma sorted_id l : StronglySorted key_le l -> sorted l = l.
Proof. intros. symmetry. by apply sorted_unique. Qed.

Lemma sorted_idemp l : sorted (sorted l) = sorted l.
Proof. apply sorted_id, sorted_sorted. Qed.

(** When no two elements of the input share a key, the result depends on
    the set of elements only, not on the order they came in. *)
Lemma sorted_perm_distinct l1 l2 :
  l1 ≡ₚ l2 ->
  (forall x y, x ∈ l1 -> y ∈ l1 -> same_key (key x) y = true -> x = y) ->
  sorted l1 = sorted l2.
Proof.
  intros E Hinj. apply (StronglySorted_unique_strong key_le);
    [|apply sorted_sorted..|by rewrite E].
  intros x y Hx Hy Hxy Hyx. apply Hinj.
  - by apply (proj1 (elem_of_sorted x l1)).
  - rewrite E. by apply (proj1 (elem_of_sorted y l2)).
  - apply (same_key_le _ x); [apply same_key_refl | done | done].
Qed.

End sorted.
