(* ===== verification/Imaging.v ===== *)
(** * Imaging: the imaging library behind the program

    The program delegates pixels to an imaging library (PIL): [Image.new],
    [Image.paste], [Image.crop] and the [size] of an image.  This file
    states what the program relies on as an interface, the class
    [Imaging]: an image has a size and a colour at every coordinate
    ([getpixel], transparent outside the image), two well-formed images
    with the same size and colours are the same image, and each operation
    is characterised by the size and the colours of its result.

    [list_imaging] implements the interface with row-major pixel lists and
    discharges its laws, so the packer and the unpacker, which are proved
    against the interface, also run on concrete images. *)

From Stdlib Require Import ZArith Lia List.
From stdpp Require Import prelude.
From S2P Require Import Prelude Python.

(** ** Pixels *)

(** An RGBA colour, as the mode ['RGBA'] stores it. *)
Record rgba : Type := RGBA { chan_r : Z; chan_g : Z; chan_b : Z; chan_a : Z }.

#[global] Instance rgba_eq_dec : EqDecision rgba.
Proof. solve_decision. Defined.

(** The colour of a fresh ['RGBA'] image: fully transparent black. *)
Definition transparent : rgba := RGBA 0 0 0 0.

(** [(x, y)] lies inside an image of size [(w, h)]. *)
Definition inside (wh : Z * Z) (x y : Z) : Prop :=
  0 <= x < wh.1 /\ 0 <= y < wh.2.

#[global] Instance inside_dec wh x y : Decision (inside wh x y).
Proof. unfold inside. apply _. Defined.

(** [(x, y)] lies in the box with top-left corner [(bx, by)] and size [wh]. *)
Definition in_box (bx by_ : Z) (wh : Z * Z) (x y : Z) : Prop :=
  inside wh (x - bx) (y - by_).

#[global] Instance in_box_dec bx by_ wh x y : Decision (in_box bx by_ wh x y).
Proof. unfold in_box. apply _. Defined.

(** ** The interface *)

Class Imaging : Type := {
  image : Type;
  (** the images the library produces and reads from files *)
  image_wf : image -> Prop;
  (** [img.size], the pair (width, height) *)
  image_size : image -> Z * Z;
  (** the colour at a coordinate; [transparent] outside the image *)
  getpixel : image -> Z -> Z -> rgba;
  (** [Image.new('RGBA', (w, h))] *)
  Image_new : Z -> Z -> result image;
  (** [canvas.paste(img, (x, y))] *)
  image_paste : image -> image -> Z -> Z -> image;
  (** [img.crop((left, upper, right, lower))] *)
  image_crop : image -> Z * Z * Z * Z -> result image;

  image_ext a b :
    image_wf a -> image_wf b -> image_size a = image_size b ->
    (forall x y, inside (image_size a) x y -> getpixel a x y = getpixel b x y) ->
    a = b;
  image_size_nonneg a : image_wf a -> 0 <= (image_size a).1 /\ 0 <= (image_size a).2;
  getpixel_outside a x y : ~ inside (image_size a) x y -> getpixel a x y = transparent;

  Image_new_ok w h :
    0 <= w -> 0 <= h ->
    exists im, Image_new w h = Ok im /\ image_wf im /\ image_size im = (w, h)
               /\ forall x y, getpixel im x y = transparent;
  Image_new_raises w h : w < 0 \/ h < 0 -> Image_new w h = Raise ValueError;

  image_paste_wf canvas im x y : image_wf canvas -> image_wf (image_paste canvas im x y);
  image_size_paste canvas im x y : image_size (image_paste canvas im x y) = image_size canvas;
  getpixel_paste canvas im x y px py :
    image_wf canvas -> inside (image_size canvas) px py ->
    getpixel (image_paste canvas im x y) px py
    = if decide (in_box x y (image_size im) px py) then getpixel im (px - x) (py - y)
      else getpixel canvas px py;

  image_crop_ok im left upper right lower :
    left <= right -> upper <= lower ->
    exists c, image_crop im (left, upper, right, lower) = Ok c /\ image_wf c
              /\ image_size c = (right - left, lower - upper)
              /\ forall x y, inside (image_size c) x y ->
                             getpixel c x y = getpixel im (left + x) (upper + y);
  image_crop_raises im left upper right lower :
    right < left \/ lower < upper ->
    image_crop im (left, upper, right, lower) = Raise ValueError;
}.

(** An image the library returns is well formed. *)
Lemma Image_new_wf `{Imaging} (w h : Z) (im : image) : Image_new w h = Ok im -> image_wf im.
Proof.
  destruct (decide (0 <= w /\ 0 <= h)) as [[? ?]|].
  - destruct (Image_new_ok w h) as (im' & -> & ? & _); [done..|]. by intros [= <-].
  - rewrite Image_new_raises by lia. done.
Qed.

Lemma image_crop_wf `{Imaging} (im : image) (box : Z * Z * Z * Z) (c : image) :
  image_crop im box = Ok c -> image_wf c.
Proof.
  destruct box as [[[left_ upper] right_] lower].
  destruct (decide (left_ <= right_ /\ upper <= lower)) as [[? ?]|].
  - destruct (image_crop_ok im left_ upper right_ lower) as (c' & -> & ? & _); [done..|].
    by intros [= <-].
  - rewrite image_crop_raises by lia. done.
Qed.

Definition image_width `{Imaging} (im : image) : Z := (image_size im).1.
Definition image_height `{Imaging} (im : image) : Z := (image_size im).2.

(** ** The implementation on pixel lists *)

(** An image as its size and its pixels in row-major order. *)
Record limage : Type := LImage {
  li_width : Z;
  li_height : Z;
  li_pixels : list rgba;
}.

#[global] Instance limage_eq_dec : EqDecision limage.
Proof. solve_decision. Defined.

Definition li_size (im : limage) : Z * Z := (li_width im, li_height im).

Definition li_wf (im : limage) : Prop :=
  0 <= li_width im /\ 0 <= li_height im
  /\ length (li_pixels im) = Z.to_nat (li_width im * li_height im).

#[global] Instance li_wf_dec im : Decision (li_wf im).
Proof. unfold li_wf. apply _. Defined.

Definition li_getpixel (im : limage) (x y : Z) : rgba :=
  if decide (inside (li_size im) x y)
  then default transparent (li_pixels im !! Z.to_nat (y * li_width im + x))
  else transparent.

(** The image of size [(w, h)] whose colour at [(x, y)] is [f x y]. *)
Definition tabulate (w h : Z) (f : Z -> Z -> rgba) : limage :=
  LImage w h ((fun i => f (i mod w) (i / w)) <$> seqZ 0 (w * h)).

Definition li_new (w h : Z) : result limage :=
  if decide (w < 0 \/ h < 0) then Raise ValueError
  else Ok (tabulate w h (fun _ _ => transparent)).

Definition li_paste (canvas im : limage) (x y : Z) : limage :=
  tabulate (li_width canvas) (li_height canvas) (fun px py =>
    if decide (in_box x y (li_size im) px py) then li_getpixel im (px - x) (py - y)
    else li_getpixel canvas px py).

Definition li_crop (im : limage) (box : Z * Z * Z * Z) : result limage :=
  let '(left_, upper, right_, lower) := box in
  if decide (right_ < left_ \/ lower < upper) then Raise ValueError
  else Ok (tabulate (right_ - left_) (lower - upper)
             (fun x y => li_getpixel im (left_ + x) (upper + y))).

Lemma tabulate_wf (w h : Z) f : 0 <= w -> 0 <= h -> li_wf (tabulate w h f).
Proof.
  intros. repeat split; simpl; try done. by rewrite length_fmap, length_seqZ.
Qed.

Lemma getpixel_tabulate (w h : Z) f (x y : Z) :
  inside (w, h) x y -> li_getpixel (tabulate w h f) x y = f x y.
Proof.
  intros [Hx Hy]. simpl in *. unfold li_getpixel.
  rewrite decide_True by done. simpl.
  rewrite list_lookup_fmap, lookup_seqZ_lt by nia. simpl.
  rewrite Z.add_0_l, Z2Nat.id by nia. by rewrite index_mod, index_div by lia.
Qed.

Lemma li_getpixel_outside (im : limage) (x y : Z) :
  ~ inside (li_size im) x y -> li_getpixel im x y = transparent.
Proof. intros. unfold li_getpixel. by rewrite decide_False. Qed.

Lemma li_ext (a b : limage) :
  li_wf a -> li_wf b -> li_size a = li_size b ->
  (forall x y, inside (li_size a) x y -> li_getpixel a x y = li_getpixel b x y) ->
  a = b.
Proof.
  destruct a as [w h p], b as [w' h' p']. unfold li_wf, li_size. simpl.
  intros (Hw & Hh & Hp) (_ & _ & Hp') [= <- <-] Hpix. f_equal.
  apply list_eq_same_length with (Z.to_nat (w * h)); [done..|].
  intros i c c' Hi Hc Hc'.
  specialize (Hpix (Z.of_nat i mod w) (Z.of_nat i / w)).
  assert (0 < w) by nia.
  assert (inside (w, h) (Z.of_nat i mod w) (Z.of_nat i / w)) as Hin.
  { split; simpl; [zdiv_lia | zdiv_nia]. }
  unfold li_getpixel in Hpix. simpl in Hpix.
  rewrite !decide_True, index_join, Nat2Z.id, Hc, Hc' in Hpix by done.
  by apply Hpix.
Qed.

Lemma li_size_nonneg (a : limage) : li_wf a -> 0 <= (li_size a).1 /\ 0 <= (li_size a).2.
Proof. by intros (? & ? & _). Qed.

Lemma li_new_ok (w h : Z) :
  0 <= w -> 0 <= h ->
  exists im, li_new w h = Ok im /\ li_wf im /\ li_size im = (w, h)
             /\ forall x y, li_getpixel im x y = transparent.
Proof.
  intros ? ?. unfold li_new. rewrite decide_False by lia.
  eexists. split; [done|]. split; [by apply tabulate_wf|]. split; [done|].
  intros x y. destruct (decide (inside (w, h) x y)).
  - by rewrite getpixel_tabulate.
  - by rewrite li_getpixel_outside.
Qed.

Lemma li_new_raises (w h : Z) : w < 0 \/ h < 0 -> li_new w h = Raise ValueError.
Proof. intros ?. unfold li_new. by rewrite decide_True. Qed.

Lemma li_paste_wf (canvas im : limage) (x y : Z) : li_wf canvas -> li_wf (li_paste canvas im x y).
Proof. intros (? & ? & _). by apply tabulate_wf. Qed.

Lemma li_size_paste (canvas im : limage) (x y : Z) :
  li_size (li_paste canvas im x y) = li_size canvas.
Proof. done. Qed.

Lemma li_getpixel_paste (canvas im : limage) (x y px py : Z) :
  li_wf canvas -> inside (li_size canvas) px py ->
  li_getpixel (li_paste canvas im x y) px py
  = if decide (in_box x y (li_size im) px py) then li_getpixel im (px - x) (py - y)
    else li_getpixel canvas px py.
Proof. intros _ ?. unfold li_paste. by rewrite getpixel_tabulate. Qed.

Lemma li_crop_ok (im : limage) (left_ upper right_ lower : Z) :
  left_ <= right_ -> upper <= lower ->
  exists c, li_crop im (left_, upper, right_, lower) = Ok c /\ li_wf c
            /\ li_size c = (right_ - left_, lower - upper)
            /\ forall x y, inside (li_size c) x y ->
                           li_getpixel c x y = li_getpixel im (left_ + x) (upper + y).
Proof.
  intros ? ?. unfold li_crop. rewrite decide_False by lia. eexists. split; [done|].
  split; [apply tabulate_wf; lia|]. split; [done|].
  intros x y ?. by rewrite getpixel_tabulate.
Qed.

Lemma li_crop_raises (im : limage) (left_ upper right_ lower : Z) :
  right_ < left_ \/ lower < upper ->
  li_crop im (left_, upper, right_, lower) = Raise ValueError.
Proof. intros ?. unfold li_crop. by rewrite decide_True. Qed.

(** The laws are opaque lemmas, so that evaluating a term that mentions
    the instance never unfolds a proof. *)
#[global] Instance list_imaging : Imaging := {|
  image := limage;
  image_wf := li_wf;
  image_size := li_size;
  getpixel := li_getpixel;
  Image_new := li_new;
  image_paste := li_paste;
  image_crop := li_crop;
  image_ext := li_ext;
  image_size_nonneg := li_size_nonneg;
  getpixel_outside := li_getpixel_outside;
  Image_new_ok := li_new_ok;
  Image_new_raises := li_new_raises;
  image_paste_wf := li_paste_wf;
  image_size_paste := li_size_paste;
  getpixel_paste := li_getpixel_paste;
  image_crop_ok := li_crop_ok;
  image_crop_raises := li_crop_raises;
|}.

(** ** Concrete images for the examples *)

(** An image of one colour. *)
Definition solid (w h : Z) (colour : rgba) : @image list_imaging :=
  tabulate w h (fun _ _ => colour).

Definition red : rgba := RGBA 255 0 0 255.
Definition green : rgba := RGBA 0 255 0 255.
Definition blue : rgba := RGBA 0 0 255 255.
Definition yellow : rgba := RGBA 255 255 0 255.

Lemma solid_wf (w h : Z) (colour : rgba) : 0 <= w -> 0 <= h -> image_wf (solid w h colour).
Proof. apply tabulate_wf. Qed.

Lemma getpixel_solid (w h : Z) (colour : rgba) (x y : Z) :
  inside (w, h) x y -> getpixel (solid w h colour) x y = colour.
Proof. intros. unfold solid. simpl. by rewrite getpixel_tabulate. Qed.

(** Four frames of 10 by 10 pixels, one colour each. *)
Definition four_frames : list (@image list_imaging) :=
  [solid 10 10 red; solid 10 10 green; solid 10 10 blue; solid 10 10 yellow].

Lemma four_frames_wf : Forall (fun f => image_wf f /\ image_size f = (10, 10)) four_frames.
Proof. repeat constructor; by apply solid_wf. Qed.

(** An image in which every pixel has a colour of its own. *)
Definition gradient (w h : Z) : @image list_imaging :=
  tabulate w h (fun x y => RGBA x y 0 255).

Lemma gradient_wf (w h : Z) : 0 <= w -> 0 <= h -> image_wf (gradient w h).
Proof. apply tabulate_wf. Qed.
