(* ===== verification/IO.v ===== *)
(** * IO: computations over a state that can raise

    The monad of the handlers: a computation is a function from the state
    to an outcome (a value or an exception) and the state it leaves, so
    that an exception keeps the effects of the calls before it.  With it
    come the loops ([foldM], [forM_]), the rewriting lemmas that run a
    computation step by step, and the ways to state what a computation
    does to the state: triples ([hoare]), invariants ([keeps]), the
    facts [quiet] (only reads) and [atomic] (changes the state only when
    it succeeds), and lemmas that derive a fact of the state a sequence
    or a loop leaves from facts of its steps. *)

From Stdlib Require Import ZArith List.
From stdpp Require Import prelude.
From S2P Require Import Prelude.

Section io.
Context {W : Type}.

Definition io (A : Type) : Type := W -> result A * W.

#[global] Instance io_ret : MRet io := fun A a w => (Ok a, w).
#[global] Instance io_bind : MBind io := fun A B f m w =>
  match m w with
  | (Ok a, w') => f a w'
  | (Raise e, w') => (Raise e, w')
  end.

(** A pure call that can raise, inside a computation. *)
Definition lift {A} (r : result A) : io A := fun w => (r, w).

(** Reading and changing the state. *)
Definition reads {A} (f : W -> A) : io A := fun w => (Ok (f w), w).
Definition modify (f : W -> W) : io unit := fun w => (Ok tt, f w).

(** A [for] loop that threads a value through its iterations. *)
Fixpoint foldM {A B} (body : B -> A -> io B) (init : B) (l : list A) : io B :=
  match l with
  | [] => mret init
  | x :: l' => b ← body init x; foldM body b l'
  end.

(** A [for] loop run for its effects. *)
Definition forM_ {A} (body : A -> io unit) (l : list A) : io unit :=
  foldM (fun _ x => body x) tt l.

Lemma io_bind_ok {A B} (f : A -> io B) (m : io A) w a w' :
  m w = (Ok a, w') -> mbind f m w = f a w'.
Proof. unfold mbind, io_bind. by intros ->. Qed.

Lemma io_bind_raise {A B} (f : A -> io B) (m : io A) w e w' :
  m w = (Raise e, w') -> mbind f m w = (Raise e, w').
Proof. unfold mbind, io_bind. by intros ->. Qed.

Lemma io_bind_lift_ok {A B} (f : A -> io B) (a : A) w :
  mbind f (lift (Ok a)) w = f a w.
Proof. done. Qed.

Lemma io_bind_lift_raise {A B} (f : A -> io B) (e : exn) w :
  mbind f (lift (Raise e)) w = (Raise e, w).
Proof. done. Qed.

Lemma io_bind_reads {A B} (f : A -> io B) (g : W -> A) w :
  mbind f (reads g) w = f (g w) w.
Proof. done. Qed.

Lemma io_bind_inv {A B} (f : A -> io B) (m : io A) w b w2 :
  mbind f m w = (Ok b, w2) <-> exists a w1, m w = (Ok a, w1) /\ f a w1 = (Ok b, w2).
Proof.
  unfold mbind, io_bind. destruct (m w) as [[a|e] w1]; split.
  - eauto.
  - by intros (? & ? & [= -> ->] & ?).
  - done.
  - by intros (? & ? & ? & ?).
Qed.

Lemma foldM_cons {A B} (body : B -> A -> io B) (init : B) (x : A) (l : list A) :
  foldM body init (x :: l) = mbind (fun b => foldM body b l) (body init x).
Proof. done. Qed.

Lemma foldM_app {A B} (body : B -> A -> io B) (init : B) (l1 l2 : list A) w :
  foldM body init (l1 ++ l2) w = mbind (fun b => foldM body b l2) (foldM body init l1) w.
Proof.
  revert init w. induction l1 as [|x l1 IH]; intros init w; [done|].
  simpl. unfold mbind, io_bind. destruct (body init x w) as [[b|e] w1]; [apply IH | done].
Qed.

(** *** Triples

    [hoare P m Q]: from a state that satisfies [P], the computation [m]
    ends, normally or with an exception, in an outcome and a state that
    satisfy [Q]. *)
Definition hoare {A} (P : W -> Prop) (m : io A) (Q : result A -> W -> Prop) : Prop :=
  forall w, P w -> Q (m w).1 (m w).2.

(** The postcondition of a step that is followed by others: an
    exception ends the computation, a value goes on. *)
Definition and_then {A B} (R : A -> W -> Prop) (Q : result B -> W -> Prop)
    (r : result A) (w : W) : Prop :=
  match r with
  | Ok a => R a w
  | Raise e => Q (Raise e) w
  end.

Lemma hoare_conseq {A} (P P' : W -> Prop) (Q Q' : result A -> W -> Prop) (m : io A) :
  hoare P' m Q' -> (forall w, P w -> P' w) -> (forall r w, Q' r w -> Q r w) ->
  hoare P m Q.
Proof. intros Hm HP HQ w Hw. apply HQ, Hm, HP, Hw. Qed.

Lemma hoare_ret {A} (P : W -> Prop) (a : A) (Q : result A -> W -> Prop) :
  (forall w, P w -> Q (Ok a) w) -> hoare P (mret a) Q.
Proof. intros HQ w Hw. by apply HQ. Qed.

Lemma hoare_lift {A} (P : W -> Prop) (r : result A) (Q : result A -> W -> Prop) :
  (forall w, P w -> Q r w) -> hoare P (lift r) Q.
Proof. intros HQ w Hw. by apply HQ. Qed.

Lemma hoare_bind {A B} (P : W -> Prop) (R : A -> W -> Prop) (Q : result B -> W -> Prop)
    (m : io A) (f : A -> io B) :
  hoare P m (and_then R Q) -> (forall a, hoare (R a) (f a) Q) ->
  hoare P (mbind f m) Q.
Proof.
  intros Hm Hf w Hw. specialize (Hm w Hw). unfold mbind, io_bind.
  destruct (m w) as [[a|e] w1]; simpl in *; [by apply Hf | done].
Qed.

(** A loop keeps what each of its iterations keeps. *)
Lemma hoare_foldM {A B} (I : B -> W -> Prop) (Q : result B -> W -> Prop)
    (body : B -> A -> io B) (l : list A) (init : B) :
  (forall b x, x ∈ l -> hoare (I b) (body b x) (and_then I Q)) ->
  (forall b w, I b w -> Q (Ok b) w) ->
  hoare (I init) (foldM body init l) Q.
Proof.
  intros Hbody Hend. revert init. induction l as [|x l IH]; intros init; simpl.
  - apply hoare_ret. intros w. apply Hend.
  - eapply hoare_bind; [apply Hbody; left|].
    intros b. apply IH. intros b' y ?. apply Hbody. by right.
Qed.

(** *** Invariants

    [keeps I m V]: the computation [m] keeps the invariant [I] of the
    state, whether it returns or raises, and the value it returns
    satisfies [V]. *)
Definition keeps {A} (I : W -> Prop) (m : io A) (V : A -> Prop) : Prop :=
  hoare I m (fun r w => I w /\ forall a, r = Ok a -> V a).

Lemma keeps_ret {A} (I : W -> Prop) (a : A) (V : A -> Prop) : V a -> keeps I (mret a) V.
Proof. intros Ha w Hw. split; [done|]. by intros ? [= <-]. Qed.

Lemma keeps_lift {A} (I : W -> Prop) (r : result A) (V : A -> Prop) :
  (forall a, r = Ok a -> V a) -> keeps I (lift r) V.
Proof. intros Hr w Hw. by split. Qed.

Lemma keeps_bind {A B} (I : W -> Prop) (V : A -> Prop) (V' : B -> Prop)
    (m : io A) (f : A -> io B) :
  keeps I m V -> (forall a, V a -> keeps I (f a) V') -> keeps I (mbind f m) V'.
Proof.
  intros Hm Hf w Hw. destruct (Hm w Hw) as [Hw1 Ha]. unfold mbind, io_bind.
  destruct (m w) as [[a|e] w1]; simpl in *; [by apply Hf; auto | done].
Qed.

Lemma keeps_foldM {A B} (I : W -> Prop) (V : B -> Prop)
    (body : B -> A -> io B) (l : list A) (init : B) :
  V init -> (forall b x, V b -> keeps I (body b x) V) -> keeps I (foldM body init l) V.
Proof.
  intros Hinit Hbody. revert init Hinit. induction l as [|x l IH]; intros init Hinit; simpl.
  - by apply keeps_ret.
  - eapply keeps_bind; [by apply Hbody | apply IH].
Qed.

Lemma keeps_weaken {A} (I : W -> Prop) (V V' : A -> Prop) (m : io A) :
  keeps I m V -> (forall a, V a -> V' a) -> keeps I m V'.
Proof. intros Hm HV w Hw. destruct (Hm w Hw). split; auto. Qed.

(** *** Computations that only read, and computations that change the
    state only when they succeed *)

Definition quiet {A} (m : io A) : Prop := forall w, (m w).2 = w.

Definition atomic {A} (m : io A) : Prop :=
  forall w e w', m w = (Raise e, w') -> w' = w.

Lemma quiet_ret {A} (a : A) : quiet (mret a).
Proof. done. Qed.

Lemma quiet_lift {A} (r : result A) : quiet (lift r).
Proof. done. Qed.

Lemma quiet_bind {A B} (m : io A) (f : A -> io B) :
  quiet m -> (forall a, quiet (f a)) -> quiet (mbind f m).
Proof.
  intros Hm Hf w. specialize (Hm w). unfold mbind, io_bind.
  destruct (m w) as [[a|e] w1]; simpl in *; subst; [apply Hf | done].
Qed.

Lemma quiet_foldM {A B} (body : B -> A -> io B) (l : list A) (init : B) :
  (forall b x, quiet (body b x)) -> quiet (foldM body init l).
Proof.
  intros Hbody. revert init. induction l as [|x l IH]; intros init; simpl; [done|].
  by apply quiet_bind.
Qed.

Lemma atomic_quiet {A} (m : io A) : quiet m -> atomic m.
Proof. intros Hm w e w' E. specialize (Hm w). by rewrite E in Hm. Qed.

Lemma atomic_bind {A B} (m : io A) (f : A -> io B) :
  quiet m -> (forall a, atomic (f a)) -> atomic (mbind f m).
Proof.
  intros Hm Hf w e w'. specialize (Hm w). unfold mbind, io_bind.
  destruct (m w) as [[a|e1] w1]; simpl in *; subst; [apply Hf | by intros [= _ <-]].
Qed.

(** A step that is atomic, followed by steps that cannot raise. *)
Lemma atomic_last {A B} (m : io A) (f : A -> io B) :
  atomic m -> (forall a w, exists b w', f a w = (Ok b, w')) -> atomic (mbind f m).
Proof.
  intros Hm Hf w e w'. unfold mbind, io_bind.
  destruct (m w) as [[a|e1] w1] eqn:E; [|intros [= _ <-]; by eapply Hm].
  destruct (Hf a w1) as (b & w2 & ->). done.
Qed.

(** *** The state a computation leaves

    A fact [Q] of the state a sequence or a loop leaves, whether it
    returns or raises, from facts of its steps.  The state each step
    starts from is known, so [Q] and the invariant [I] of a loop may speak
    of the state the whole computation started from. *)

Lemma io_bind_state {A B} (Q : W -> Prop) (m : io A) (f : A -> io B) w :
  (forall e w1, m w = (Raise e, w1) -> Q w1) ->
  (forall a w1, m w = (Ok a, w1) -> Q (f a w1).2) ->
  Q (mbind f m w).2.
Proof. unfold mbind, io_bind. destruct (m w) as [[a|e] w1]; eauto. Qed.

(** A step that only reads. *)
Lemma io_bind_state_quiet {A B} (Q : W -> Prop) (m : io A) (f : A -> io B) w :
  quiet m -> Q w -> (forall a, m w = (Ok a, w) -> Q (f a w).2) -> Q (mbind f m w).2.
Proof.
  intros Hm Hw Hf. specialize (Hm w).
  apply io_bind_state; intros ? w1 E; rewrite E in Hm; simpl in Hm; subst; eauto.
Qed.

(** A loop whose body keeps [I], for the elements the loop runs over. *)
Lemma foldM_state {A B} (I : W -> Prop) (body : B -> A -> io B) (l : list A) (init : B) w :
  (forall b x w1, x ∈ l -> I w1 -> I (body b x w1).2) -> I w -> I (foldM body init l w).2.
Proof.
  revert init w. induction l as [|x l IH]; intros init w Hbody Hw; [done|].
  assert (forall r w1, body init x w = (r, w1) -> I w1) as Hstep
    by (intros r w1 E; replace w1 with (body init x w).2 by (by rewrite E);
        apply Hbody; [left | done]).
  rewrite foldM_cons. apply io_bind_state; intros ? w1 E; [by eapply Hstep|].
  apply IH; [intros b y w2 ?; apply Hbody; by right | by eapply Hstep].
Qed.

End io.
Arguments io : clear implicits.

(** The steps that only read are found by [eauto with io_quiet];
    [atomic_step] passes such a step at the head of a sequence that is to
    be [atomic], and [quiet_step] one of a sequence of whose final state
    a reflexive fact is to be shown. *)
Create HintDb io_quiet discriminated.
#[export] Hint Resolve quiet_ret quiet_lift quiet_bind quiet_foldM : io_quiet.

(** [keeps_pure] passes a step of an invariant proof that does not touch
    the state and of whose value nothing is needed. *)
Ltac keeps_pure := eapply keeps_bind; [by apply (keeps_lift _ _ (fun _ => True)) |].

Ltac quiet_step :=
  apply io_bind_state_quiet; [solve [eauto with io_quiet] | done |].
Ltac atomic_step := apply atomic_bind; [solve [eauto with io_quiet] |].
