(* ===== verification/World.v ===== *)
(** * World: the file system and the console

    What the handlers of the program act on: a tree of directories and
    files, the current directory, and the text printed so far.  The file
    system is a finite map from canonical paths (the names from the root
    down) to nodes; a file holds a picture the imaging library can decode,
    or other bytes.  [resolve] turns a path string into a canonical path
    the way the kernel walks it, component by component; the operations
    are the calls the program makes: [os.path.isdir], [os.path.isfile],
    [os.listdir], [os.makedirs(..., exist_ok=True)], [Image.open],
    [Image.save] and [print].

    [os.listdir] returns the names in arbitrary order: the world carries
    the order ([listing_order]) and the theorems hold for every order.

    The operations are computations in the monad of [IO]: an exception
    leaves the world as it was when it was raised.  [world_wf] is the
    invariant of the tree; every operation keeps it.  [differs_in F]
    relates a world to one that is the same outside the paths in [F]: it
    says where a computation may have written.  Symbolic links,
    permissions and open file handles are not modelled. *)

From Stdlib Require Import ZArith Lia List Ascii String.
From stdpp Require Import prelude strings gmap.
From S2P Require Import Prelude Python PyString PyPath Imaging IO.

(** ** The world *)

(** A canonical path: the names from the root down to the node. *)
Abbreviation path := (list str).

Section world.
Context `{Imaging}.

(** What a file holds: a picture [Image.open] decodes, or anything else. *)
Inductive content : Type :=
| Picture (img : image)
| Bytes.

Inductive node : Type :=
| Dir
| File (c : content).

Record world : Type := World {
  fs : gmap path node;
  cwd : path;
  listing_order : list str -> list str;
  stdout : list str;
}.

Definition set_fs (f : gmap path node -> gmap path node) (w : world) : world :=
  World (f (fs w)) (cwd w) (listing_order w) (stdout w).

(** ** Path resolution *)

(** The names [.] and [..] and the empty name between two slashes. *)
Definition dot : str := ".".
Definition dotdot : str := "..".

(** The walk of the kernel along the components of a path: every
    component is looked up in a directory. *)
Fixpoint walk (tree : gmap path node) (cur : path) (components : list str)
    : result path :=
  match components with
  | [] => Ok cur
  | c :: rest =>
      match tree !! cur with
      | Some Dir =>
          if decide (c = [] \/ c = dot) then walk tree cur rest
          else if decide (c = dotdot) then walk tree (removelast cur) rest
          else walk tree (cur ++ [c]) rest
      | Some (File _) => Raise NotADirectoryError
      | None => Raise FileNotFoundError
      end
  end.

(** Where the walk starts: the root for an absolute path. *)
Definition start (w : world) (p : str) : path :=
  if bool_decide (head p = Some "/"%char) then [] else cwd w.

Definition resolve (w : world) (p : str) : result path :=
  if decide (p = []) then Raise FileNotFoundError
  else walk (fs w) (start w p) (split_on "/" p).

(** ** The calls of the program *)

(** [os.path.isdir(p)] and [os.path.isfile(p)]: false on any error. *)
Definition isdir (p : str) (w : world) : bool :=
  match resolve w p with
  | Ok q => match fs w !! q with Some Dir => true | _ => false end
  | Raise _ => false
  end.

Definition isfile (p : str) (w : world) : bool :=
  match resolve w p with
  | Ok q => match fs w !! q with Some (File _) => true | _ => false end
  | Raise _ => false
  end.

(** The names in the directory [d]. *)
Definition child_of (d : path) (entry : path * node) : option str :=
  if decide (removelast entry.1 = d) then last entry.1 else None.

Definition entries (tree : gmap path node) (d : path) : list str :=
  omap (child_of d) (map_to_list tree).

(** [os.listdir(p)]. *)
Definition listdir (p : str) : io world (list str) := fun w =>
  match resolve w p with
  | Ok q =>
      match fs w !! q with
      | Some Dir => (Ok (listing_order w (entries (fs w) q)), w)
      | Some (File _) => (Raise NotADirectoryError, w)
      | None => (Raise FileNotFoundError, w)
      end
  | Raise e => (Raise e, w)
  end.

(** [os.makedirs(name, exist_ok=True)] for a [name] without slash, which
    is all the program passes: an existing directory is accepted, an
    existing file is not. *)
Definition makedirs (name : str) : io world unit := fun w =>
  match resolve w name with
  | Ok q =>
      match fs w !! q with
      | Some Dir => (Ok tt, w)
      | Some (File _) => (Raise FileExistsError, w)
      | None => (Ok tt, set_fs <[q := Dir]> w)
      end
  | Raise e => (Raise e, w)
  end.

(** [Image.open(p)], with the picture decoded. *)
Definition Image_open (p : str) : io world image := fun w =>
  match resolve w p with
  | Ok q =>
      match fs w !! q with
      | Some (File (Picture img)) => (Ok img, w)
      | Some (File Bytes) => (Raise UnidentifiedImageError, w)
      | Some Dir => (Raise IsADirectoryError, w)
      | None => (Raise FileNotFoundError, w)
      end
  | Raise e => (Raise e, w)
  end.

(** [img.save(p)]: creates or replaces the file. *)
Definition image_save (img : image) (p : str) : io world unit := fun w =>
  match resolve w p with
  | Ok q =>
      match fs w !! q with
      | Some Dir => (Raise IsADirectoryError, w)
      | _ => (Ok tt, set_fs <[q := File (Picture img)]> w)
      end
  | Raise e => (Raise e, w)
  end.

(** [print(s)]. *)
Definition print (s : str) : io world unit := fun w =>
  (Ok tt, World (fs w) (cwd w) (listing_order w) (stdout w ++ [s])).

End world.

(** ** Directory listings *)

Section world_facts.
Context `{Imaging}.
Implicit Types (w : world) (tree : gmap path node) (d q : path) (n : str).

Lemma child_of_Some d (k : path) (v : node) n :
  child_of d (k, v) = Some n <-> k = d ++ [n].
Proof.
  unfold child_of. simpl. split.
  - destruct (decide _) as [<-|]; [|done]. intros [k' ->]%last_Some.
    by rewrite removelast_last.
  - intros ->. rewrite removelast_last, decide_True by done. apply last_snoc.
Qed.

(** The names listed are those of the nodes directly below the directory. *)
Lemma elem_of_entries tree d n : n ∈ entries tree d <-> is_Some (tree !! (d ++ [n])).
Proof.
  unfold entries. rewrite list_elem_of_omap. split.
  - intros ([k v] & Hin%elem_of_map_to_list & ->%child_of_Some). eauto.
  - intros [v Hv]. exists (d ++ [n], v).
    split; [by apply elem_of_map_to_list | by apply child_of_Some].
Qed.

Lemma NoDup_entries tree d : NoDup (entries tree d).
Proof.
  apply NoDup_omap; [apply NoDup_map_to_list|].
  intros [k1 v1] [k2 v2] n Hin1%elem_of_map_to_list Hin2%elem_of_map_to_list
    ->%child_of_Some ->%child_of_Some. congruence.
Qed.

(** ** Walking *)

(** A name a file can have. *)
Definition ordinary n : Prop :=
  n <> [] /\ n <> dot /\ n <> dotdot /\ "/"%char ∉ n.

#[global] Instance ordinary_dec n : Decision (ordinary n).
Proof. unfold ordinary. apply _. Defined.

(** The stem of a name a file can have is such a name. *)
Lemma splitext_ordinary n : ordinary n -> ordinary (splitext n).1.
Proof.
  intros (Hne & Hd & Hdd & Hsep). unfold splitext.
  rewrite (after_last_id _ _ Hsep), (up_to_last_id "/"%char _ Hsep).
  destruct (_ || _) eqn:E; [done|]. simpl.
  apply orb_false_iff in E as [Hcut%bool_decide_eq_false Hdots].
  destruct (up_to_last_cases "."%char n) as [?|[stem Hs]]; [done|].
  rewrite Hs, removelast_last in *. repeat split; try by intros ->.
  intros Hin. apply Hsep. rewrite <- (up_to_after_last "."%char n), Hs.
  rewrite !elem_of_app. auto.
Qed.

Lemma walk_app tree d (l1 l2 : list str) :
  walk tree d (l1 ++ l2) = mbind (fun q => walk tree q l2) (walk tree d l1).
Proof.
  revert d. induction l1 as [|c l1 IH]; intros d; simpl; [done|].
  destruct (tree !! d) as [[|?]|]; try done. repeat case_decide; apply IH.
Qed.

Lemma walk_name tree d n :
  tree !! d = Some Dir -> ordinary n -> walk tree d [n] = Ok (d ++ [n]).
Proof.
  intros Hd (? & ? & ? & _). simpl. rewrite Hd.
  rewrite decide_False by (intros [?|?]; done). by rewrite decide_False.
Qed.

Lemma walk_skip tree d q : walk tree d [[]] = Ok q -> q = d /\ tree !! d = Some Dir.
Proof.
  simpl. destruct (tree !! d) as [[|?]|]; try done. by intros [= ->].
Qed.

(** Creating nodes and replacing files does not change where a walk that
    succeeded leads. *)
Lemma walk_mono tree tree' d (components : list str) q :
  (forall k, tree !! k = Some Dir -> tree' !! k = Some Dir) ->
  walk tree d components = Ok q -> walk tree' d components = Ok q.
Proof.
  intros Hsub. revert d. induction components as [|c l IH]; intros d; simpl; [done|].
  destruct (tree !! d) as [[|?]|] eqn:E; try done. rewrite (Hsub d E).
  repeat case_decide; apply IH.
Qed.

(** ** Resolving a joined path *)

(** A walk that ends at a file ends with the name of the file: the last
    component is not empty, [.] or [..], which all lead to directories. *)
Lemma walk_file tree cur (components : list str) q (c : content) :
  tree !! [] = Some Dir ->
  (forall d n, tree !! (d ++ [n]) = Some Dir -> tree !! d = Some Dir) ->
  walk tree cur components = Ok q -> components <> [] -> tree !! q = Some (File c) ->
  exists d n, last components = Some n /\ q = d ++ [n] /\ tree !! d = Some Dir
              /\ n <> [] /\ n <> dot /\ n <> dotdot.
Proof.
  intros Hroot Hup. revert cur.
  induction components as [|x rest IH]; intros cur Hwalk Hne Hfile; [done|].
  simpl in Hwalk. destruct (tree !! cur) as [[|?]|] eqn:Hcur; [|done..].
  destruct rest as [|y rest].
  - repeat case_decide; simpl in Hwalk; injection Hwalk as <-.
    + congruence.
    + destruct cur as [|z cur _] using rev_ind; [simpl in *; congruence|].
      rewrite removelast_last in Hfile. apply Hup in Hcur. congruence.
    + exists cur, x. repeat split; [done | tauto..].
  - repeat case_decide; by eapply IH.
Qed.

Lemma start_join w (folder n : str) :
  folder <> [] -> head n <> Some "/"%char -> start w (join folder n) = start w folder.
Proof.
  intros Hf Hn. unfold start, join. rewrite (bool_decide_eq_false_2 (head n = _)) by done.
  destruct folder as [|c folder]; [done|].
  by destruct (bool_decide (_ \/ _)).
Qed.

Lemma ordinary_head n : ordinary n -> head n <> Some "/"%char.
Proof. intros (_ & _ & _ & Hn). destruct n as [|c n]; [done|]. intros [= ->]. apply Hn. left. Qed.

Lemma join_nonempty (folder n : str) : n <> [] -> join folder n <> [].
Proof.
  intros Hn. unfold join. repeat case_bool_decide; [done | | by destruct folder].
  by intros [_ ?]%app_eq_nil.
Qed.

(** [os.path.join(folder, n)] names the entry [n] of the directory
    [folder] names. *)
Lemma resolve_join w (folder n : str) d :
  resolve w folder = Ok d -> fs w !! d = Some Dir -> ordinary n ->
  resolve w (join folder n) = Ok (d ++ [n]).
Proof.
  intros Hr Hd Hn. unfold resolve in *. destruct (decide (folder = [])) as [|Hf]; [done|].
  pose proof Hn as (Hne & _ & _ & Hsep).
  rewrite decide_False by by apply join_nonempty.
  rewrite start_join by (done || by apply ordinary_head). unfold join.
  rewrite bool_decide_eq_false_2 by by apply ordinary_head.
  case_bool_decide as Hl.
  - destruct Hl as [?|[f' ->]%last_Some]; [done|].
    rewrite split_on_snoc, walk_app in Hr. rewrite <- app_assoc. simpl.
    rewrite split_on_last, walk_app by done.
    destruct (walk (fs w) _ (split_on _ f')) as [q|]; [simpl in *|done].
    apply walk_skip in Hr as [<- ?]. by apply walk_name.
  - rewrite split_on_last, walk_app, Hr by done. by apply walk_name.
Qed.

(** A plain name is an entry of the current directory. *)
Lemma resolve_name w n :
  fs w !! cwd w = Some Dir -> ordinary n -> resolve w n = Ok (cwd w ++ [n]).
Proof.
  intros Hcwd Hn. pose proof Hn as (? & _ & _ & ?). unfold resolve, start.
  rewrite decide_False, bool_decide_eq_false_2 by (done || by apply ordinary_head).
  rewrite split_on_no_sep by done. by apply walk_name.
Qed.

(** Resolution looks at the directories only: two worlds with the same
    directories and the same current directory resolve alike. *)
Lemma resolve_mono w w' p q :
  (forall k, fs w !! k = Some Dir -> fs w' !! k = Some Dir) -> cwd w' = cwd w ->
  resolve w p = Ok q -> resolve w' p = Ok q.
Proof.
  intros Hsub Hcwd. unfold resolve, start. rewrite Hcwd. case_decide; [done|].
  by apply walk_mono.
Qed.

End world_facts.

(** ** The calls, one by one *)

Section calls.
Context `{Imaging}.
Implicit Types (w : world) (d q : path) (n p : str) (img : image).

(** The exception [Image.open] raises on a node that is not a picture. *)
Definition open_error (v : node) : option exn :=
  match v with
  | Dir => Some IsADirectoryError
  | File Bytes => Some UnidentifiedImageError
  | File (Picture _) => None
  end.

Lemma Image_open_raises p w q (v : node) e :
  resolve w p = Ok q -> fs w !! q = Some v -> open_error v = Some e ->
  Image_open p w = (Raise e, w).
Proof. unfold Image_open. intros -> ->. destruct v as [|[|]]; by intros [= <-]. Qed.

Lemma listdir_ok p w d :
  resolve w p = Ok d -> fs w !! d = Some Dir ->
  listdir p w = (Ok (listing_order w (entries (fs w) d)), w).
Proof. unfold listdir. by intros -> ->. Qed.

Lemma Image_open_ok p w q img :
  resolve w p = Ok q -> fs w !! q = Some (File (Picture img)) ->
  Image_open p w = (Ok img, w).
Proof. unfold Image_open. by intros -> ->. Qed.

Lemma image_save_ok img p w q :
  resolve w p = Ok q -> fs w !! q <> Some Dir ->
  image_save img p w = (Ok tt, set_fs <[q := File (Picture img)]> w).
Proof. unfold image_save. intros -> ?. by destruct (fs w !! q) as [[|?]|]. Qed.

Lemma image_save_raises img p w q :
  resolve w p = Ok q -> fs w !! q = Some Dir ->
  image_save img p w = (Raise IsADirectoryError, w).
Proof. unfold image_save. by intros -> ->. Qed.

Lemma open_error_cases (v : node) e :
  open_error v = Some e -> e = IsADirectoryError \/ e = UnidentifiedImageError.
Proof. destruct v as [|[|]]; intros [= <-]; auto. Qed.

Lemma isdir_inv p w : isdir p w = true -> exists d, resolve w p = Ok d /\ fs w !! d = Some Dir.
Proof.
  unfold isdir. destruct (resolve w p) as [d|]; [|done].
  destruct (fs w !! d) as [[|?]|] eqn:E; [|done..]. eauto.
Qed.

Lemma isfile_inv p w :
  isfile p w = true -> exists q c, resolve w p = Ok q /\ fs w !! q = Some (File c).
Proof.
  unfold isfile. destruct (resolve w p) as [q|]; [|done].
  destruct (fs w !! q) as [[|c]|] eqn:E; [done| |done]. eauto.
Qed.

(** Listing a directory and opening a picture leave the world alone. *)
Lemma listdir_world p w : (listdir p w).2 = w.
Proof. unfold listdir. destruct (resolve w p); [|done]. by destruct (fs w !! _) as [[|?]|]. Qed.

Lemma Image_open_world p w : (Image_open p w).2 = w.
Proof.
  unfold Image_open. destruct (resolve w p); [|done].
  by destruct (fs w !! _) as [[|[|]]|].
Qed.

Lemma quiet_listdir p : quiet (listdir p).
Proof. intros w. apply listdir_world. Qed.

Lemma quiet_Image_open p : quiet (Image_open p).
Proof. intros w. apply Image_open_world. Qed.

(** Saving and creating a directory change the world only when they
    succeed; printing always succeeds. *)
Lemma atomic_image_save img p : atomic (image_save img p).
Proof.
  intros w e w'. unfold image_save. destruct (resolve w p); [|by intros [= _ <-]].
  destruct (fs w !! _) as [[|?]|]; by intros [= <-].
Qed.

Lemma atomic_makedirs n : atomic (makedirs n).
Proof.
  intros w e w'. unfold makedirs. destruct (resolve w n); [|by intros [= _ <-]].
  destruct (fs w !! _) as [[|?]|]; by intros [= <-].
Qed.

(** [makedirs] on a plain name: the directory is there afterwards, whether
    it was before or not. *)
Lemma makedirs_ok n w :
  fs w !! cwd w = Some Dir -> ordinary n ->
  fs w !! (cwd w ++ [n]) = None \/ fs w !! (cwd w ++ [n]) = Some Dir ->
  makedirs n w = (Ok tt, set_fs <[cwd w ++ [n] := Dir]> w).
Proof.
  intros Hcwd Hn Hfree. unfold makedirs. rewrite resolve_name by done.
  destruct Hfree as [->| E]; [done|]. rewrite E. unfold set_fs.
  rewrite insert_id by done. by destruct w.
Qed.

Lemma print_ok (s : str) w : exists b w', print s w = (Ok b, w').
Proof. by do 2 eexists. Qed.

Lemma isdir_true p w q : resolve w p = Ok q -> fs w !! q = Some Dir -> isdir p w = true.
Proof. unfold isdir. by intros -> ->. Qed.

Lemma isfile_true p w q (c : content) :
  resolve w p = Ok q -> fs w !! q = Some (File c) -> isfile p w = true /\ isdir p w = false.
Proof. unfold isfile, isdir. by intros -> ->. Qed.

End calls.

#[export] Hint Resolve quiet_listdir quiet_Image_open : io_quiet.

(** ** The invariant of the file system *)

Section invariant.
Context `{Imaging}.
Implicit Types (w : world) (tree : gmap path node) (d q : path) (n p : str) (img : image).

(** Every node but the root is the entry of a directory, under a name a
    file can have; the current directory exists; a listing holds the
    entries of the directory, in some order; the pictures stored are
    images the library can have produced. *)
Record world_wf w : Prop := {
  wf_root : fs w !! [] = Some Dir;
  wf_cwd : fs w !! cwd w = Some Dir;
  wf_parent d n : is_Some (fs w !! (d ++ [n])) -> fs w !! d = Some Dir;
  wf_names d n : is_Some (fs w !! (d ++ [n])) -> ordinary n;
  wf_listing l : listing_order w l ≡ₚ l;
  wf_pictures q img : fs w !! q = Some (File (Picture img)) -> image_wf img;
}.

(** A path at which a node is or can be created. *)
Definition placed tree q : Prop :=
  q = [] \/ exists d n, q = d ++ [n] /\ tree !! d = Some Dir /\ ordinary n.

Lemma exists_placed w q : world_wf w -> is_Some (fs w !! q) -> placed (fs w) q.
Proof.
  intros Hwf Hq. destruct q as [|n q _] using rev_ind; [by left|].
  right. exists q, n. split; [done|]. split; [by eapply wf_parent | by eapply wf_names].
Qed.

Lemma walk_placed w d (components : list str) q :
  world_wf w -> placed (fs w) d -> Forall (fun c => "/"%char ∉ c) components ->
  walk (fs w) d components = Ok q -> placed (fs w) q.
Proof.
  intros Hwf Hd Hc. revert d Hd. induction Hc as [|c l Hc _ IH]; intros d Hd; simpl.
  - by intros [= <-].
  - destruct (fs w !! d) as [[|?]|] eqn:E; try done. repeat case_decide.
    + by apply IH.
    + apply IH. destruct d as [|n d _] using rev_ind; [by left|].
      rewrite removelast_last. apply exists_placed; [done|]. eexists. by eapply wf_parent.
    + apply IH. right. exists d, c. by repeat split; auto.
Qed.

Lemma resolve_placed w p q : world_wf w -> resolve w p = Ok q -> placed (fs w) q.
Proof.
  intros Hwf. unfold resolve. case_decide; [done|].
  apply walk_placed; [done | | apply split_on_pieces].
  apply exists_placed; [done|]. unfold start. case_bool_decide; eexists; apply Hwf.
Qed.

(** Creating a node, or replacing a file, keeps the invariant. *)
Lemma wf_insert w q (v : node) :
  world_wf w -> placed (fs w) q -> fs w !! q <> Some Dir ->
  (forall img, v = File (Picture img) -> image_wf img) ->
  world_wf (set_fs <[q := v]> w).
Proof.
  intros Hwf Hq Hnd Himg.
  assert (forall k, fs w !! k = Some Dir -> <[q := v]> (fs w) !! k = Some Dir) as Hdir.
  { intros k Hk. rewrite lookup_insert_ne; [done | by intros ->]. }
  assert (forall d n, is_Some (<[q := v]> (fs w) !! (d ++ [n])) ->
                      fs w !! d = Some Dir /\ ordinary n) as Hentry.
  { intros d n Hs. destruct (decide (q = d ++ [n])) as [->|].
    - destruct Hq as [?|(d' & n' & [-> ->]%app_inj_tail & ? & ?)]; [by destruct d | done].
    - rewrite lookup_insert_ne in Hs by done. split; [by eapply wf_parent | by eapply wf_names]. }
  split; simpl; try (apply Hdir, Hwf); try apply Hwf.
  - intros d n Hs. by apply Hdir, (Hentry d n).
  - intros d n Hs. by apply (Hentry d n).
  - intros k img'. destruct (decide (q = k)) as [->|].
    + rewrite lookup_insert_eq. intros [= ->]. by apply Himg.
    + rewrite lookup_insert_ne by done. apply Hwf.
Qed.

(** Every call of the program keeps the invariant. *)
Lemma listdir_wf p : keeps world_wf (listdir p) (fun _ => True).
Proof. intros w Hw. by rewrite listdir_world. Qed.

Lemma Image_open_wf p : keeps world_wf (Image_open p) image_wf.
Proof.
  intros w Hw. rewrite Image_open_world. split; [done|]. intros img.
  unfold Image_open. destruct (resolve w p) as [q|]; [|done].
  destruct (fs w !! q) as [[|[img'|]]|] eqn:E; try done.
  intros [= <-]. by eapply wf_pictures.
Qed.

Lemma makedirs_wf n : keeps world_wf (makedirs n) (fun _ => True).
Proof.
  intros w Hw. split; [|done]. unfold makedirs.
  destruct (resolve w n) as [q|] eqn:Hq; [|done].
  destruct (fs w !! q) as [[|?]|] eqn:E; try done. simpl.
  apply wf_insert; [done | by eapply resolve_placed | by rewrite E | done].
Qed.

Lemma image_save_wf img p : image_wf img -> keeps world_wf (image_save img p) (fun _ => True).
Proof.
  intros Himg w Hw. split; [|done]. unfold image_save.
  destruct (resolve w p) as [q|] eqn:Hq; [|done].
  assert (fs w !! q <> Some Dir -> world_wf (set_fs <[q := File (Picture img)]> w)).
  { intros. apply wf_insert; [done | by eapply resolve_placed | done | by intros ? [= <-]]. }
  destruct (fs w !! q) as [[|?]|] eqn:E; simpl; auto.
Qed.

Lemma print_wf (s : str) : keeps world_wf (print s) (fun _ => True).
Proof. intros w [? ? ? ? ? ?]. by split. Qed.

End invariant.

(** ** Building a world *)

(** ** Where the calls write *)

Section footprint.
Context `{Imaging}.
Implicit Types (w : world) (F : path -> Prop) (k q : path).

(** [w'] is [w] except at the paths in [F], and for what was printed
    since: every other path holds what it held, or nothing as before; the
    current directory and the listing order are the same; the lines of
    [w] are printed first. *)
Record differs_in F w w' : Prop := {
  di_entries k : ~ F k -> fs w' !! k = fs w !! k;
  di_cwd : cwd w' = cwd w;
  di_listing : listing_order w' = listing_order w;
  di_stdout : stdout w `prefix_of` stdout w';
}.

#[global] Instance differs_in_preorder F : PreOrder (differs_in F).
Proof.
  split.
  - by intros w.
  - intros w1 w2 w3 [E1 ? ? ?] [E2 ? ? ?].
    split; [intros k ?; by rewrite E2, E1 | congruence | congruence | by etrans].
Qed.

Lemma differs_in_mono F F' w w' :
  (forall k, F k -> F' k) -> differs_in F w w' -> differs_in F' w w'.
Proof. intros HF [E ? ? ?]. split; [intros k ?; apply E; auto | done..]. Qed.

Lemma differs_in_insert F w q (v : node) : F q -> differs_in F w (set_fs <[q := v]> w).
Proof.
  intros Hq. split; simpl; [|done..]. intros k Hk. apply lookup_insert_ne. by intros ->.
Qed.

(** Printing writes no file. *)
Lemma differs_in_print F w w' s : differs_in F w w' -> differs_in F w (print s w').2.
Proof.
  intros Hw. etrans; [done|]. split; simpl; [done..|]. by apply prefix_app_r.
Qed.

(** A save writes at the path its argument resolves to, and nowhere when
    the argument does not resolve. *)
Lemma differs_in_image_save F (img : image) p w :
  (forall q, resolve w p = Ok q -> F q) -> differs_in F w (image_save img p w).2.
Proof.
  intros Hq. unfold image_save. destruct (resolve w p) as [q|]; [|done].
  destruct (fs w !! q) as [[|?]|]; [done | by apply differs_in_insert, Hq..].
Qed.

(** [makedirs] that returned: the directory is there, at the path its
    argument resolved to and still resolves to; the path is new or
    nothing has changed. *)
Lemma makedirs_inv n w w' :
  makedirs n w = (Ok tt, w') ->
  exists q, resolve w n = Ok q /\ resolve w' n = Ok q /\ fs w' !! q = Some Dir
            /\ differs_in (fun k => k = q /\ fs w !! q = None) w w'.
Proof.
  unfold makedirs. destruct (resolve w n) as [q|] eqn:Hq; [|done].
  destruct (fs w !! q) as [[|?]|] eqn:E; intros [= <-]; exists q; [by rewrite Hq|].
  split; [done|]. split; [|split; [apply lookup_insert_eq | by apply differs_in_insert]].
  apply (resolve_mono w); [|done..]. intros k Hk. simpl.
  rewrite lookup_insert_ne; [done | congruence].
Qed.

(** A computation followed by [print]. *)
Lemma differs_in_then_print {A} F w0 (m : io world A) s w :
  differs_in F w0 (m w).2 -> differs_in F w0 ((let* _ := m in print s) w).2.
Proof.
  intros Hm. apply io_bind_state; intros ? w1 E;
    (replace w1 with (m w).2 by by rewrite E); [done | by apply differs_in_print].
Qed.

Lemma listdir_inv p w l w' :
  listdir p w = (Ok l, w') -> exists d, resolve w p = Ok d /\ fs w !! d = Some Dir.
Proof.
  unfold listdir. destruct (resolve w p) as [d|]; [|done].
  destruct (fs w !! d) as [[|?]|] eqn:E; [|done..]. eauto.
Qed.

End footprint.

Section files.
Context `{Imaging}.

(** A path that resolves to a file names it: the file is the entry
    [basename p] of a directory. *)
Lemma resolve_file w p q (c : content) :
  world_wf w -> resolve w p = Ok q -> fs w !! q = Some (File c) ->
  exists d, q = d ++ [basename p] /\ fs w !! d = Some Dir /\ ordinary (basename p).
Proof.
  intros Hwf Hq Hfile. unfold resolve in Hq. case_decide; [done|].
  destruct (walk_file (fs w) (start w p) (split_on "/"%char p) q c)
    as (d & n & Hlast & -> & Hd & ? & ? & ?);
    [apply Hwf | by intros d n Hn; eapply wf_parent; eauto | done
    | apply split_on_nonempty | done |].
  rewrite last_split_on in Hlast. injection Hlast as <-. exists d.
  repeat split; [done..|]. apply basename_no_sep.
Qed.

End files.

Section building.
Context `{Imaging}.
Implicit Types (w : world) (d : path) (n : str).

(** A file system with its root only. *)
Definition empty_world : world := World {[ [] := Dir ]} [] id [].

(** The world with one more entry [n] in the directory [d]. *)
Definition add d n (v : node) w : world := set_fs <[d ++ [n] := v]> w.

Lemma empty_world_wf : world_wf empty_world.
Proof.
  split; simpl; try done.
  - intros d n [v Hv]. apply lookup_singleton_Some in Hv as [? _]. by destruct d.
  - intros d n [v Hv]. apply lookup_singleton_Some in Hv as [? _]. by destruct d.
  - intros q img Hq. by apply lookup_singleton_Some in Hq as [_ ?].
Qed.

Lemma add_wf d n (v : node) w :
  world_wf w -> fs w !! d = Some Dir -> ordinary n -> fs w !! (d ++ [n]) <> Some Dir ->
  (forall img, v = File (Picture img) -> image_wf img) ->
  world_wf (add d n v w).
Proof. intros. apply wf_insert; [done | right; by exists d, n | done..]. Qed.

(** The directories of a world built with [add]. *)
Lemma empty_world_dirs (k : path) : fs empty_world !! k = Some Dir -> k = [].
Proof. simpl. by intros [<- _]%lookup_singleton_Some. Qed.

Lemma add_dirs d n (v : node) w (k : path) :
  fs (add d n v w) !! k = Some Dir -> (k = d ++ [n] /\ v = Dir) \/ fs w !! k = Some Dir.
Proof. simpl. intros [[<- ->]|[_ ?]]%lookup_insert_Some; auto. Qed.

End building.
