(* ===== verification/Scenes.v ===== *)
(** * Scenes: concrete worlds for the examples

    Four small file systems on the list instance of the imaging
    interface, with their invariant and their directories: a folder of
    four frames ([studio]), the same folder with a directory named like
    an image file ([cluttered]), a directory that holds a sheet
    ([gallery]), and the same after an earlier run left a frame behind
    ([reused]).  The examples of the handlers and of the command line run
    on them. *)

From Stdlib Require Import ZArith Lia List Ascii String.
From stdpp Require Import prelude strings gmap.
From S2P Require Import Prelude Python PyString PyPath PySorted Imaging IO World.

(** A world for the examples: the folder [frames] of the root holds four
    pictures of one colour each, listed out of order, and a file that is
    not a picture; the current directory is the root. *)
Definition studio : @world list_imaging :=
  add ["frames" : str] "frame_2.png" (File (Picture (solid 10 10 blue)))
    (add ["frames" : str] "frame_3.png" (File (Picture (solid 10 10 yellow)))
       (add ["frames" : str] "notes.txt" (File Bytes)
          (add ["frames" : str] "frame_0.png" (File (Picture (solid 10 10 red)))
             (add ["frames" : str] "frame_1.png" (File (Picture (solid 10 10 green)))
                (add [] "frames" Dir empty_world))))).

(** Discharges the side conditions of [add_wf] on a concrete world, by
    conversion: the goals are never normalised as a whole, since the
    operations of the imaging instance do not reduce on variables. *)
Ltac add_wf_side :=
  match goal with
  | |- ordinary _ => by apply (bool_decide_unpack _)
  | |- forall img, _ = File (Picture img) -> _ =>
      by intros ? [= <-]; (apply solid_wf || apply gradient_wf)
  | |- forall img, _ = _ -> _ => discriminate
  | |- _ = _ => reflexivity
  | |- _ <> _ => discriminate
  end.

Lemma studio_wf : world_wf studio.
Proof. unfold studio. do 6 (apply add_wf; [|add_wf_side..]). apply empty_world_wf. Qed.

(** The directories of [studio]: the root and the folder. *)
Lemma studio_dirs (k : path) : fs studio !! k = Some Dir -> k = [] \/ k = ["frames" : str].
Proof.
  unfold studio. intros Hk.
  do 6 (apply add_dirs in Hk as [[? ?]|Hk]; [by (discriminate || eauto)|]).
  left. by apply empty_world_dirs.
Qed.

(** [studio] with a directory whose name ends like an image file. *)
Definition cluttered : @world list_imaging := add ["frames" : str] "frame_9.png" Dir studio.

Lemma cluttered_wf : world_wf cluttered.
Proof. apply add_wf; [apply studio_wf | add_wf_side..]. Qed.

(** A directory with a sheet of 6 by 4 pixels and a file without
    extension; the current directory is the root. *)
Definition gallery : @world list_imaging :=
  add [] "atlas" (File Bytes)
    (add [] "sheet.png" (File (Picture (gradient 6 4))) empty_world).

Lemma gallery_wf : world_wf gallery.
Proof.
  unfold gallery. do 2 (apply add_wf; [|add_wf_side..]). apply empty_world_wf.
Qed.

Lemma gallery_dirs (k : path) : fs gallery !! k = Some Dir -> k = [].
Proof.
  unfold gallery. intros Hk.
  do 2 (apply add_dirs in Hk as [[? ?]|Hk]; [discriminate|]).
  by apply empty_world_dirs.
Qed.

(** [gallery] after an earlier run that left a frame number 7 in the
    folder of the sheet. *)
Definition reused : @world list_imaging :=
  add ["sheet" : str] "frame_0007.png" (File Bytes) (add [] "sheet" Dir gallery).

Lemma reused_wf : world_wf reused.
Proof.
  unfold reused. do 2 (apply add_wf; [|add_wf_side..]). apply gallery_wf.
Qed.

Lemma reused_dirs (k : path) : fs reused !! k = Some Dir -> k = [] \/ k = ["sheet" : str].
Proof.
  unfold reused. intros Hk.
  do 2 (apply add_dirs in Hk as [[? ?]|Hk]; [by (discriminate || eauto)|]).
  left. by apply gallery_dirs.
Qed.
