(* ===== verification/Grid.v ===== *)
(** * Grid: the layout planner [calc_grid_size]

    [calc_grid_size] (src/flipbook_tool.py, lines 7-13) picks the grid of a
    spritesheet: it scans the candidate row counts from the integer square
    root of the frame count down to 1 and returns the first one that divides
    the count, with the quotient as the number of columns.

    The file gives the scan as the code writes it ([scan_rows], the [for]
    loop with its early [return], in which [%] and [//] raise on a divisor
    0 as they do in Python), the abstract contract [grid_spec] (the
    row count is the largest divisor not above the square root), and the
    refinement of the one by the other, from which the product, ordering,
    optimality and primality facts follow. *)

From Stdlib Require Import ZArith Lia List Znumtheory.
From stdpp Require Import prelude.
From S2P Require Import Prelude Python.

(** ** The model *)

(** Lines 9-12: the [for] loop over the candidate row counts.  [Ok None]
    is falling off the end of the loop; the remainder and the quotient
    raise ZeroDivisionError on a candidate 0, as [%] and [//] do. *)
Fixpoint scan_rows (num_frames : Z) (candidates : list Z) : result (option (Z * Z)) :=
  match candidates with
  | [] => Ok None
  | rows :: rest =>
      let* remainder := pymod num_frames rows in
      if remainder =? 0 then
        let* cols := floordiv num_frames rows in
        Ok (Some (rows, cols))
      else scan_rows num_frames rest
  end.

(** Lines 7-13. *)
Definition calc_grid_size (num_frames : Z) : result (Z * Z) :=
  let* sqrt_val := int_math_sqrt num_frames in
  let* found := scan_rows num_frames (range3 sqrt_val 0 (-1)) in
  match found with
  | Some grid => Ok grid
  | None => Ok (1, num_frames)
  end.

(** ** The contract *)

(** What the layout planner promises for a positive frame count: a
    factorisation whose row count is the largest divisor of the count that
    does not exceed its square root. *)
Record grid_spec (n rows cols : Z) : Prop := {
  gs_rows_pos : 1 <= rows;
  gs_product : rows * cols = n;
  gs_rows_le_cols : rows <= cols;
  gs_largest : forall d, 1 <= d -> (d | n) -> d * d <= n -> d <= rows;
}.

(** An executable reference: filter the divisors among 1..sqrt(n), take the
    largest. *)
Definition grid_ref (n : Z) : Z * Z :=
  let divisors := filter (fun d => n mod d = 0) (seqZ 1 (Z.sqrt n)) in
  let rows := foldr Z.max 1 divisors in
  (rows, n / rows).

(** ** The scan *)

(** One turn of the loop on a candidate that is not 0. *)
Lemma scan_rows_cons (n d : Z) (l : list Z) :
  d <> 0 ->
  scan_rows n (d :: l) = if n mod d =? 0 then Ok (Some (d, n / d)) else scan_rows n l.
Proof. intros. simpl. rewrite pymod_ok by done. simpl. case_test; by rewrite ?floordiv_ok. Qed.

(** The candidate 0 stops the loop with ZeroDivisionError, at the test of
    line 10. *)
Lemma scan_rows_zero (n : Z) (l : list Z) : scan_rows n (0 :: l) = Raise ZeroDivisionError.
Proof. done. Qed.

(** The loop falls off its end when no candidate is 0 and none divides the
    count. *)
Lemma scan_rows_None (n : Z) (l : list Z) :
  scan_rows n l = Ok None <-> Forall (fun d => d <> 0 /\ n mod d <> 0) l.
Proof.
  induction l as [|d l IH]; [by split; auto|]. rewrite Forall_cons.
  destruct (decide (d = 0)) as [->|Hd]; [rewrite scan_rows_zero; split; [done | tauto]|].
  rewrite scan_rows_cons by done. case_test; [split; [done | tauto] | tauto].
Qed.

(** C29. The loop of lines 9-12, on any list of candidates, raises exactly when
    it meets the candidate 0 before a divisor of the count, and then
    ZeroDivisionError, from the remainder of line 10. *)
Theorem scan_rows_raises (n : Z) (l : list Z) (e : exn) :
  scan_rows n l = Raise e <->
  e = ZeroDivisionError
  /\ exists l1 l2, l = l1 ++ 0 :: l2 /\ Forall (fun d => d <> 0 /\ n mod d <> 0) l1.
Proof.
  induction l as [|d l IH].
  - split; [done | by intros (_ & [|? ?] & ? & ? & _)].
  - destruct (decide (d = 0)) as [->|Hd].
    + rewrite scan_rows_zero. split; [intros [= <-]; split; [done|]; by exists [], l|].
      by intros [-> _].
    + rewrite scan_rows_cons by done. case_test.
      * split; [done|]. intros (_ & [|? l1] & l2 & [= ? ?] & Hl1); [done | subst].
        apply Forall_cons in Hl1 as [[_ ?] _]. done.
      * rewrite IH. split; intros (-> & l1 & l2 & E & Hl1); (split; [done|]).
        -- exists (d :: l1), l2. rewrite E. split; [done | by constructor].
        -- destruct l1 as [|? l1]; injection E as ? ?; [done | subst].
           apply Forall_cons in Hl1 as [_ ?]. by exists l1, l2.
Qed.

Lemma scan_rows_raises_witness :
  scan_rows 6 [4; 0; 3] = Raise ZeroDivisionError <->
  ZeroDivisionError = ZeroDivisionError
  /\ exists l1 l2, [4; 0; 3] = l1 ++ 0 :: l2 /\ Forall (fun d => d <> 0 /\ 6 mod d <> 0) l1.
Proof. apply (scan_rows_raises 6 [4; 0; 3] ZeroDivisionError). Defined.

(** On the descending candidates s, s-1, ..., 1 the scan stops at the
    largest divisor that is at most s; it cannot run off the end, since it
    reaches 1, and it cannot raise, since it stops before 0. *)
Lemma scan_rows_down (n s : Z) :
  1 <= s ->
  exists r, scan_rows n (range3 s 0 (-1)) = Ok (Some (r, n / r))
            /\ 1 <= r <= s /\ n mod r = 0
            /\ forall d, r < d <= s -> n mod d <> 0.
Proof.
  revert s. apply (Zlt_lower_bound_ind _ 1).
  intros s IH Hs. rewrite range3_down_cons, scan_rows_cons by lia. case_test.
  - exists s. repeat split; try done; lia.
  - assert (s <> 1) by (intros ->; by rewrite Z.mod_1_r in *).
    destruct (IH (s - 1)) as (r & -> & ? & ? & Hmax); [lia|].
    exists r. repeat split; try done; try lia.
    intros d ?. destruct (decide (d = s)) as [->|]; [done | apply Hmax; lia].
Qed.

(** ** Refinement of the contract *)

Lemma grid_spec_unique (n r1 c1 r2 c2 : Z) :
  grid_spec n r1 c1 -> grid_spec n r2 c2 -> r1 = r2 /\ c1 = c2.
Proof.
  intros [? ? ? M1] [? ? ? M2].
  assert (r2 <= r1) by (apply M1; [lia | by exists c2; lia | nia]).
  assert (r1 <= r2) by (apply M2; [lia | by exists c1; lia | nia]).
  split; nia.
Qed.

Lemma calc_grid_size_spec (n : Z) :
  1 <= n -> exists r c, calc_grid_size n = Ok (r, c) /\ grid_spec n r c.
Proof.
  intros Hn. unfold calc_grid_size. rewrite int_math_sqrt_ok by lia. simpl.
  destruct (scan_rows_down n (Z.sqrt n)) as (r & -> & ? & Hr & Hmax);
    [auto with flip|].
  pose proof (Z.sqrt_spec n ltac:(lia)) as Hs. simpl in Hs.
  assert (r * (n / r) = n) by zdiv_lia.
  exists r, (n / r). split; [done|]. split; try done; try lia; try nia.
  intros d ? Hd Hdd. destruct (Z.le_gt_cases d r) as [|Hlt]; [done|].
  exfalso. apply (Hmax d); [|by apply mod0_divide; [lia | done]].
  split; [done|]. apply Z.sqrt_le_square; lia.
Qed.

Lemma calc_grid_size_sound (n r c : Z) :
  1 <= n -> calc_grid_size n = Ok (r, c) -> grid_spec n r c.
Proof.
  intros Hn E. destruct (calc_grid_size_spec n Hn) as (r' & c' & E' & S).
  rewrite E' in E. by injection E as <- <-.
Qed.

Lemma calc_grid_size_complete (n r c : Z) :
  1 <= n -> grid_spec n r c -> calc_grid_size n = Ok (r, c).
Proof.
  intros Hn S'. destruct (calc_grid_size_spec n Hn) as (r' & c' & -> & S).
  by destruct (grid_spec_unique _ _ _ _ _ S S') as [-> ->].
Qed.

(** C3. For every positive frame count the planner returns a grid, and the
    grid it returns is exactly the one the contract [grid_spec] describes:
    rows * cols is the count, rows <= cols, and rows is the largest divisor
    of the count that does not exceed its square root. *)
Theorem calc_grid_size_refines (n r c : Z) :
  1 <= n -> calc_grid_size n = Ok (r, c) <-> grid_spec n r c.
Proof.
  intros Hn. split; [by apply calc_grid_size_sound | by apply calc_grid_size_complete].
Qed.

Lemma calc_grid_size_refines_witness :
  calc_grid_size 12 = Ok (3, 4) <-> grid_spec 12 3 4.
Proof. apply (calc_grid_size_refines 12 3 4). lia. Defined.

(** ** Consequences for every caller *)

Lemma calc_grid_size_zero : calc_grid_size 0 = Ok (1, 0).
Proof. reflexivity. Qed.

Lemma calc_grid_size_neg (n : Z) : n < 0 -> calc_grid_size n = Raise ValueError.
Proof. intros. unfold calc_grid_size. by rewrite int_math_sqrt_neg. Qed.

Lemma calc_grid_size_nonneg (n : Z) :
  0 <= n -> exists r c, calc_grid_size n = Ok (r, c).
Proof.
  intros Hn. destruct (decide (n = 0)) as [->|]; [by exists 1, 0|].
  destruct (calc_grid_size_spec n) as (r & c & ? & _); [lia | eauto].
Qed.

(** C28. The planner raises exactly on a negative count, and then ValueError,
    the domain error of [math.sqrt]: the remainder and the quotient of the
    loop never raise ZeroDivisionError, since the candidates stop at 1,
    and for the count 0 there is no candidate at all. *)
Theorem calc_grid_size_raises (n : Z) (e : exn) :
  calc_grid_size n = Raise e <-> n < 0 /\ e = ValueError.
Proof.
  destruct (Z.lt_ge_cases n 0) as [Hn|Hn].
  - rewrite calc_grid_size_neg by done. split; [by intros [= <-] | by intros [_ ->]].
  - destruct (calc_grid_size_nonneg n Hn) as (r & c & ->). split; [done | lia].
Qed.

Lemma calc_grid_size_raises_witness :
  calc_grid_size (-3) = Raise ValueError <-> -3 < 0 /\ ValueError = ValueError.
Proof. apply (calc_grid_size_raises (-3) ValueError). Defined.

(** The grid always holds exactly the frames: rows * cols is the count. *)
Theorem calc_grid_size_product (n r c : Z) :
  calc_grid_size n = Ok (r, c) -> r * c = n.
Proof.
  intros E. destruct (Z.lt_ge_cases n 0); [by rewrite calc_grid_size_neg in E|].
  destruct (decide (n = 0)) as [->|]; [by injection E as <- <-|].
  apply calc_grid_size_sound in E; [by destruct E | lia].
Qed.

Lemma calc_grid_size_product_witness : 3 * 4 = 12.
Proof. apply (calc_grid_size_product 12 3 4). reflexivity. Defined.

Lemma calc_grid_size_landscape (n r c : Z) :
  1 <= n /\ calc_grid_size n = Ok (r, c) -> 1 <= r /\ r <= c.
Proof. intros [Hn [? _ ? _]%calc_grid_size_sound]; done. Qed.

(** The layout is landscape or square: 1 <= rows <= cols, so rows is at
    most the square root of the count and cols at least. *)
Theorem calc_grid_size_rows_le_cols (n r c : Z) :
  1 <= n -> calc_grid_size n = Ok (r, c) -> 1 <= r <= c /\ r * r <= n <= c * c.
Proof.
  intros Hn E. apply calc_grid_size_sound in E; [|done].
  destruct E. nia.
Qed.

Lemma calc_grid_size_rows_le_cols_witness :
  1 <= 3 <= 4 /\ 3 * 3 <= 12 <= 4 * 4.
Proof. apply (calc_grid_size_rows_le_cols 12 3 4); [lia | reflexivity]. Defined.

(** C27. Among all the ways to write the count as a * b with a <= b, the planner
    picks the one closest to a square. *)
Theorem calc_grid_size_most_square (n r c a b : Z) :
  calc_grid_size n = Ok (r, c) ->
  1 <= a <= b -> a * b = n -> c - r <= b - a.
Proof.
  intros E Hab Hn. assert (1 <= n) by nia.
  apply calc_grid_size_sound in E; [|done]. destruct E as [? ? ? Hmax].
  assert (a <= r) by (apply Hmax; [lia | by exists b; lia | nia]).
  nia.
Qed.

Lemma calc_grid_size_most_square_witness : 4 - 3 <= 6 - 2.
Proof.
  apply (calc_grid_size_most_square 12 3 4 2 6); [reflexivity | lia | lia].
Defined.

(** A perfect square is laid out as a square. *)
Theorem calc_grid_size_square (s : Z) :
  1 <= s -> calc_grid_size (s * s) = Ok (s, s).
Proof.
  intros Hs. apply calc_grid_size_complete; [nia|].
  split; try done; try lia. intros d ? _ ?. nia.
Qed.

Lemma calc_grid_size_square_witness : calc_grid_size (7 * 7) = Ok (7, 7).
Proof. apply (calc_grid_size_square 7). lia. Defined.

(** ** Primes *)

Lemma small_divisor (n a : Z) :
  1 < a < n -> (a | n) -> exists d, 1 < d /\ d * d <= n /\ (d | n).
Proof.
  intros Ha [b Hb]. assert (1 < b) by nia.
  destruct (Z.le_gt_cases a b).
  - exists a. repeat split; [lia | nia | by exists b].
  - exists b. repeat split; [lia | nia | by exists a; lia].
Qed.

(** C31. Above 1, a single row is returned exactly for the primes. *)
Theorem calc_grid_size_prime (n : Z) :
  2 <= n -> calc_grid_size n = Ok (1, n) <-> prime n.
Proof.
  intros Hn. rewrite <- prime_alt. split.
  - intros [_ _ _ Hmax]%calc_grid_size_sound; [|lia]. split; [lia|]. intros a Ha Hdiv.
    destruct (small_divisor n a Ha Hdiv) as (d & ? & ? & ?).
    specialize (Hmax d ltac:(lia) ltac:(done) ltac:(done)). lia.
  - intros [_ Hp]. apply calc_grid_size_complete; [lia|]. split; try lia. intros d ? Hd ?.
    destruct (Z.le_gt_cases d 1) as [|Hlt]; [done|].
    destruct (Hp d); [nia | done].
Qed.

Lemma calc_grid_size_prime_witness : calc_grid_size 7 = Ok (1, 7) <-> prime 7.
Proof. apply (calc_grid_size_prime 7). lia. Defined.

(** ** The fallback of line 13 *)

(** C32. For a positive count the loop always returns: the last candidate, 1,
    divides everything.  The [return (1, num_frames)] after the loop is
    reached only for the count 0, whose candidate range is empty. *)
Theorem fallback_only_for_zero (n : Z) :
  0 <= n -> scan_rows n (range3 (Z.sqrt n) 0 (-1)) = Ok None <-> n = 0.
Proof.
  intros Hn. split.
  - intros E. destruct (decide (n = 0)) as [|Hne]; [done|].
    destruct (scan_rows_down n (Z.sqrt n)) as (r & E' & _); [apply sqrt_pos; lia|].
    congruence.
  - by intros ->.
Qed.

Lemma fallback_only_for_zero_witness :
  scan_rows 0 (range3 (Z.sqrt 0) 0 (-1)) = Ok None <-> 0 = 0.
Proof. apply (fallback_only_for_zero 0). lia. Defined.

(** ** Equivalence with the reference *)

Lemma foldr_max_ge (l : list Z) (x : Z) : x ∈ l -> x <= foldr Z.max 1 l.
Proof.
  induction l as [|y l IH]; [by rewrite elem_of_nil|].
  rewrite elem_of_cons. simpl. intros [->|?]; [lia | specialize (IH ltac:(done)); lia].
Qed.

Lemma foldr_max_in (l : list Z) :
  foldr Z.max 1 l = 1 \/ foldr Z.max 1 l ∈ l.
Proof.
  induction l as [|y l IH]; [by left|]. simpl.
  destruct (Z.max_spec y (foldr Z.max 1 l)) as [[_ ->]|[_ ->]].
  - destruct IH as [->|?]; [by left | right; by apply list_elem_of_further].
  - right. apply list_elem_of_here.
Qed.

Lemma grid_ref_spec (n : Z) :
  1 <= n -> grid_spec n (grid_ref n).1 (grid_ref n).2.
Proof.
  intros Hn. unfold grid_ref. simpl.
  set (divs := filter _ _). set (r := foldr Z.max 1 divs).
  pose proof (Z.sqrt_spec n ltac:(lia)) as Hs. simpl in Hs.
  assert (Hin : forall d, d ∈ divs <-> n mod d = 0 /\ 1 <= d <= Z.sqrt n).
  { intros d. unfold divs. rewrite list_elem_of_filter, elem_of_seqZ. lia. }
  assert (Hr : n mod r = 0 /\ 1 <= r <= Z.sqrt n).
  { destruct (foldr_max_in divs) as [E|E]; fold r in E.
    - rewrite E, Z.mod_1_r. pose proof (sqrt_pos n Hn). lia.
    - by apply Hin. }
  assert (r * (n / r) = n) by zdiv_lia.
  split; try lia; try nia.
  intros d ? Hd Hdd. apply foldr_max_ge, Hin. split.
  - by apply mod0_divide; [lia|].
  - split; [done|]. apply Z.sqrt_le_square; lia.
Qed.

(** C30. The early-exit descending scan computes the same grid as the
    exhaustive reference [grid_ref], which collects every divisor up to the
    square root and takes the largest. *)
Theorem calc_grid_size_eq_ref (n : Z) :
  1 <= n -> calc_grid_size n = Ok (grid_ref n).
Proof.
  intros Hn. rewrite (surjective_pairing (grid_ref n)).
  by apply calc_grid_size_complete, grid_ref_spec.
Qed.

Lemma calc_grid_size_eq_ref_witness : calc_grid_size 360 = Ok (grid_ref 360).
Proof. apply (calc_grid_size_eq_ref 360). lia. Defined.
