(* ===== verification/Order.v ===== *)
(** * Order: the frame orderer [sort_image_files]

    [sort_image_files] (src/flipbook_tool.py, lines 15-21) orders the frame
    files by the first run of decimal digits in each name, read as an
    integer; names without a digit get the key [float('inf')] and go last.

    The file gives the key type ([sort_key]: an int or +inf, compared as
    Python compares them), [extract_number] and [sort_image_files], and
    proves the contract of the ordering (a permutation, ascending, stable,
    and the only such list), when the result is independent of the
    directory order and when it is not, and what the key of a name is in
    terms of the name's shape. *)

From Stdlib Require Import ZArith Lia List Ascii String Sorted.
From stdpp Require Import prelude strings sorting.
From S2P Require Import Prelude Python PyString PySorted.

(** ** The model *)

(** The values [extract_number] returns: [int(...)] or [float('inf')]. *)
Inductive sort_key : Type :=
| KInt (n : Z)
| KInf.

#[global] Instance sort_key_eq_dec : EqDecision sort_key.
Proof. solve_decision. Defined.

(** Python's [<] between these values: ints by value, every int below
    [inf], and [inf < inf] false. *)
Definition sort_key_lt (a b : sort_key) : bool :=
  match a, b with
  | KInt x, KInt y => x <? y
  | KInt _, KInf => true
  | KInf, _ => false
  end.

(** Lines 17-19. *)
Definition extract_number (filename : str) : sort_key :=
  match re_search_digits filename with
  | Some m => KInt (int_of_digits m)
  | None => KInf
  end.

(** Lines 15-21. *)
Definition sort_image_files (image_files : list str) : list str :=
  sorted sort_key_lt extract_number image_files.

(** [a] may precede [b] in the sorted list. *)
Definition name_le (a b : str) : Prop :=
  sort_key_lt (extract_number b) (extract_number a) = false.

(** ** The comparison is a strict weak order *)

#[global] Instance sort_key_order : KeyOrder sort_key_lt.
Proof.
  split.
  - intros [x|]; simpl; [apply Z.ltb_irrefl | done].
  - intros [x|] [y|] [z|]; simpl; try done. rewrite !Z.ltb_lt. lia.
  - intros [x|] [y|] [z|]; simpl; rewrite ?Z.ltb_lt; intros; auto; lia.
Qed.

Lemma same_key_eq (k : sort_key) (f : str) :
  same_key sort_key_lt extract_number k f = true <-> extract_number f = k.
Proof.
  rewrite same_key_true. destruct k as [x|], (extract_number f) as [y|]; simpl;
    rewrite ?Z.ltb_ge; split; intros H; try done; try (by destruct H).
  - f_equal. lia.
  - injection H as ->. lia.
Qed.

Lemma name_le_key_le (a b : str) :
  name_le a b <-> key_le sort_key_lt extract_number a b.
Proof. done. Qed.

(** ** The key of a file name *)

(** A name gets the key [inf] exactly when it holds no digit. *)
Lemma extract_number_inf (f : str) : extract_number f = KInf <-> no_digit f.
Proof.
  unfold extract_number. rewrite <- re_search_digits_None.
  destruct (re_search_digits f); split; done.
Qed.

(** The key of [pre ++ ds ++ post]: the value of the digit run [ds], when
    no digit comes before it and none follows it immediately. *)
Lemma extract_number_run (pre ds post : str) :
  no_digit pre -> ds <> [] -> all_digits ds ->
  take_while is_digit post = [] ->
  extract_number (pre ++ ds ++ post) = KInt (int_of_digits ds).
Proof.
  intros. unfold extract_number. by rewrite re_search_digits_run.
Qed.

Lemma extract_number_nonneg (f : str) (n : Z) :
  extract_number f = KInt n -> 0 <= n.
Proof.
  unfold extract_number. destruct (re_search_digits f) as [m|] eqn:E; [|done].
  intros [= <-]. apply int_of_digits_nonneg.
  by apply re_search_digits_all_digits in E as [_ ?].
Qed.

(** A name built around a zero-padded or plain decimal number has that
    number as its key. *)
Lemma extract_number_format (pre post : str) (w : nat) (n : Z) :
  no_digit pre -> take_while is_digit post = [] -> 0 <= n ->
  extract_number (pre ++ format_0wd w n ++ post) = KInt n.
Proof.
  intros. destruct (format_0wd_all_digits w n) as [? ?]; [done|].
  rewrite extract_number_run by done. by rewrite int_of_digits_format_0wd.
Qed.

Lemma extract_number_str_of_int (pre post : str) (n : Z) :
  no_digit pre -> take_while is_digit post = [] -> 0 <= n ->
  extract_number (pre ++ str_of_int n ++ post) = KInt n.
Proof.
  intros. rewrite str_of_int_nonneg by done.
  rewrite extract_number_run; auto using digits_of_nonempty, digits_of_all_digits.
  by rewrite int_of_digits_digits_of.
Qed.

(** Only the first run counts: whatever follows a digit run that is closed
    by a non-digit has no influence on the key. *)
Lemma extract_number_first_run (pre ds : str) (c : ascii) (rest1 rest2 : str) :
  no_digit pre -> ds <> [] -> all_digits ds -> is_digit c = false ->
  extract_number (pre ++ ds ++ c :: rest1) = extract_number (pre ++ ds ++ c :: rest2).
Proof.
  intros. rewrite !extract_number_run; auto using take_while_stop.
Qed.

(** ** The contract of the ordering *)

Section contract.
Implicit Types (l : list str) (k : sort_key).

Lemma filter_same_key k l :
  filter (same_key sort_key_lt extract_number k) l
  = filter (fun f => extract_number f = k) l.
Proof.
  apply list_filter_iff. intros f. rewrite <- same_key_eq.
  by destruct (same_key _ _ _ _).
Qed.

(** The sorted list holds the same names as the input. *)
Theorem sort_image_files_perm l : sort_image_files l ≡ₚ l.
Proof. apply sorted_perm. Qed.

(** The keys ascend along the sorted list. *)
Theorem sort_image_files_ascending l : StronglySorted name_le (sort_image_files l).
Proof. apply (sorted_sorted sort_key_lt extract_number). Qed.

(** Names of equal key keep their input order. *)
Theorem sort_image_files_stable l k :
  filter (fun f => extract_number f = k) (sort_image_files l)
  = filter (fun f => extract_number f = k) l.
Proof. rewrite <- !filter_same_key. apply sorted_stable, _. Qed.

(** A list that is ascending in the keys and stable with respect to the
    input is the sorted list. *)
Lemma sort_image_files_unique l l' :
  StronglySorted name_le l' ->
  (forall k, filter (fun f => extract_number f = k) l'
             = filter (fun f => extract_number f = k) l) ->
  l' = sort_image_files l.
Proof.
  intros Hs Hf. apply (sorted_unique sort_key_lt extract_number). split; [done|].
  intros k. by rewrite !filter_same_key.
Qed.

(** C7. The frame orderer returns the one list that is ascending in the keys
    and stable with respect to the input. *)
Theorem sort_image_files_contract l l' :
  l' = sort_image_files l <->
  StronglySorted name_le l' /\
  forall k, filter (fun f => extract_number f = k) l'
            = filter (fun f => extract_number f = k) l.
Proof.
  split; [|intros [? ?]; by apply sort_image_files_unique].
  intros ->. split; [apply sort_image_files_ascending | intros k; apply sort_image_files_stable].
Qed.

Theorem sort_image_files_idemp l :
  sort_image_files (sort_image_files l) = sort_image_files l.
Proof. apply sorted_idemp, _. Qed.

(** Names of distinct keys are told apart by their keys. *)
Lemma distinct_keys l x y :
  NoDup (extract_number <$> l) -> x ∈ l -> y ∈ l ->
  same_key sort_key_lt extract_number (extract_number x) y = true -> x = y.
Proof.
  intros Hnd Hx Hy E%same_key_eq. by apply (NoDup_fmap_inj_on extract_number l).
Qed.

(** C33. When all the keys differ, the order of the result does not depend on
    the order in which the directory listed the files. *)
Theorem sort_image_files_order_independent l1 l2 :
  l1 ≡ₚ l2 -> NoDup (extract_number <$> l1) ->
  sort_image_files l1 = sort_image_files l2.
Proof.
  intros E Hnd. apply sorted_perm_distinct; [apply _ | done |].
  intros x y. by apply distinct_keys.
Qed.

Lemma same_key_ascending l k :
  (forall f, f ∈ l -> extract_number f = k) -> StronglySorted name_le l.
Proof.
  intros Hk. induction l as [|f l IH]; constructor.
  - apply IH. intros g ?. apply Hk. by right.
  - apply Forall_forall. intros g Hg. unfold name_le.
    rewrite (Hk f), (Hk g) by (by constructor). apply key_lt_irrefl.
Qed.

(** When all the names have the same key, sorting changes nothing: the
    frames are packed in the order the directory listed them. *)
Theorem sort_image_files_same_key l k :
  (forall f, f ∈ l -> extract_number f = k) -> sort_image_files l = l.
Proof.
  intros Hk. apply sorted_id; [apply _|]. by apply (same_key_ascending l k).
Qed.

(** Names without a digit go last, in their input order. *)
Theorem sort_image_files_digitless_last l :
  sort_image_files l
  = sort_image_files (filter (fun f => extract_number f <> KInf) l)
    ++ filter (fun f => extract_number f = KInf) l.
Proof.
  symmetry. apply sort_image_files_unique.
  - apply StronglySorted_app_2; [|apply sort_image_files_ascending|].
    + intros a b Ha Hb. apply (proj1 (elem_of_sorted sort_key_lt extract_number a _)) in Ha.
      apply list_elem_of_filter in Ha as [Ha _], Hb as [Hb _].
      unfold name_le. rewrite Hb. by destruct (extract_number a).
    + apply (same_key_ascending _ KInf). by intros f [? _]%list_elem_of_filter.
  - intros k. rewrite filter_app, sort_image_files_stable, !list_filter_filter.
    destruct k as [n|].
    + rewrite (filter_none (fun f => _ /\ extract_number f = KInf)) by (intros f _ [? ?]; congruence).
      rewrite app_nil_r. apply list_filter_iff. intros f. split; [tauto|].
      intros E. by rewrite E.
    + rewrite (filter_none (fun f => _ /\ extract_number f <> KInf)) by (intros f _ [? ?]; congruence).
      apply list_filter_iff. tauto.
Qed.

End contract.

(** ** Numbered frames *)

(** A listing that is a permutation of an ascending list of distinct keys
    is sorted into that list. *)
Lemma sort_image_files_of_perm (l l' : list str) :
  l ≡ₚ l' -> NoDup (extract_number <$> l') -> StronglySorted name_le l' ->
  sort_image_files l = l'.
Proof.
  intros E Hnd Hs. unfold sort_image_files.
  rewrite (sorted_perm_distinct sort_key_lt extract_number l l' E).
  - by apply sorted_id; [apply _|].
  - intros x y. apply distinct_keys. by rewrite E.
Qed.

(** Names that carry their index as key are ascending in index order, and
    their keys are distinct. *)
Lemma numbered_keys (name : Z -> str) (n : Z) :
  (forall i, 0 <= i < n -> extract_number (name i) = KInt i) ->
  NoDup (extract_number <$> (name <$> range n))
  /\ StronglySorted name_le (name <$> range n).
Proof.
  intros Hkey. split.
  - replace (extract_number <$> (name <$> range n)) with (KInt <$> range n).
    { apply NoDup_fmap_2; [by intros ? ? [= ->] | apply NoDup_range]. }
    rewrite <- list_fmap_compose. apply list_fmap_ext.
    intros _ i Hi%list_elem_of_lookup_2%elem_of_range. symmetry. by apply Hkey.
  - eapply StronglySorted_fmap; [|apply StronglySorted_range].
    intros x y Hxy. simpl in Hxy. unfold name_le.
    rewrite !Hkey by lia. apply Z.ltb_ge. lia.
Qed.

(** C10. Frames named after their index, through any naming scheme whose names
    carry the index as their first digit run, are put in index order
    whatever order the directory lists them in. *)
Theorem sort_image_files_numbered (name : Z -> str) (n : Z) (l : list str) :
  (forall i, 0 <= i < n -> extract_number (name i) = KInt i) ->
  l ≡ₚ name <$> range n ->
  sort_image_files l = name <$> range n.
Proof.
  intros [? ?]%numbered_keys E. by apply sort_image_files_of_perm.
Qed.

Lemma sort_image_files_numbered_witness :
  let name i : str := "frame_" ++ format_0wd 4 i ++ ".png" in
  sort_image_files [name 2; name 0; name 1] = [name 0; name 1; name 2].
Proof.
  intros name. apply (sort_image_files_numbered name 3).
  - intros i ?. by apply extract_number_format; [repeat constructor | | lia].
  - apply (Permutation_cons_append [name 0; name 1]).
Defined.

(** The order is numeric, not lexicographic. *)
Example sort_image_files_numeric :
  sort_image_files ["frame_10.png" : str; "frame_9.png" : str; "frame_100.png" : str]
  = ["frame_9.png" : str; "frame_10.png" : str; "frame_100.png" : str].
Proof. reflexivity. Qed.

(** ** Where the result depends on the directory order *)

(** C34. Two different names with the same key make the result depend on
    the order of the directory listing: listed in the opposite order, the
    names come out in another order.  With the theorem on distinct keys,
    the result is a function of the set of names exactly when no two names
    share a key. *)
Theorem sort_image_files_ties_follow_input (l : list str) (a b : str) :
  NoDup l -> a ∈ l -> b ∈ l -> a <> b -> extract_number a = extract_number b ->
  sort_image_files (reverse l) <> sort_image_files l.
Proof.
  intros Hnd Ha Hb Hab Hk E. apply Hab.
  pose proof (sort_image_files_stable (reverse l) (extract_number a)) as Hs.
  rewrite E, sort_image_files_stable, filter_reverse in Hs.
  apply (NoDup_reverse_eq (filter (fun f => extract_number f = extract_number a) l));
    [by apply NoDup_filter | done | by apply list_elem_of_filter..].
Qed.

Lemma sort_image_files_ties_follow_input_witness :
  sort_image_files (reverse ["frame_01.png" : str; "img_01.png" : str])
  <> sort_image_files ["frame_01.png" : str; "img_01.png" : str].
Proof.
  apply (sort_image_files_ties_follow_input _ "frame_01.png" "img_01.png");
    [apply (bool_decide_unpack _); by vm_compute | in_list | in_list | done | done].
Defined.

(** C35. Only the first digit run of a name is read.  When the names share a
    prefix that holds a digit run of its own ("shot2_010.png",
    "shot2_002.png"), every name gets the key of that run, and the frames
    stay in directory order whatever their frame numbers are. *)
Theorem sort_image_files_shared_prefix (pre ds : str) (c : ascii) (rests : list str) :
  no_digit pre -> ds <> [] -> all_digits ds -> is_digit c = false ->
  sort_image_files ((fun r => pre ++ ds ++ c :: r) <$> rests)
  = (fun r => pre ++ ds ++ c :: r) <$> rests.
Proof.
  intros. apply (sort_image_files_same_key _ (KInt (int_of_digits ds))).
  intros f (r & -> & _)%list_elem_of_fmap.
  rewrite extract_number_run; auto using take_while_stop.
Qed.

Lemma sort_image_files_shared_prefix_witness :
  sort_image_files ["shot2_010.png" : str; "shot2_002.png" : str]
  = ["shot2_010.png" : str; "shot2_002.png" : str].
Proof.
  apply (sort_image_files_shared_prefix "shot" "2" "_"%char
           ["010.png" : str; "002.png" : str]); by repeat constructor.
Defined.

(** ** The contract on concrete names *)

Lemma sort_image_files_contract_witness :
  let l : list str := ["frame_10.png" : str; "frame_9.png" : str] in
  let l' : list str := ["frame_9.png" : str; "frame_10.png" : str] in
  l' = sort_image_files l <->
  StronglySorted name_le l' /\
  forall k, filter (fun f => extract_number f = k) l'
            = filter (fun f => extract_number f = k) l.
Proof. intros l l'. apply (sort_image_files_contract l l'). Defined.

Lemma sort_image_files_order_independent_witness :
  sort_image_files ["b2.png" : str; "a1.png" : str]
  = sort_image_files ["a1.png" : str; "b2.png" : str].
Proof.
  apply (sort_image_files_order_independent ["b2.png" : str; "a1.png" : str]
           ["a1.png" : str; "b2.png" : str]).
  - apply Permutation_swap.
  - apply (bool_decide_unpack _). by vm_compute.
Defined.

Lemma sort_image_files_same_key_witness :
  sort_image_files ["z.png" : str; "a.png" : str] = ["z.png" : str; "a.png" : str].
Proof.
  apply (sort_image_files_same_key ["z.png" : str; "a.png" : str] KInf).
  intros f Hf. repeat (apply elem_of_cons in Hf as [->|Hf]; [done|]).
  by apply elem_of_nil in Hf.
Defined.
