(* ===== verification/Pack.v ===== *)
(** * Pack: the packer, on decoded images

    The part of [pack_spritesheet] (src/flipbook_tool.py, lines 23-58) that
    does not touch the file system: the selection of the image files by
    extension (line 25), the size of the sheet (lines 43-45), the paste
    loop (lines 48-52) and the name of the output file (line 55).
    [pack_images] composes them on a list of decoded frames, in the order
    the handler opens them.

    The position of a frame is computed with [%] and [//], which raise
    ZeroDivisionError for a grid without columns; the loop and the packer
    are fallible for that reason, and the theorems show that the grid of
    the planner never leads there.

    The theorems are proved against the interface [Imaging].  They give
    the colour of every pixel of the sheet, for frames of any size (the
    last frame whose box holds the pixel wins: [painted], a specification
    that mentions neither the loop nor [paste_position]) and for frames
    of one size (the boxes tile the sheet, each pixel comes from exactly
    one frame), and show that the packer cannot raise on well-formed
    frames. *)

From Stdlib Require Import ZArith Lia List Ascii String.
From stdpp Require Import prelude strings.
From S2P Require Import Prelude Python PyString Imaging Grid Order.

(** ** The model *)

(** Line 25: the extensions of the files the packer reads. *)
Definition IMAGE_EXTENSIONS : list str :=
  [".png" : str; ".jpg" : str; ".jpeg" : str; ".bmp" : str; ".gif" : str].

(** Line 25: [f.lower().endswith((...))]. *)
Definition is_image_file (f : str) : bool :=
  endswith_any (lower f) IMAGE_EXTENSIONS.

(** Line 25: the list comprehension over the directory listing. *)
Definition select_image_files (names : list str) : list str :=
  filter (fun f => is_image_file f = true) names.

(** Line 55. *)
Definition output_filename (rows cols : Z) : str :=
  "flipbook_" ++ str_of_int rows ++ "x" ++ str_of_int cols ++ ".tga".

(** Lines 50-51: where the frame number [index] goes.  The remainder and
    the quotient raise ZeroDivisionError for a grid without columns. *)
Definition paste_position (cols frame_width frame_height index : Z) : result (Z * Z) :=
  let* column := pymod index cols in
  let x := column * frame_width in
  let* row := floordiv index cols in
  let y := row * frame_height in
  Ok (x, y).

(** ** The selection of the frame files *)

(** The test ignores the case of the name. *)
Lemma is_image_file_lower (f : str) : is_image_file (lower f) = is_image_file f.
Proof. unfold is_image_file. by rewrite lower_idemp. Qed.

Lemma is_image_file_true (f : str) :
  is_image_file f = true <->
  exists stem ext, lower f = stem ++ ext /\ ext ∈ IMAGE_EXTENSIONS.
Proof.
  unfold is_image_file. rewrite endswith_any_true. split.
  - intros (ext & ? & (stem & ?)%endswith_true). eauto.
  - intros (stem & ext & -> & ?). exists ext. split; [done | apply endswith_app].
Qed.

Lemma select_image_files_elem (names : list str) (f : str) :
  f ∈ select_image_files names <-> f ∈ names /\ is_image_file f = true.
Proof. unfold select_image_files. rewrite list_elem_of_filter. tauto. Qed.

(** A name that ends in ".tga" is not selected. *)
Lemma is_image_file_tga (s : str) : is_image_file (s ++ ".tga") = false.
Proof.
  unfold is_image_file. rewrite lower_app, (lower_literal ".tga") by repeat constructor.
  generalize (lower s). intros t. unfold endswith_any, IMAGE_EXTENSIONS. cbn [existsb].
  rewrite !endswith_longer; try done; try (cbn; lia);
    intros Hs%(bool_decide_pack _); by vm_compute in Hs.
Qed.

(** The sheet the packer writes is not a frame file: packing a folder
    again does not read the sheet of the previous run. *)
Lemma output_filename_not_image (rows cols : Z) :
  is_image_file (output_filename rows cols) = false.
Proof. unfold output_filename. rewrite !app_assoc. apply is_image_file_tga. Qed.

Section packer.
Context `{Imaging}.
Implicit Types (img spritesheet : image) (frames : list image).

(** Lines 49-52: the body of the loop, with the frame already opened. *)
Definition paste_frame (cols frame_width frame_height : Z)
    (spritesheet : image) (entry : Z * image) : result image :=
  let '(index, img) := entry in
  let* (x, y) := paste_position cols frame_width frame_height index in
  Ok (image_paste spritesheet img x y).

(** Lines 48-52: the loop over [enumerate(image_files)]. *)
Definition paste_frames (cols frame_width frame_height : Z)
    (spritesheet : image) (frames : list image) : result image :=
  fold_result (paste_frame cols frame_width frame_height) spritesheet (enumerate frames).

(** Lines 26-52 on decoded frames: [None] is the early return of an empty
    folder, [Some (rows, cols, sheet)] what line 57 saves. *)
Definition pack_images (frames : list image) : result (option (Z * Z * image)) :=
  let num_frames := len frames in
  match frames with
  | [] => Ok None
  | first_image :: _ =>
      let '(frame_width, frame_height) := image_size first_image in
      let* (rows, cols) := calc_grid_size num_frames in
      let spritesheet_width := cols * frame_width in
      let spritesheet_height := rows * frame_height in
      let* spritesheet := Image_new spritesheet_width spritesheet_height in
      let* spritesheet := paste_frames cols frame_width frame_height spritesheet frames in
      Ok (Some (rows, cols, spritesheet))
  end.

(** ** The specification of the paste loop *)

(** The box of the frame [entry] holds the pixel [(x, y)]: the box has its
    upper left corner at column [index mod cols] and row [index / cols] of
    a grid of cells of size [(fw, fh)], and the size of the frame. *)
Definition covers (cols fw fh x y : Z) (entry : Z * image) : Prop :=
  in_box ((entry.1 mod cols) * fw) ((entry.1 / cols) * fh) (image_size entry.2) x y.

#[local] Instance covers_dec cols fw fh x y entry :
  Decision (covers cols fw fh x y entry).
Proof. unfold covers. apply _. Defined.

(** What the sheet shows at [(x, y)], said without the loop: the colour
    of the last frame whose box holds the pixel, read at the offset of the
    pixel in the box; the colour of the canvas when no box holds it. *)
Inductive painted (cols fw fh : Z) (frames : list image) (background : rgba) (x y : Z) :
    rgba -> Prop :=
| painted_frame (i : nat) f :
    frames !! i = Some f -> covers cols fw fh x y (Z.of_nat i, f) ->
    (forall (j : nat) g, (i < j)%nat -> frames !! j = Some g ->
                         ~ covers cols fw fh x y (Z.of_nat j, g)) ->
    painted cols fw fh frames background x y
      (getpixel f (x - (Z.of_nat i mod cols) * fw) (y - (Z.of_nat i / cols) * fh))
| painted_canvas :
    (forall (i : nat) f, frames !! i = Some f -> ~ covers cols fw fh x y (Z.of_nat i, f)) ->
    painted cols fw fh frames background x y background.

(** The same as a function, for any list of numbered frames. *)
Definition sheet_pixel (cols fw fh : Z) (entries : list (Z * image))
    (background : rgba) (x y : Z) : rgba :=
  foldl (fun colour entry =>
           if decide (covers cols fw fh x y entry)
           then getpixel entry.2 (x - (entry.1 mod cols) * fw) (y - (entry.1 / cols) * fh)
           else colour)
        background entries.

(** ** The paste loop *)

Lemma paste_position_ok cols fw fh index :
  cols <> 0 -> paste_position cols fw fh index = Ok ((index mod cols) * fw, (index / cols) * fh).
Proof. intros. unfold paste_position. by rewrite pymod_ok, floordiv_ok. Qed.

Lemma paste_frame_ok cols fw fh spritesheet entry :
  cols <> 0 ->
  paste_frame cols fw fh spritesheet entry
  = Ok (image_paste spritesheet entry.2 ((entry.1 mod cols) * fw) ((entry.1 / cols) * fh)).
Proof. intros. destruct entry as [index img]. simpl. by rewrite paste_position_ok. Qed.

(** In a grid without columns the first frame already raises. *)
Lemma paste_frame_zero fw fh spritesheet entry :
  paste_frame 0 fw fh spritesheet entry = Raise ZeroDivisionError.
Proof. by destruct entry. Qed.

(** One turn of a loop that returned. *)
Lemma paste_entries_inv cols fw fh spritesheet entry (entries : list (Z * image)) sheet :
  fold_result (paste_frame cols fw fh) spritesheet (entry :: entries) = Ok sheet ->
  fold_result (paste_frame cols fw fh)
    (image_paste spritesheet entry.2 ((entry.1 mod cols) * fw) ((entry.1 / cols) * fh))
    entries = Ok sheet.
Proof.
  destruct (decide (cols = 0)) as [->|Hc].
  - by rewrite (fold_result_cons_raise _ _ _ _ _ (paste_frame_zero _ _ _ _)).
  - by rewrite (fold_result_cons_ok _ _ _ _ _ (paste_frame_ok _ _ _ _ _ Hc)).
Qed.

(** With a column to put them in, the frames are all pasted. *)
Lemma paste_entries_ok cols fw fh spritesheet (entries : list (Z * image)) :
  cols <> 0 -> exists sheet, fold_result (paste_frame cols fw fh) spritesheet entries = Ok sheet.
Proof.
  intros Hc. revert spritesheet. induction entries as [|entry entries IH]; intros sheet0.
  - by exists sheet0.
  - rewrite (fold_result_cons_ok _ _ _ _ _ (paste_frame_ok _ _ _ _ _ Hc)). apply IH.
Qed.

Lemma paste_entries_wf cols fw fh spritesheet (entries : list (Z * image)) sheet :
  image_wf spritesheet ->
  fold_result (paste_frame cols fw fh) spritesheet entries = Ok sheet ->
  image_wf sheet /\ image_size sheet = image_size spritesheet.
Proof.
  revert spritesheet. induction entries as [|entry entries IH]; intros sheet0 Hwf.
  - by intros [= <-].
  - intros [? ->]%paste_entries_inv%IH; [|by apply image_paste_wf].
    by rewrite image_size_paste.
Qed.

Lemma getpixel_paste_entries cols fw fh spritesheet (entries : list (Z * image)) sheet x y :
  image_wf spritesheet -> inside (image_size spritesheet) x y ->
  fold_result (paste_frame cols fw fh) spritesheet entries = Ok sheet ->
  getpixel sheet x y = sheet_pixel cols fw fh entries (getpixel spritesheet x y) x y.
Proof.
  revert spritesheet. induction entries as [|entry entries IH]; intros sheet0 Hwf Hin.
  - by intros [= <-].
  - intros E%paste_entries_inv%IH; [|by apply image_paste_wf|by rewrite image_size_paste].
    rewrite E. unfold sheet_pixel at 2. simpl. f_equal. by rewrite getpixel_paste.
Qed.

(** ** The function meets the specification *)

Lemma sheet_pixel_snoc cols fw fh (entries : list (Z * image)) entry background x y :
  sheet_pixel cols fw fh (entries ++ [entry]) background x y
  = if decide (covers cols fw fh x y entry)
    then getpixel entry.2 (x - (entry.1 mod cols) * fw) (y - (entry.1 / cols) * fh)
    else sheet_pixel cols fw fh entries background x y.
Proof. unfold sheet_pixel. by rewrite foldl_app. Qed.

(** A frame added at the end wins where its box is and changes nothing
    elsewhere. *)
Lemma painted_snoc cols fw fh frames f background x y c :
  painted cols fw fh frames background x y c ->
  painted cols fw fh (frames ++ [f]) background x y
    (if decide (covers cols fw fh x y (len frames, f))
     then getpixel f (x - (len frames mod cols) * fw) (y - (len frames / cols) * fh)
     else c).
Proof.
  intros Hc. destruct (decide _) as [Hf|Hf].
  - apply painted_frame; [by apply list_lookup_middle | done |].
    intros j g ? Hj%lookup_lt_Some. rewrite length_app in Hj. simpl in Hj. lia.
  - assert (forall (j : nat) g, (frames ++ [f]) !! j = Some g -> (length frames <= j)%nat ->
                                ~ covers cols fw fh x y (Z.of_nat j, g)) as Hlast.
    { intros j g Hj ?. rewrite lookup_app_r in Hj by done.
      apply list_lookup_singleton_Some in Hj as [? <-].
      by replace j with (length frames) by lia. }
    destruct Hc as [i g Hi Hg Hmax|Hnone].
    + apply painted_frame; [by apply lookup_app_l_Some | done |]. intros j h ? Hj.
      destruct (decide (j < length frames)%nat); [|apply Hlast; [done | lia]].
      rewrite lookup_app_l in Hj by done. by apply Hmax.
    + apply painted_canvas. intros j h Hj.
      destruct (decide (j < length frames)%nat); [|apply Hlast; [done | lia]].
      rewrite lookup_app_l in Hj by done. by apply Hnone.
Qed.

Lemma sheet_pixel_painted cols fw fh frames background x y :
  painted cols fw fh frames background x y
    (sheet_pixel cols fw fh (enumerate frames) background x y).
Proof.
  induction frames as [|f frames IH] using rev_ind.
  - apply painted_canvas. intros i f Hi. by rewrite lookup_nil in Hi.
  - rewrite enumerate_snoc, sheet_pixel_snoc. by apply painted_snoc.
Qed.

(** The specification names one colour. *)
Lemma painted_functional cols fw fh frames background x y c1 c2 :
  painted cols fw fh frames background x y c1 ->
  painted cols fw fh frames background x y c2 -> c1 = c2.
Proof.
  intros [i f Hi Hf Hmax|Hnone] [j g Hj Hg Hmax'|Hnone']; try done;
    [|by destruct (Hnone' i f)|by destruct (Hnone j g)].
  destruct (lt_eq_lt_dec i j) as [[?|<-]|?].
  - by destruct (Hmax j g).
  - by simplify_eq.
  - by destruct (Hmax' i f).
Qed.

(** C20. For frames of any size and a grid of at least one column: the pixel
    [(x, y)] of the sheet has the colour of the last frame whose box holds
    it, where the box of the frame number [i] has the size of the frame
    and its corner at column [i mod cols] and row [i / cols] of the grid
    of [(fw, fh)] cells; a pixel that no box holds stays as the canvas had
    it. *)
Theorem getpixel_paste_frames cols fw fh spritesheet frames sheet x y c :
  image_wf spritesheet -> inside (image_size spritesheet) x y ->
  paste_frames cols fw fh spritesheet frames = Ok sheet ->
  getpixel sheet x y = c
  <-> painted cols fw fh frames (getpixel spritesheet x y) x y c.
Proof.
  intros Hwf Hin Hsheet. rewrite (getpixel_paste_entries _ _ _ _ _ _ _ _ Hwf Hin Hsheet).
  split; [intros <-; apply sheet_pixel_painted|].
  apply painted_functional, sheet_pixel_painted.
Qed.

(** ** Frames of one size *)

(** Every frame is a well-formed image of size [(fw, fh)]. *)
Definition uniform (fw fh : Z) (frames : list image) : Prop :=
  Forall (fun f => image_wf f /\ image_size f = (fw, fh)) frames.

(** The index of the frame whose box holds the pixel [(x, y)]. *)
Definition frame_at (cols fw fh x y : Z) : Z := (y / fh) * cols + x / fw.

Lemma covers_uniform cols fw fh x y i img :
  0 < cols -> 0 < fw -> 0 < fh -> image_size img = (fw, fh) ->
  0 <= i -> 0 <= x < cols * fw -> 0 <= y ->
  covers cols fw fh x y (i, img) <-> i = frame_at cols fw fh x y.
Proof.
  intros ? ? ? Hsz ? ? ?. unfold covers, in_box, inside, frame_at.
  simpl. rewrite Hsz. simpl. rewrite !cell_iff_div by done.
  pose proof (div_lt_cells fw cols x). split.
  - intros [-> ->]. by rewrite Z.mul_comm, Z.add_comm, Z.add_comm, Z.mul_comm, index_join.
  - intros ->. by rewrite index_mod, index_div by lia.
Qed.

Lemma sheet_pixel_uniform cols fw fh frames background x y :
  0 < cols -> 0 < fw -> 0 < fh -> uniform fw fh frames ->
  0 <= x < cols * fw -> 0 <= y ->
  sheet_pixel cols fw fh (enumerate frames) background x y
  = match frames !! Z.to_nat (frame_at cols fw fh x y) with
    | Some f => getpixel f (x mod fw) (y mod fh)
    | None => background
    end.
Proof.
  intros ? ? ? Hu ? ?. set (k := frame_at cols fw fh x y).
  assert (0 <= k).
  { pose proof (Z.div_pos y fh). pose proof (Z.div_pos x fw). unfold k, frame_at. nia. }
  induction frames as [|f frames IH] using rev_ind; [done|].
  apply Forall_app in Hu as [Hu [[_ Hf] _]%Forall_cons].
  rewrite enumerate_snoc, sheet_pixel_snoc, IH by done. clear IH.
  pose proof (len_nonneg frames) as Hlen.
  destruct (decide (covers cols fw fh x y (len frames, f))) as [Hc|Hc];
    rewrite covers_uniform in Hc by done; fold k in Hc; unfold len in *.
  - rewrite lookup_app_r by lia.
    replace (Z.to_nat k - length frames)%nat with 0%nat by lia.
    simpl. rewrite Hc. unfold k, frame_at.
    pose proof (div_lt_cells fw cols x).
    by rewrite index_mod, index_div, !cell_offset by lia.
  - destruct (decide (Z.to_nat k < length frames)%nat).
    + by rewrite lookup_app_l.
    + rewrite !lookup_ge_None_2; [done | |lia].
      rewrite length_app. simpl. lia.
Qed.

(** ** The packer as a whole *)

(** For at least one frame of a size that is not negative, the planner
    returns a grid and the library a blank canvas for it. *)
Lemma canvas_ok (n fw fh : Z) :
  1 <= n -> 0 <= fw -> 0 <= fh ->
  exists rows cols canvas,
    calc_grid_size n = Ok (rows, cols) /\ grid_spec n rows cols
    /\ Image_new (cols * fw) (rows * fh) = Ok canvas
    /\ image_wf canvas /\ image_size canvas = (cols * fw, rows * fh)
    /\ (forall x y, getpixel canvas x y = transparent).
Proof.
  intros Hn ? ?. destruct (calc_grid_size_spec n Hn) as (rows & cols & Hg & Hspec).
  pose proof Hspec as [? ? ? _].
  destruct (Image_new_ok (cols * fw) (rows * fh)) as (canvas & Hnew & ? & ? & ?); [nia..|].
  by exists rows, cols, canvas.
Qed.

Lemma pack_images_cons first rest fw fh :
  image_size first = (fw, fh) -> 0 <= fw -> 0 <= fh ->
  exists rows cols canvas sheet,
    grid_spec (len (first :: rest)) rows cols
    /\ Image_new (cols * fw) (rows * fh) = Ok canvas
    /\ image_wf canvas /\ image_size canvas = (cols * fw, rows * fh)
    /\ (forall x y, getpixel canvas x y = transparent)
    /\ paste_frames cols fw fh canvas (first :: rest) = Ok sheet
    /\ pack_images (first :: rest) = Ok (Some (rows, cols, sheet)).
Proof.
  intros Hsz ? ?. pose proof (len_nonneg rest).
  destruct (canvas_ok (len (first :: rest)) fw fh)
    as (rows & cols & canvas & Hg & Hspec & Hnew & ? & ? & ?); [rewrite len_cons; lia | done..|].
  destruct (paste_entries_ok cols fw fh canvas (enumerate (first :: rest)))
    as [sheet Hsheet]; [destruct Hspec; lia|].
  exists rows, cols, canvas, sheet. do 6 (split; [done|]).
  fold (paste_frames cols fw fh canvas (first :: rest)) in Hsheet.
  unfold pack_images. rewrite Hsz, Hg. cbn [mbind result_bind]. rewrite Hnew.
  cbn [mbind result_bind]. by rewrite Hsheet.
Qed.

(** The steps behind a sheet the packer returned. *)
Lemma pack_images_steps frames rows cols sheet :
  pack_images frames = Ok (Some (rows, cols, sheet)) ->
  exists first rest canvas,
    frames = first :: rest
    /\ calc_grid_size (len frames) = Ok (rows, cols)
    /\ Image_new (cols * image_width first) (rows * image_height first) = Ok canvas
    /\ paste_frames cols (image_width first) (image_height first) canvas frames = Ok sheet.
Proof.
  destruct frames as [|first rest]; [done|]. unfold pack_images, image_width, image_height.
  destruct (image_size first) as [fw fh] eqn:Hsz.
  destruct (calc_grid_size (len (first :: rest))) as [[r c]|]; [simpl|done].
  destruct (Image_new _ _) as [canvas|] eqn:E; [simpl|done].
  destruct (paste_frames _ _ _ _ _) as [pasted|] eqn:Hpasted; [simpl|done]. intros [= -> -> <-].
  exists first, rest, canvas. by rewrite Hsz.
Qed.

(** The grid of the sheet is the one the layout planner returns for the
    number of frames, whatever the sizes of the frames. *)
Lemma pack_images_grid frames rows cols sheet :
  pack_images frames = Ok (Some (rows, cols, sheet)) ->
  1 <= len frames /\ calc_grid_size (len frames) = Ok (rows, cols).
Proof.
  intros (first & rest & canvas & -> & ? & _)%pack_images_steps. split; [|done].
  pose proof (len_nonneg rest). rewrite len_cons. lia.
Qed.

(** On well-formed frames the packer returns, and returns no sheet only
    for the empty list. *)
Lemma pack_images_ok frames :
  Forall image_wf frames ->
  exists r, pack_images frames = Ok r /\ (r = None <-> frames = []).
Proof.
  destruct frames as [|first rest]; [by eexists|]. intros [Hwf _]%Forall_cons.
  destruct (image_size first) as [fw fh] eqn:Hsz.
  apply image_size_nonneg in Hwf. rewrite Hsz in Hwf. simpl in Hwf.
  destruct (pack_images_cons first rest fw fh) as (? & ? & ? & ? & _ & _ & _ & _ & _ & _ & ->);
    [done || lia..|]. by eexists.
Qed.

(** C25. On well-formed frames the packer never raises, whatever their sizes. *)
Theorem pack_images_total frames :
  Forall image_wf frames -> exists r, pack_images frames = Ok r.
Proof. intros (r & ? & _)%pack_images_ok. by exists r. Qed.

Lemma uniform_cons fw fh first rest :
  uniform fw fh (first :: rest) -> image_size first = (fw, fh) /\ 0 <= fw /\ 0 <= fh.
Proof.
  intros [[Hwf Hsz] _]%Forall_cons. apply image_size_nonneg in Hwf.
  rewrite Hsz in Hwf. by split.
Qed.

(** What the packer returned for frames of one size: the grid of the layout
    planner and a sheet whose pixel [(x, y)] is read from the frame number
    [frame_at cols fw fh x y]. *)
Lemma pack_images_inv fw fh frames rows cols sheet :
  uniform fw fh frames ->
  pack_images frames = Ok (Some (rows, cols, sheet)) ->
  grid_spec (len frames) rows cols
  /\ image_wf sheet /\ image_size sheet = (cols * fw, rows * fh)
  /\ forall x y, inside (image_size sheet) x y ->
       getpixel sheet x y
       = match frames !! Z.to_nat (frame_at cols fw fh x y) with
         | Some f => getpixel f (x mod fw) (y mod fh)
         | None => transparent
         end.
Proof.
  destruct frames as [|first rest]; [done|]. intros Hu Hp.
  destruct (uniform_cons _ _ _ _ Hu) as (Hsz & ? & ?).
  destruct (pack_images_cons first rest fw fh)
    as (r & c & canvas & pasted & Hspec & _ & Hcwf & Hcsz & Hblank & Hpasted & E); [done..|].
  rewrite E in Hp. injection Hp as <- <- <-. set (frames := first :: rest) in *.
  destruct (paste_entries_wf _ _ _ _ _ _ Hcwf Hpasted) as [? Hs].
  rewrite Hs, Hcsz. do 3 (split; [done|]).
  intros x y [Hx Hy]. simpl in Hx, Hy. destruct Hspec as [? Hprod ? _].
  assert (0 < fw /\ 0 < fh /\ 0 < c) as (? & ? & ?) by nia.
  rewrite (getpixel_paste_entries _ _ _ _ _ _ x y Hcwf) by (done || by rewrite Hcsz).
  rewrite sheet_pixel_uniform by (done || lia). by rewrite Hblank.
Qed.

(** Frames of one size are always packed into a sheet. *)
Lemma pack_images_uniform_ok fw fh frames :
  frames <> [] -> uniform fw fh frames ->
  exists rows cols sheet, pack_images frames = Ok (Some (rows, cols, sheet)).
Proof.
  destruct frames as [|first rest]; [done|]. intros _ Hu.
  destruct (uniform_cons _ _ _ _ Hu) as (Hsz & ? & ?).
  destruct (pack_images_cons first rest fw fh)
    as (rows & cols & canvas & sheet & _ & _ & _ & _ & _ & _ & E); [done..|]. eauto.
Qed.

(** C2. For a non-empty list of well-formed frames of one size [(fw, fh)], the
    packer returns the grid of the layout planner and a sheet of size
    [(cols * fw, rows * fh)] in which every pixel [(x, y)] comes from
    exactly one frame: the frame number [(y / fh) * cols + x / fw], at the
    offset [(x mod fw, y mod fh)].  No pixel is left blank and no frame
    overwrites another. *)
Theorem pack_images_uniform fw fh frames :
  frames <> [] -> uniform fw fh frames ->
  exists rows cols sheet,
    pack_images frames = Ok (Some (rows, cols, sheet))
    /\ grid_spec (len frames) rows cols
    /\ image_wf sheet /\ image_size sheet = (cols * fw, rows * fh)
    /\ forall x y, inside (image_size sheet) x y ->
         exists f, frames !! Z.to_nat (frame_at cols fw fh x y) = Some f
                   /\ getpixel sheet x y = getpixel f (x mod fw) (y mod fh).
Proof.
  intros Hne Hu.
  destruct (pack_images_uniform_ok fw fh frames Hne Hu) as (rows & cols & sheet & E).
  destruct (pack_images_inv _ _ _ _ _ _ Hu E) as (Hspec & ? & Hssz & Hpix).
  exists rows, cols, sheet. do 4 (split; [done|]).
  intros x y Hin. rewrite Hpix by done. rewrite Hssz in Hin. destruct Hin as [? ?].
  destruct Hspec as [? Hprod ? _]. simpl in *.
  assert (0 < fw /\ 0 < fh /\ 0 < cols) as (? & ? & ?) by nia.
  pose proof (div_lt_cells fw cols x). pose proof (div_lt_cells fh rows y).
  destruct (lookup_lt_is_Some_2 frames (Z.to_nat (frame_at cols fw fh x y)))
    as [f Hf]; [unfold frame_at, len in *; nia|].
  rewrite Hf. eauto.
Qed.

(** The frame number [i] is found in the sheet at its box, unchanged. *)
Lemma pack_images_frame_pixel fw fh frames rows cols sheet i f dx dy :
  uniform fw fh frames ->
  pack_images frames = Ok (Some (rows, cols, sheet)) ->
  frames !! i = Some f -> inside (fw, fh) dx dy ->
  getpixel sheet ((Z.of_nat i mod cols) * fw + dx) ((Z.of_nat i / cols) * fh + dy)
  = getpixel f dx dy.
Proof.
  intros Hu Hp Hi [Hdx Hdy]. simpl in *.
  destruct (pack_images_inv _ _ _ _ _ _ Hu Hp) as (Hspec & _ & Hsz & Hpix).
  apply lookup_lt_Some in Hi as Hlt. destruct Hspec as [? Hprod ? _].
  assert (0 < cols) by lia. unfold len in Hprod.
  pose proof (index_row_bound rows cols (Z.of_nat i)).
  pose proof (index_col_bound cols (Z.of_nat i)).
  rewrite Hpix by (rewrite Hsz; split; simpl; nia).
  unfold frame_at. rewrite !cell_div, index_join, Nat2Z.id, Hi by lia.
  by rewrite !index_mod by lia.
Qed.

(** C21. A sheet the packer returns is a well-formed image of the size of the
    grid in frames of the first frame's size, whatever the other frames
    are. *)
Theorem pack_images_wf first rest rows cols sheet :
  image_wf first -> pack_images (first :: rest) = Ok (Some (rows, cols, sheet)) ->
  image_wf sheet
  /\ image_size sheet = (cols * image_width first, rows * image_height first).
Proof.
  intros [? ?]%image_size_nonneg Hpack.
  destruct (pack_images_cons first rest (image_width first) (image_height first))
    as (r & c & canvas & pasted & _ & _ & Hwf & Hsz & _ & Hpasted & E);
    [unfold image_width, image_height; by destruct (image_size first) | done..|].
  rewrite E in Hpack. injection Hpack as <- <- <-. rewrite <- Hsz.
  by eapply paste_entries_wf.
Qed.

End packer.

(** ** The packer on four frames of one colour each *)

(** The pixel (15, 5) of the sheet of the four frames lies in the box of
    the second frame and of no later one: it is green. *)
Lemma getpixel_paste_frames_witness :
  exists sheet,
    paste_frames 2 10 10 (solid 20 20 transparent) four_frames = Ok sheet
    /\ getpixel sheet 15 5 = green.
Proof.
  eexists. split; [reflexivity|].
  apply (getpixel_paste_frames 2 10 10 (solid 20 20 transparent) four_frames _ 15 5 green);
    [by apply solid_wf | by split | reflexivity |].
  apply (painted_frame 2 10 10 four_frames _ 15 5 1 (solid 10 10 green));
    [done | by repeat split |].
  intros [|[|[|[|j]]]] g ? [= <-]; try lia; unfold covers, in_box, inside; cbn;
    simpl Z.of_nat; zdiv_lia.
Defined.

Lemma pack_images_total_witness : exists r, pack_images four_frames = Ok r.
Proof.
  apply (pack_images_total four_frames).
  eapply Forall_impl; [apply four_frames_wf | by intros f [? _]].
Defined.

Lemma pack_images_uniform_witness :
  exists rows cols sheet,
    pack_images four_frames = Ok (Some (rows, cols, sheet))
    /\ grid_spec (len four_frames) rows cols
    /\ image_wf sheet /\ image_size sheet = (cols * 10, rows * 10)
    /\ forall x y, inside (image_size sheet) x y ->
         exists f, four_frames !! Z.to_nat (frame_at cols 10 10 x y) = Some f
                   /\ getpixel sheet x y = getpixel f (x mod 10) (y mod 10).
Proof. apply (pack_images_uniform 10 10 four_frames); [done | apply four_frames_wf]. Defined.

Lemma four_frames_sheet : exists sheet, pack_images four_frames = Ok (Some (2, 2, sheet)).
Proof. eexists. vm_compute. reflexivity. Qed.

Lemma pack_images_wf_witness :
  exists sheet, pack_images four_frames = Ok (Some (2, 2, sheet))
    /\ image_wf sheet /\ image_size sheet = (2 * 10, 2 * 10).
Proof.
  destruct four_frames_sheet as [sheet E]. exists sheet. split; [done|].
  apply (pack_images_wf (solid 10 10 red) (tail four_frames) 2 2 sheet);
    [by apply solid_wf | done].
Defined.

(** The sheet of the four frames is the 2 by 2 grid, red and green above
    blue and yellow. *)
Example pack_four_frames :
  exists sheet, pack_images four_frames = Ok (Some (2, 2, sheet))
    /\ getpixel sheet 5 5 = red /\ getpixel sheet 15 5 = green
    /\ getpixel sheet 5 15 = blue /\ getpixel sheet 15 15 = yellow.
Proof. eexists. split; [vm_compute; reflexivity|]. by vm_compute. Qed.
