(* ===== verification/Unpack.v ===== *)
(** * Unpack: the unpacker, on decoded images

    The part of [unpack_spritesheet] (src/flipbook_tool.py, lines 60-85)
    that does not touch the file system: the parsing of the dimensions
    argument (line 69), the size of a frame (lines 72-73), the crop box
    and the file name of a frame (lines 78-83) and the two nested loops
    (lines 76-83).  [unpack_images] composes them on a decoded sheet and
    returns the frames in the order the handler saves them, each with its
    file name.

    The theorems are proved against the interface [Imaging]: when the
    unpacker raises and what, how many frames it returns and under which
    names, the size and the colours of each frame, and which pixels of the
    sheet no frame receives. *)

From Stdlib Require Import ZArith Lia List Ascii String.
From stdpp Require Import prelude strings.
From S2P Require Import Prelude Python PyString Imaging Order.

(** ** The model *)

(** Line 69: [rows, cols = map(int, dimensions.split(':'))].  The unpacking
    assignment wants exactly two items, and every failure on the way (a
    piece that is not an integer, too few or too many pieces) is a
    ValueError. *)
Definition parse_dimensions (dimensions : str) : result (Z * Z) :=
  match split_on ":" dimensions with
  | [rows_text; cols_text] =>
      let* rows := int_of_str rows_text in
      let* cols := int_of_str cols_text in
      Ok (rows, cols)
  | _ => Raise ValueError
  end.

(** Lines 78-81: the rectangle of the frame at [(row, col)]. *)
Definition crop_box (frame_width frame_height row col : Z) : Z * Z * Z * Z :=
  let left_ := col * frame_width in
  let upper := row * frame_height in
  let right_ := left_ + frame_width in
  let lower := upper + frame_height in
  (left_, upper, right_, lower).

(** Line 83: [f"frame_{row * cols + col:04d}.png"]. *)
Definition frame_filename (cols row col : Z) : str :=
  "frame_" ++ format_0wd 4 (row * cols + col) ++ ".png".

(** Lines 76-77: the cells the two nested loops visit, in order. *)
Definition grid_cells (rows cols : Z) : list (Z * Z) :=
  row ← range rows; col ← range cols; [(row, col)].

(** ** The dimensions argument *)

(** Whatever is wrong with the argument, the exception is ValueError. *)
Lemma parse_dimensions_raises (dimensions : str) (e : exn) :
  parse_dimensions dimensions = Raise e -> e = ValueError.
Proof.
  unfold parse_dimensions, int_of_str.
  destruct (split_on _ _) as [|a [|b [|c l]]]; try by intros [= <-].
  repeat (case_match; simpl; try done); by intros [= <-].
Qed.

(** The argument the usage message documents, [rows:cols], is read as the
    two integers. *)
Lemma parse_dimensions_ok (rows cols : Z) :
  parse_dimensions (str_of_int rows ++ ":" ++ str_of_int cols) = Ok (rows, cols).
Proof.
  unfold parse_dimensions.
  change (":" ++ str_of_int cols) with (":"%char :: str_of_int cols).
  rewrite split_on_app, split_on_no_sep by by apply str_of_int_no_char.
  by rewrite !int_of_str_str_of_int.
Qed.

Section unpacker.
Context `{Imaging}.
Implicit Types (spritesheet frame : image).

(** Lines 78-83: the body of the inner loop; the frame goes to the file
    of the returned name. *)
Definition extract_frame spritesheet (cols frame_width frame_height : Z)
    (cell : Z * Z) : result (str * image) :=
  let '(row, col) := cell in
  let* frame := image_crop spritesheet (crop_box frame_width frame_height row col) in
  Ok (frame_filename cols row col, frame).

(** Lines 76-83: the two loops. *)
Definition extract_frames spritesheet (rows cols frame_width frame_height : Z)
    : result (list (str * image)) :=
  mapM (extract_frame spritesheet cols frame_width frame_height) (grid_cells rows cols).

(** Lines 72-83 on a decoded sheet. *)
Definition unpack_images spritesheet (rows cols : Z) : result (list (str * image)) :=
  let* frame_width := floordiv (image_width spritesheet) cols in
  let* frame_height := floordiv (image_height spritesheet) rows in
  extract_frames spritesheet rows cols frame_width frame_height.

End unpacker.

(** ** The cells of the grid *)

(** The loops visit the cells in row-major order: the [i]-th cell visited
    is [(i / cols, i mod cols)]. *)
Lemma grid_cells_index (rows cols : Z) :
  0 < cols ->
  grid_cells rows cols = (fun i => (i / cols, i mod cols)) <$> range (rows * cols).
Proof.
  intros Hc. unfold grid_cells.
  destruct (Z.le_gt_cases rows 0) as [|Hr].
  { rewrite (range_nonpos rows), (range_nonpos (rows * cols)) by nia. done. }
  rewrite <- (Z2Nat.id rows) by lia. induction (Z.to_nat rows) as [|r IH]; [done|].
  rewrite Nat2Z.inj_succ, <- Z.add_1_r, range_succ by lia.
  rewrite bind_app, IH. simpl. rewrite app_nil_r.
  replace ((Z.of_nat r + 1) * cols) with (Z.of_nat r * cols + cols) by lia.
  unfold range. rewrite (seqZ_app 0 (Z.of_nat r * cols) cols) by nia.
  rewrite fmap_app. f_equal. rewrite Z.add_0_l.
  replace (Z.of_nat r * cols) with (Z.of_nat r * cols + 0) at 1 by lia.
  rewrite <- fmap_add_seqZ, <- list_fmap_compose.
  rewrite list_bind_singleton. apply list_fmap_ext.
  intros _ col Hcol%list_elem_of_lookup_2%elem_of_seqZ. simpl.
  by rewrite index_div, index_mod by lia.
Qed.

(** The cells the loops visit are those of the grid. *)
Lemma elem_of_grid_cells (rows cols row col : Z) :
  (row, col) ∈ grid_cells rows cols <-> 0 <= row < rows /\ 0 <= col < cols.
Proof.
  unfold grid_cells. rewrite list_elem_of_bind. setoid_rewrite list_elem_of_bind.
  setoid_rewrite list_elem_of_singleton. setoid_rewrite elem_of_range. split.
  - intros (r & (c & [= -> ->] & ?) & ?). done.
  - intros [? ?]. exists row. split; [by exists col | done].
Qed.

Lemma grid_cells_empty (rows cols : Z) :
  rows <= 0 \/ cols <= 0 -> grid_cells rows cols = [].
Proof.
  intros [?|?]; unfold grid_cells.
  - by rewrite (range_nonpos rows).
  - rewrite (range_nonpos cols) by done. by induction (range rows).
Qed.

Lemma length_grid_cells (rows cols : Z) :
  0 <= rows -> 0 <= cols -> length (grid_cells rows cols) = Z.to_nat (rows * cols).
Proof.
  intros. destruct (decide (cols = 0)) as [->|].
  - rewrite grid_cells_empty by lia. simpl. lia.
  - rewrite grid_cells_index by lia. by rewrite length_fmap, length_range.
Qed.

(** ** The file names of the frames *)

(** The name of the frame number [i]. *)
Definition frame_name (i : Z) : str := "frame_" ++ format_0wd 4 i ++ ".png".

Lemma frame_filename_name (cols row col : Z) :
  frame_filename cols row col = frame_name (row * cols + col).
Proof. done. Qed.

Lemma frame_filename_index (cols i : Z) :
  0 < cols -> frame_filename cols (i / cols) (i mod cols) = frame_name i.
Proof. intros. by rewrite frame_filename_name, index_join. Qed.

(** The packer reads the number of a frame back from its name: the key of
    [frame_name i] is [i], beyond four digits too. *)
Lemma extract_number_frame_name (i : Z) :
  0 <= i -> extract_number (frame_name i) = KInt i.
Proof.
  intros. unfold frame_name. by apply extract_number_format; [repeat constructor | |].
Qed.

Lemma frame_name_inj (i j : Z) : 0 <= i -> 0 <= j -> frame_name i = frame_name j -> i = j.
Proof.
  intros ? ? E. apply (f_equal extract_number) in E.
  rewrite !extract_number_frame_name in E by done. by injection E.
Qed.

(** Distinct cells get distinct file names: no frame overwrites another. *)
Lemma NoDup_frame_names (n : Z) : NoDup (frame_name <$> range n).
Proof.
  apply NoDup_fmap_2_strong; [|apply NoDup_range].
  intros i j Hi%elem_of_range Hj%elem_of_range. apply frame_name_inj; lia.
Qed.

Section unpacker_facts.
Context `{Imaging}.
Implicit Types (spritesheet frame : image).

(** [frame] is the part of the sheet in the cell [(row, col)] of a grid of
    cells of size [(fw, fh)]. *)
Record is_frame_of spritesheet (fw fh : Z) (cell : Z * Z) frame : Prop := {
  frame_wf : image_wf frame;
  frame_size : image_size frame = (fw, fh);
  frame_pixels x y :
    inside (fw, fh) x y ->
    getpixel frame x y = getpixel spritesheet (cell.2 * fw + x) (cell.1 * fh + y);
}.

(** [entry] is what the unpacker writes for [cell]: the name of the cell
    and the part of the sheet in it. *)
Definition cut_from spritesheet (cols fw fh : Z) (cell : Z * Z)
    (entry : str * image) : Prop :=
  entry.1 = frame_filename cols cell.1 cell.2
  /\ is_frame_of spritesheet fw fh cell entry.2.

Lemma extract_frame_ok spritesheet cols fw fh cell :
  0 <= fw -> 0 <= fh ->
  exists entry, extract_frame spritesheet cols fw fh cell = Ok entry
    /\ cut_from spritesheet cols fw fh cell entry.
Proof.
  intros. destruct cell as [row col]. unfold extract_frame, crop_box.
  destruct (image_crop_ok spritesheet (col * fw) (row * fh) (col * fw + fw) (row * fh + fh))
    as (frame & -> & ? & Hsz & Hpix); [lia..|].
  replace (col * fw + fw - col * fw) with fw in Hsz by lia.
  replace (row * fh + fh - row * fh) with fh in Hsz by lia.
  eexists. split; [done|]. split; [done|]. split; [done..|].
  intros x y ?. simpl. apply Hpix. by rewrite Hsz.
Qed.

Lemma extract_frames_ok spritesheet rows cols fw fh :
  0 <= fw -> 0 <= fh ->
  exists frames, extract_frames spritesheet rows cols fw fh = Ok frames
    /\ Forall2 (cut_from spritesheet cols fw fh) (grid_cells rows cols) frames.
Proof.
  intros. apply mapM_result_Forall2. intros cell _. by apply extract_frame_ok.
Qed.

(** For positive dimensions the unpacker cuts one frame per cell of the
    grid, in the order of the cells. *)
Lemma unpack_images_cells spritesheet rows cols :
  0 < rows -> 0 < cols -> image_wf spritesheet ->
  exists frames,
    unpack_images spritesheet rows cols = Ok frames
    /\ Forall2 (cut_from spritesheet cols (image_width spritesheet / cols)
                  (image_height spritesheet / rows))
               (grid_cells rows cols) frames.
Proof.
  intros ? ? [? ?]%image_size_nonneg. unfold unpack_images.
  rewrite !floordiv_ok by lia. simpl. by apply extract_frames_ok; apply Z.div_pos.
Qed.

(** The frame of the cell number [i] is the entry number [i], under the
    name [frame_name i]. *)
Lemma cut_from_lookup spritesheet rows cols fw fh (frames : list (str * image)) i :
  0 < cols -> 0 <= i < rows * cols ->
  Forall2 (cut_from spritesheet cols fw fh) (grid_cells rows cols) frames ->
  exists frame, frames !! Z.to_nat i = Some (frame_name i, frame)
    /\ is_frame_of spritesheet fw fh (i / cols, i mod cols) frame.
Proof.
  intros ? Hi Hall. apply Forall2_length in Hall as Hlen.
  rewrite length_grid_cells in Hlen by nia.
  rewrite grid_cells_index in Hall by done.
  destruct (lookup_lt_is_Some_2 frames (Z.to_nat i)) as [[name frame] Hf]; [lia|].
  eapply Forall2_lookup_lr in Hall as [Hname ?]; [| |exact Hf].
  2: { rewrite list_lookup_fmap. unfold range. rewrite lookup_seqZ_lt by lia. done. }
  simpl in *. rewrite Z.add_0_l, Z2Nat.id, frame_filename_index in * by lia.
  subst name. eauto.
Qed.

(** The steps behind the frames the unpacker returned. *)
Lemma unpack_images_steps spritesheet rows cols named :
  unpack_images spritesheet rows cols = Ok named ->
  exists fw fh,
    floordiv (image_width spritesheet) cols = Ok fw
    /\ floordiv (image_height spritesheet) rows = Ok fh
    /\ extract_frames spritesheet rows cols fw fh = Ok named.
Proof.
  unfold unpack_images. destruct (floordiv _ cols) as [fw|]; [simpl|done].
  destruct (floordiv _ rows) as [fh|]; [simpl|done]. eauto.
Qed.

(** The names of the frames a run returned: consecutive numbers from 0. *)
Lemma unpack_images_fst spritesheet rows cols named :
  0 < cols -> unpack_images spritesheet rows cols = Ok named ->
  named.*1 = frame_name <$> range (rows * cols).
Proof.
  intros ? (fw & fh & _ & _ & Hall)%unpack_images_steps. unfold extract_frames in Hall.
  rewrite grid_cells_index in Hall by done.
  apply (mapM_result_fmap _ fst (fun cell => frame_filename cols cell.1 cell.2)) in Hall.
  - rewrite Hall, <- list_fmap_compose. apply list_fmap_ext. intros _ i _. simpl.
    by apply frame_filename_index.
  - intros [row col] entry. unfold extract_frame.
    destruct (image_crop _ _); [|done]. by intros [= <-].
Qed.

(** With dimensions that are not zero the unpacker returns. *)
Lemma unpack_images_nonzero spritesheet rows cols :
  image_wf spritesheet -> rows <> 0 -> cols <> 0 ->
  exists frames, unpack_images spritesheet rows cols = Ok frames.
Proof.
  intros [? ?]%image_size_nonneg ? ?. unfold unpack_images, image_width, image_height.
  rewrite !floordiv_ok by done. simpl.
  destruct (decide (0 < rows /\ 0 < cols)) as [[? ?]|].
  - destruct (extract_frames_ok spritesheet rows cols
                ((image_size spritesheet).1 / cols) ((image_size spritesheet).2 / rows))
      as (frames & -> & _); [by apply Z.div_pos..|]. eauto.
  - unfold extract_frames. rewrite grid_cells_empty by lia. by eexists.
Qed.

(** With a dimension that is zero the division raises. *)
Lemma unpack_images_zero spritesheet rows cols :
  cols = 0 \/ rows = 0 -> unpack_images spritesheet rows cols = Raise ZeroDivisionError.
Proof.
  intros Hz. unfold unpack_images. destruct (decide (cols = 0)) as [->|]; [done|].
  rewrite (floordiv_ok _ cols) by done. by destruct Hz as [? | ->].
Qed.

Lemma unpack_images_raise_inv spritesheet rows cols e :
  image_wf spritesheet -> unpack_images spritesheet rows cols = Raise e ->
  (cols = 0 \/ rows = 0) /\ e = ZeroDivisionError.
Proof.
  intros Hwf E. destruct (decide (cols = 0 \/ rows = 0)) as [Hz|Hnz].
  - rewrite unpack_images_zero in E by done. by injection E as <-.
  - destruct (unpack_images_nonzero spritesheet rows cols) as [frames E']; [done | lia..|].
    congruence.
Qed.

(** C17. The unpacker raises exactly when a dimension is zero, and then
    ZeroDivisionError; the crops themselves never fail. *)
Theorem unpack_images_raises spritesheet rows cols e :
  image_wf spritesheet ->
  unpack_images spritesheet rows cols = Raise e
  <-> (cols = 0 \/ rows = 0) /\ e = ZeroDivisionError.
Proof.
  intros Hwf. split; [by apply unpack_images_raise_inv|].
  intros [Hz ->]. by apply unpack_images_zero.
Qed.

(** C4. For positive dimensions the unpacker returns rows * cols frames.  The
    frame number [i] is named [frame_name i], has the size
    [(width // cols, height // rows)] and holds the pixels of the cell
    [(i // cols, i % cols)] of the sheet. *)
Theorem unpack_images_frames spritesheet rows cols :
  0 < rows -> 0 < cols -> image_wf spritesheet ->
  exists frames,
    unpack_images spritesheet rows cols = Ok frames
    /\ length frames = Z.to_nat (rows * cols)
    /\ forall i, 0 <= i < rows * cols ->
         exists frame, frames !! Z.to_nat i = Some (frame_name i, frame)
           /\ is_frame_of spritesheet (image_width spritesheet / cols)
                (image_height spritesheet / rows) (i / cols, i mod cols) frame.
Proof.
  intros ? ? Hwf.
  destruct (unpack_images_cells spritesheet rows cols) as (frames & -> & Hall); [done..|].
  exists frames. split; [done|]. split.
  - apply Forall2_length in Hall. by rewrite length_grid_cells in Hall by lia.
  - intros i Hi. by apply (cut_from_lookup spritesheet rows).
Qed.

(** C36. A negative dimension yields no frame at all, and no error. *)
Theorem unpack_images_negative spritesheet rows cols :
  rows <> 0 -> cols <> 0 -> rows < 0 \/ cols < 0 ->
  unpack_images spritesheet rows cols = Ok [].
Proof.
  intros. unfold unpack_images. rewrite !floordiv_ok by done. simpl.
  unfold extract_frames. by rewrite grid_cells_empty by lia.
Qed.

(** The names of the frames, in the order they are written: consecutive
    numbers from 0 in row-major order, all distinct, so that each frame
    goes to a file of its own. *)
Theorem unpack_images_names spritesheet rows cols :
  0 < rows -> 0 < cols -> image_wf spritesheet ->
  exists frames, unpack_images spritesheet rows cols = Ok frames
    /\ frames.*1 = frame_name <$> range (rows * cols) /\ NoDup frames.*1.
Proof.
  intros ? ? Hwf.
  destruct (unpack_images_cells spritesheet rows cols) as (frames & Hrun & _); [done..|].
  exists frames. split; [done|]. rewrite (unpack_images_fst _ _ _ _ ltac:(done) Hrun).
  split; [done | apply NoDup_frame_names].
Qed.

End unpacker_facts.

(** C22. Every box the loops crop lies inside the sheet, and inside the part of
    it that the grid covers: with a width that is not a multiple of
    [cols] the last [width % cols] columns belong to no frame, and so for
    the rows. *)
Theorem crop_box_in_sheet (width height rows cols row col : Z) :
  0 <= width -> 0 <= height -> 0 <= row < rows -> 0 <= col < cols ->
  let '(left_, upper, right_, lower) := crop_box (width / cols) (height / rows) row col in
  0 <= left_ <= right_ /\ right_ <= width - width mod cols
  /\ 0 <= upper <= lower /\ lower <= height - height mod rows.
Proof.
  intros. unfold crop_box.
  pose proof (Z.div_pos width cols). pose proof (Z.div_pos height rows).
  pose proof (Z.div_mod width cols). pose proof (Z.div_mod height rows).
  repeat split; nia.
Qed.

(** ** The unpacker on concrete sheets *)

Lemma crop_box_in_sheet_witness :
  let '(left_, upper, right_, lower) := crop_box (7 / 3) (5 / 2) 1 2 in
  0 <= left_ <= right_ /\ right_ <= 7 - 7 mod 3 /\ 0 <= upper <= lower /\ lower <= 5 - 5 mod 2.
Proof. apply (crop_box_in_sheet 7 5 2 3 1 2); lia. Defined.

Lemma unpack_images_raises_witness :
  unpack_images (gradient 6 4) 2 0 = Raise ZeroDivisionError
  <-> (0 = 0 \/ 2 = 0) /\ ZeroDivisionError = ZeroDivisionError.
Proof. apply (unpack_images_raises (gradient 6 4) 2 0). by apply gradient_wf. Defined.

Lemma unpack_images_frames_witness :
  exists frames,
    unpack_images (gradient 6 4) 2 3 = Ok frames
    /\ length frames = Z.to_nat (2 * 3)
    /\ forall i, 0 <= i < 2 * 3 ->
         exists frame, frames !! Z.to_nat i = Some (frame_name i, frame)
           /\ is_frame_of (gradient 6 4) (image_width (gradient 6 4) / 3)
                (image_height (gradient 6 4) / 2) (i / 3, i mod 3) frame.
Proof.
  apply (unpack_images_frames (gradient 6 4) 2 3); [lia | lia | by apply gradient_wf].
Defined.

Lemma unpack_images_negative_witness : unpack_images (gradient 6 4) (-2) 3 = Ok [].
Proof. apply (unpack_images_negative (gradient 6 4) (-2) 3); lia. Defined.

Lemma unpack_images_names_witness :
  exists frames, unpack_images (gradient 6 4) 2 3 = Ok frames
    /\ frames.*1 = frame_name <$> range (2 * 3) /\ NoDup frames.*1.
Proof.
  apply (unpack_images_names (gradient 6 4) 2 3); [lia | lia | by apply gradient_wf].
Defined.

(** The frame at row 1, column 2 of a 2 by 3 grid is the frame number 5;
    its top-left pixel is the pixel (4, 2) of the sheet. *)
Example unpack_gradient :
  exists frames frame,
    unpack_images (gradient 6 4) 2 3 = Ok frames
    /\ frames !! 5%nat = Some ("frame_0005.png" : str, frame)
    /\ image_size frame = (2, 2) /\ getpixel frame 0 0 = RGBA 4 2 0 255.
Proof. do 2 eexists. split; [by vm_compute|]. by vm_compute. Qed.

(** C37. The width is divided by the number of columns and the height by the
    number of rows: a sheet of 300 by 200 pixels unpacked with the
    argument "3:2" (three rows, two columns) gives frames of 150 by 66
    pixels, and the last two rows of pixels of the sheet are in no frame. *)
Theorem unpack_300x200_as_3_rows_2_cols (sheet : @image list_imaging) :
  image_wf sheet -> image_size sheet = (300, 200) ->
  parse_dimensions "3:2" = Ok (3, 2)
  /\ exists frames, unpack_images sheet 3 2 = Ok frames
       /\ length frames = 6%nat
       /\ Forall (fun entry => image_size entry.2 = (150, 66)) frames.
Proof.
  intros Hwf Hsz. split; [done|].
  destruct (unpack_images_cells sheet 3 2) as (frames & -> & Hall); [lia | lia | done|].
  exists frames. split; [done|]. split; [by apply Forall2_length in Hall|].
  apply Forall2_Forall_r with (1 := Hall), Forall_forall.
  intros cell _ entry [_ [_ Hfsz _]].
  unfold image_width, image_height in Hfsz. by rewrite Hsz in Hfsz.
Qed.

Lemma unpack_300x200_as_3_rows_2_cols_witness :
  parse_dimensions "3:2" = Ok (3, 2)
  /\ exists frames, unpack_images (solid 300 200 red) 3 2 = Ok frames
       /\ length frames = 6%nat
       /\ Forall (fun entry => image_size entry.2 = (150, 66)) frames.
Proof.
  apply (unpack_300x200_as_3_rows_2_cols (solid 300 200 red)); [by apply solid_wf | done].
Defined.
