(* ===== verification/RoundTrip.v ===== *)
(** * RoundTrip: the packer and the unpacker invert each other

    Packing frames of one size and unpacking the sheet with the grid the
    packer chose returns the frames, under the names [frame_0000.png],
    [frame_0001.png], ... in their packing order.  Unpacking a sheet and
    packing the frames returns the sheet when the sheet divides evenly and
    its grid is the one the layout planner would choose; for any other
    grid the packer lays the frames out differently.  The names the
    unpacker writes are image files for the packer, and the frame orderer
    puts them back in the order they were cut, whatever order the
    directory lists them in. *)

From Stdlib Require Import ZArith Lia List Ascii String.
From stdpp Require Import prelude strings.
From S2P Require Import Prelude Python PyString Imaging Grid Order Pack Unpack.

Section round_trip.
Context `{Imaging}.
Implicit Types (sheet frame : image) (frames : list image).

(** ** Pack, then unpack *)

(** The tool run forwards and then backwards on the images themselves: the
    packer on the frames, then the unpacker on the sheet it produced with
    the rows and columns of the name it produced ([flipbook_RxC.tga]
    unpacked with the argument [R:C]).  An empty folder packs to nothing,
    and nothing is unpacked. *)
Definition pack_then_unpack (frames : list image) : result (list (str * image)) :=
  let* packed := pack_images frames in
  match packed with
  | None => Ok []
  | Some (rows, cols, sheet) => unpack_images sheet rows cols
  end.

(** The frames cut out of a packed sheet are the frames that were packed. *)
Lemma unpack_packed fw fh frames rows cols sheet :
  uniform fw fh frames ->
  pack_images frames = Ok (Some (rows, cols, sheet)) ->
  unpack_images sheet rows cols
  = Ok (zip (frame_name <$> range (len frames)) frames).
Proof.
  intros Hu Hp.
  destruct (pack_images_inv _ _ _ _ _ _ Hu Hp) as ([? Hprod ? _] & Hwf & Hsz & _).
  assert (0 < cols) by lia.
  destruct (unpack_images_cells sheet rows cols) as (named & -> & Hall); [lia | done..|].
  apply Forall2_length in Hall as Hlen. rewrite length_grid_cells, Hprod in Hlen by lia.
  unfold len in *. rewrite Nat2Z.id in Hlen. f_equal.
  apply list_eq_same_length with (length frames);
    [rewrite length_zip_with, length_fmap, length_range; lia | done |].
  intros i [n1 f1] [n2 f2] Hlt Hn1 Hn2.
  destruct (cut_from_lookup _ rows _ _ _ _ (Z.of_nat i) ltac:(done) ltac:(lia) Hall)
    as (frame & Hf & [Hfwf Hfsz Hfpix]).
  rewrite Nat2Z.id, Hn1 in Hf. injection Hf as -> ->.
  apply lookup_zip_with_Some in Hn2 as (n & f & [= <- <-] & Hn & Hf2).
  rewrite list_lookup_fmap in Hn. unfold range in Hn. rewrite lookup_seqZ_lt in Hn by lia.
  injection Hn as <-. rewrite Z.add_0_l. f_equal.
  unfold image_width, image_height in *. rewrite Hsz in *. simpl in *.
  rewrite (Z.mul_comm cols), (Z.mul_comm rows), !Z.div_mul in * by lia.
  destruct (proj1 (Forall_forall _ _) Hu f2) as [? ?]; [by eapply list_elem_of_lookup_2|].
  apply image_ext; [done | done | congruence|].
  intros x y Hin. rewrite Hfsz in Hin. rewrite Hfpix by done.
  by apply (pack_images_frame_pixel fw fh frames rows cols sheet).
Qed.

(** C1. Unpacking what the packer wrote, with the grid in the name of the file
    it wrote, returns every frame unchanged and in order, under the names
    [frame_0000.png], [frame_0001.png], ... *)
Theorem unpack_pack fw fh frames :
  uniform fw fh frames ->
  pack_then_unpack frames = Ok (zip (frame_name <$> range (len frames)) frames).
Proof.
  intros Hu. destruct frames as [|first rest] eqn:Ef; [done|]. rewrite <- Ef in *.
  destruct (pack_images_uniform_ok fw fh frames) as (rows & cols & sheet & E);
    [by rewrite Ef | done|].
  unfold pack_then_unpack. rewrite E. simpl. by apply (unpack_packed fw fh).
Qed.

(** ** Unpack, then pack *)

(** The frames the unpacker cut from a sheet whose size is a multiple of
    the grid have one size. *)
Lemma unpacked_uniform sheet rows cols fw fh (named : list (str * image)) :
  0 < rows -> 0 < cols -> image_size sheet = (cols * fw, rows * fh) ->
  Forall2 (cut_from sheet cols (image_width sheet / cols) (image_height sheet / rows))
          (grid_cells rows cols) named ->
  uniform fw fh named.*2.
Proof.
  intros ? ? Hsz Hall. unfold image_width, image_height in Hall. rewrite Hsz in Hall.
  simpl in Hall. rewrite (Z.mul_comm cols), (Z.mul_comm rows), !Z.div_mul in Hall by lia.
  apply Forall_fmap, (Forall2_Forall_r _ _ _ _ Hall), Forall_forall.
  by intros cell _ entry [_ [? ? _]].
Qed.

(** A pixel of the sheet is found again in the frame of its cell. *)
Lemma unpacked_pixel sheet rows cols fw fh (named : list (str * image)) x y :
  image_size sheet = (cols * fw, rows * fh) -> inside (image_size sheet) x y ->
  0 < cols -> 0 < rows ->
  Forall2 (cut_from sheet cols fw fh) (grid_cells rows cols) named ->
  exists frame, named.*2 !! Z.to_nat (frame_at cols fw fh x y) = Some frame
    /\ getpixel frame (x mod fw) (y mod fh) = getpixel sheet x y.
Proof.
  intros Hsz Hin ? ? Hall. rewrite Hsz in Hin. destruct Hin as [? ?]. simpl in *.
  assert (0 < fw /\ 0 < fh) as [? ?] by nia.
  pose proof (div_lt_cells fw cols x ltac:(done) ltac:(lia)).
  pose proof (div_lt_cells fh rows y ltac:(done) ltac:(lia)).
  destruct (cut_from_lookup sheet rows cols fw fh named (frame_at cols fw fh x y) ltac:(done)
              ltac:(unfold frame_at; nia) Hall) as (frame & Hf & [_ _ Hpix]).
  exists frame. rewrite list_lookup_fmap, Hf. split; [done|].
  rewrite Hpix by (split; simpl; zdiv_lia). simpl. unfold frame_at.
  by rewrite index_mod, index_div, !index_join by lia.
Qed.

(** The tool run backwards and then forwards: the unpacker on a sheet,
    then the packer on the frames it cut, in the order of their names. *)
Definition unpack_then_pack sheet (rows cols : Z) : result (option (Z * Z * image)) :=
  let* named := unpack_images sheet rows cols in
  pack_images named.*2.

(** C11. Packing the frames cut from a sheet gives the sheet back, when the
    sheet divides evenly into the cells and its grid is the one the layout
    planner chooses for that many frames. *)
Theorem pack_unpack sheet rows cols fw fh :
  image_wf sheet -> image_size sheet = (cols * fw, rows * fh) ->
  calc_grid_size (rows * cols) = Ok (rows, cols) -> 1 <= rows * cols ->
  unpack_then_pack sheet rows cols = Ok (Some (rows, cols, sheet)).
Proof.
  intros Hwf Hsz Hgrid Hn. apply calc_grid_size_sound in Hgrid as Hspec; [|done].
  pose proof Hspec as [? _ ? _]. assert (0 < cols) by lia.
  destruct (unpack_images_cells sheet rows cols) as (named & E & Hall); [lia | done..|].
  unfold unpack_then_pack. rewrite E. simpl.
  pose proof (unpacked_uniform sheet rows cols fw fh _ ltac:(lia) ltac:(done) Hsz Hall) as Hu.
  apply Forall2_length in Hall as Hlen. rewrite length_grid_cells in Hlen by lia.
  destruct (pack_images_uniform_ok fw fh named.*2) as (r & c & s & Hp);
    [intros Hnil%(f_equal length); rewrite length_fmap in Hnil; simpl in Hnil; lia | done|].
  destruct (pack_images_inv _ _ _ _ _ _ Hu Hp) as (Hspec' & ? & Hssz & Hpix).
  replace (len named.*2) with (rows * cols) in Hspec'
    by (unfold len; rewrite length_fmap; lia).
  destruct (grid_spec_unique _ _ _ _ _ Hspec' Hspec) as [-> ->].
  rewrite Hp. do 3 f_equal. apply image_ext; [done | done | congruence|].
  intros x y Hin. rewrite Hpix by done. rewrite Hssz, <- Hsz in Hin.
  unfold image_width, image_height in Hall. rewrite Hsz in Hall. simpl in Hall.
  rewrite (Z.mul_comm cols), (Z.mul_comm rows), !Z.div_mul in Hall by lia.
  by destruct (unpacked_pixel sheet rows cols fw fh _ x y Hsz Hin ltac:(done) ltac:(lia) Hall)
    as (frame & -> & ?).
Qed.

(** C38. The packer lays every sequence of frames out in landscape: after
    unpacking with more rows than columns, packing cannot give the sheet
    back, since it does not even give the grid back. *)
Theorem pack_unpack_portrait sheet rows cols :
  cols < rows -> unpack_then_pack sheet rows cols <> Ok (Some (rows, cols, sheet)).
Proof.
  intros Hlt. unfold unpack_then_pack.
  destruct (unpack_images sheet rows cols) as [named|]; [simpl|done].
  intros [_ ?]%pack_images_grid%calc_grid_size_landscape. lia.
Qed.

End round_trip.

(** ** The names the unpacker writes, read back by the packer *)

Lemma is_image_file_frame_name (i : Z) : is_image_file (frame_name i) = true.
Proof.
  apply is_image_file_true. unfold frame_name.
  exists (lower ("frame_" ++ format_0wd 4 i)), (".png" : str).
  split; [|repeat constructor].
  by rewrite app_assoc, lower_app, (lower_literal ".png") by repeat constructor.
Qed.

(** C26. The packer selects every frame the unpacker wrote and orders them by
    their cell number, whatever order the directory lists them in. *)
Theorem unpacked_names_repacked (n : Z) (listing : list str) :
  listing ≡ₚ frame_name <$> range n ->
  sort_image_files (select_image_files listing) = frame_name <$> range n.
Proof.
  intros E. unfold select_image_files. rewrite filter_all.
  - destruct (numbered_keys frame_name n) as [? ?];
      [intros i ?; apply extract_number_frame_name; lia|].
    by apply sort_image_files_of_perm.
  - intros f (i & -> & _)%(elem_of_Permutation_proper _ _ _ E)%list_elem_of_fmap.
    apply is_image_file_frame_name.
Qed.

(** ** The round trip on four frames of one colour each *)

Lemma unpack_pack_witness :
  pack_then_unpack four_frames
  = Ok (zip (frame_name <$> range (len four_frames)) four_frames).
Proof. apply (unpack_pack 10 10 four_frames). apply four_frames_wf. Defined.

(** ** The two round trips on a sheet of 6 by 4 pixels *)

Lemma pack_unpack_witness :
  unpack_then_pack (gradient 6 4) 2 3 = Ok (Some (2, 3, gradient 6 4)).
Proof.
  apply (pack_unpack (gradient 6 4) 2 3 2 2); [by apply gradient_wf | done | done | lia].
Defined.

Lemma pack_unpack_portrait_witness :
  unpack_then_pack (gradient 4 6) 3 2 <> Ok (Some (3, 2, gradient 4 6)).
Proof. apply (pack_unpack_portrait (gradient 4 6) 3 2). lia. Defined.

(** Unpacked as three rows of two and packed again, the sheet comes back
    as two rows of three. *)
Example unpack_then_pack_portrait :
  exists sheet, unpack_then_pack (gradient 4 6) 3 2 = Ok (Some (2, 3, sheet))
                /\ image_size sheet = (6, 4).
Proof. eexists. split; [by vm_compute | by vm_compute]. Qed.

Lemma unpacked_names_repacked_witness :
  sort_image_files (select_image_files [frame_name 2; frame_name 0; frame_name 1])
  = frame_name <$> range 3.
Proof.
  apply (unpacked_names_repacked 3).
  apply (Permutation_cons_append [frame_name 0; frame_name 1]).
Defined.
