(* ===== verification/Handlers.v ===== *)
(** * Handlers: the packer and the unpacker on the file system

    [pack_spritesheet] (src/flipbook_tool.py, lines 23-58) and
    [unpack_spritesheet] (lines 60-85) as they are written: computations
    over the [world] that list a folder, open, create and save files and
    print, in the order of the source, so that an exception leaves the
    world as the calls before it made it. *)

From Stdlib Require Import ZArith Lia List Ascii String.
From stdpp Require Import prelude strings gmap.
From S2P Require Import Prelude Python PyString PyPath PySorted Imaging IO World.
From S2P Require Import Grid Order Pack Unpack.

Section handlers.
Context `{Imaging}.

(** ** The packer *)

(** Line 29. *)
Definition NO_IMAGES_FOUND : str := "No images found in the specified folder.".

(** Line 58. *)
Definition spritesheet_created (output_path : str) : str :=
  "Spritesheet created at: " ++ output_path.

(** Lines 49-52: one iteration of the paste loop, which opens the file. *)
Definition paste_file (folder_path : str) (cols frame_width frame_height : Z)
    (spritesheet : image) (entry : Z * str) : io world image :=
  let* img := Image_open (join folder_path entry.2) in
  lift (paste_frame cols frame_width frame_height spritesheet (entry.1, img)).

(** Lines 23-58. *)
Definition pack_spritesheet (folder_path : str) : io world unit :=
  let* listing := listdir folder_path in
  let image_files := select_image_files listing in
  let num_frames := len image_files in
  if num_frames =? 0 then print NO_IMAGES_FOUND
  else
    let image_files := sort_image_files image_files in
    let* first_file := lift (getitem image_files 0) in
    let* first_image := Image_open (join folder_path first_file) in
    let* (rows, cols) := lift (calc_grid_size num_frames) in
    let frame_width := image_width first_image in
    let frame_height := image_height first_image in
    let spritesheet_width := cols * frame_width in
    let spritesheet_height := rows * frame_height in
    let* spritesheet := lift (Image_new spritesheet_width spritesheet_height) in
    let* spritesheet :=
      foldM (paste_file folder_path cols frame_width frame_height)
            spritesheet (enumerate image_files) in
    let output_path := join folder_path (output_filename rows cols) in
    let* _ := image_save spritesheet output_path in
    print (spritesheet_created output_path).

(** ** The unpacker *)

(** Line 62. *)
Definition output_folder_of (image_path : str) : str :=
  (splitext (basename image_path)).1.

(** Line 85. *)
Definition unpacked_message (rows cols : Z) (output_folder : str) : str :=
  "Unpacked " ++ str_of_int (rows * cols) ++ " frames into folder: " ++ output_folder.

(** Lines 78-83: one iteration of the inner loop. *)
Definition save_frame (output_folder : str) (spritesheet : image)
    (cols frame_width frame_height : Z) (cell : Z * Z) : io world unit :=
  let* entry := lift (extract_frame spritesheet cols frame_width frame_height cell) in
  image_save entry.2 (join output_folder entry.1).

(** Lines 60-85. *)
Definition unpack_spritesheet (image_path dimensions : str) : io world unit :=
  let output_folder := output_folder_of image_path in
  let* _ := makedirs output_folder in
  let* spritesheet := Image_open image_path in
  let* (rows, cols) := lift (parse_dimensions dimensions) in
  let* frame_width := lift (floordiv (image_width spritesheet) cols) in
  let* frame_height := lift (floordiv (image_height spritesheet) rows) in
  let* _ :=
    forM_ (save_frame output_folder spritesheet cols frame_width frame_height)
          (grid_cells rows cols) in
  print (unpacked_message rows cols output_folder).

End handlers.

(** ** The invariant of the file system is kept *)

Section handlers_invariant.
Context `{Imaging}.

Lemma paste_frame_wf cols fw fh (spritesheet : image) (entry : Z * image) sheet :
  image_wf spritesheet -> paste_frame cols fw fh spritesheet entry = Ok sheet -> image_wf sheet.
Proof.
  intros Hwf E. apply (paste_entries_wf cols fw fh spritesheet [entry]); [done|].
  by rewrite (fold_result_cons_ok _ _ _ _ _ E).
Qed.

Lemma paste_file_wf folder_path cols fw fh (spritesheet : image) (entry : Z * str) :
  image_wf spritesheet ->
  keeps world_wf (paste_file folder_path cols fw fh spritesheet entry) image_wf.
Proof.
  intros. eapply keeps_bind; [apply Image_open_wf|]. intros img _.
  apply keeps_lift. intros sheet. by apply paste_frame_wf.
Qed.

(** The packer keeps the file system well formed, whether it returns or
    raises. *)
Theorem pack_spritesheet_wf (folder_path : str) :
  keeps world_wf (pack_spritesheet folder_path) (fun _ => True).
Proof.
  unfold pack_spritesheet.
  eapply keeps_bind; [apply listdir_wf|]. intros listing _.
  destruct (_ =? 0); [apply print_wf|].
  keeps_pure. intros first_file _.
  eapply keeps_bind; [apply Image_open_wf|]. intros first_image _.
  keeps_pure. intros [rows cols] _.
  eapply keeps_bind; [apply (keeps_lift _ _ image_wf), Image_new_wf|]. intros canvas ?.
  eapply keeps_bind; [apply (keeps_foldM _ image_wf); [done | apply paste_file_wf]|].
  intros spritesheet ?.
  eapply keeps_bind; [by apply image_save_wf|]. intros _ _. apply print_wf.
Qed.

Lemma save_frame_wf output_folder (spritesheet : image) cols fw fh (cell : Z * Z) :
  keeps world_wf (save_frame output_folder spritesheet cols fw fh cell) (fun _ => True).
Proof.
  eapply keeps_bind; [apply (keeps_lift _ _ (fun entry => image_wf entry.2))|].
  - intros [name frame]. unfold extract_frame. destruct cell as [row col].
    destruct (image_crop _ _) as [c|] eqn:E; [|done]. intros [= _ <-].
    by eapply image_crop_wf.
  - intros entry ?. by apply image_save_wf.
Qed.

(** The unpacker keeps the file system well formed, whether it returns or
    raises. *)
Theorem unpack_spritesheet_wf (image_path dimensions : str) :
  keeps world_wf (unpack_spritesheet image_path dimensions) (fun _ => True).
Proof.
  unfold unpack_spritesheet.
  eapply keeps_bind; [apply makedirs_wf|]. intros _ _.
  eapply keeps_bind; [apply Image_open_wf|]. intros spritesheet _.
  keeps_pure. intros [rows cols] _.
  keeps_pure. intros frame_width _.
  keeps_pure. intros frame_height _.
  eapply keeps_bind; [|intros _ _; apply print_wf].
  apply (keeps_foldM _ (fun _ => True)); [done|]. intros _ cell _. apply save_frame_wf.
Qed.

(** ** The packer writes nothing unless it succeeds *)

Lemma quiet_paste_file folder_path cols fw fh (spritesheet : image) (entry : Z * str) :
  quiet (paste_file folder_path cols fw fh spritesheet entry).
Proof. unfold paste_file. eauto with io_quiet. Qed.

#[local] Hint Resolve quiet_paste_file : io_quiet.

(** C13. When the packer raises, at whatever step, the world is as it was
    before the call: no sheet is written and nothing is printed. *)
Theorem pack_spritesheet_atomic (folder_path : str) : atomic (pack_spritesheet folder_path).
Proof.
  unfold pack_spritesheet. atomic_step. intros listing.
  destruct (_ =? 0); [by intros w e w'|].
  do 2 (atomic_step; intros ?). atomic_step. intros [rows cols].
  do 2 (atomic_step; intros ?).
  apply atomic_last; [apply atomic_image_save|]. intros _ w. apply print_ok.
Qed.

End handlers_invariant.

#[export] Hint Resolve quiet_paste_file : io_quiet.
