(* ===== verification/PackHandler.v ===== *)
(** * PackHandler: what a run of the packer does to the world

    [pack_spritesheet] against the packer on decoded images: on a folder
    whose image files are pictures the handler writes the sheet
    [pack_images] computes from them, taken in the order of
    [sort_image_files]; on a folder without image files it prints one
    line; at the first selected file that is not a picture it raises the
    exception of [Image.open] and writes nothing.  These, and a directory
    with the name of the sheet, are the only ways a run on a directory
    fails ([pack_spritesheet_exceptions]); a second run on the same
    folder writes the same file system ([pack_spritesheet_twice]). *)

From Stdlib Require Import ZArith Lia List Ascii String.
From stdpp Require Import prelude strings gmap.
From S2P Require Import Prelude Python PyString PyPath PySorted Imaging IO World.
From S2P Require Import Scenes Grid Order Pack Unpack Handlers.

Section pack_spritesheet_spec.
Context `{Imaging}.
Implicit Types (w : world) (d : path) (names : list str) (frames : list image).

(** The names the packer reads from the directory [d], in the order it
    pastes them. *)
Definition image_files_of w d : list str :=
  sort_image_files (select_image_files (listing_order w (entries (fs w) d))).

(** The files [names] of the directory [d] hold the pictures [frames]. *)
Definition hold w d names frames : Prop :=
  Forall2 (fun n f => fs w !! (d ++ [n]) = Some (File (Picture f))) names frames.

(** The world after a run of the packer that computed [r]: a line on
    the console when there was no frame; else the sheet under the name of
    its grid in the directory [d], and the line that reports its path. *)
Definition after_pack w (folder_path : str) d (r : option (Z * Z * image)) : world :=
  match r with
  | None => World (fs w) (cwd w) (listing_order w) (stdout w ++ [NO_IMAGES_FOUND])
  | Some (rows, cols, sheet) =>
      World (<[d ++ [output_filename rows cols] := File (Picture sheet)]> (fs w))
            (cwd w) (listing_order w)
            (stdout w ++ [spritesheet_created (join folder_path (output_filename rows cols))])
  end.

Lemma hold_wf w d names frames :
  world_wf w -> hold w d names frames -> Forall image_wf frames.
Proof.
  intros Hwf. induction 1; constructor; [by eapply wf_pictures | done].
Qed.

Lemma hold_open w folder_path d n f :
  world_wf w -> resolve w folder_path = Ok d -> fs w !! d = Some Dir ->
  fs w !! (d ++ [n]) = Some (File (Picture f)) ->
  Image_open (join folder_path n) w = (Ok f, w).
Proof.
  intros Hwf Hd Hdir Hn. apply (Image_open_ok _ _ (d ++ [n])); [|done].
  apply resolve_join; [done..|]. eapply wf_names; eauto.
Qed.

Lemma paste_file_ok w folder_path d cols fw fh (canvas : image) k n f :
  world_wf w -> resolve w folder_path = Ok d -> fs w !! d = Some Dir ->
  fs w !! (d ++ [n]) = Some (File (Picture f)) ->
  paste_file folder_path cols fw fh canvas (k, n) w
  = (paste_frame cols fw fh canvas (k, f), w).
Proof.
  intros. unfold paste_file. by erewrite io_bind_ok; [|by eapply hold_open].
Qed.

(** The paste loop on files is the paste loop on the pictures they hold. *)
Lemma foldM_paste_file w folder_path d cols fw fh names frames :
  world_wf w -> resolve w folder_path = Ok d -> fs w !! d = Some Dir ->
  hold w d names frames ->
  forall k canvas,
    foldM (paste_file folder_path cols fw fh) canvas (enumerate_from k names) w
    = (fold_result (paste_frame cols fw fh) canvas (enumerate_from k frames), w).
Proof.
  intros Hwf Hd Hdir. induction 1 as [|n f names frames Hn _ IH]; intros k canvas; [done|].
  cbn [enumerate_from]. rewrite foldM_cons.
  pose proof (paste_file_ok w folder_path d cols fw fh canvas k n f Hwf Hd Hdir Hn) as Hstep.
  destruct (paste_frame cols fw fh canvas (k, f)) as [pasted|e] eqn:E.
  - rewrite (io_bind_ok _ _ _ _ _ Hstep), (fold_result_cons_ok _ _ _ _ _ E). apply IH.
  - by rewrite (io_bind_raise _ _ _ _ _ Hstep), (fold_result_cons_raise _ _ _ _ _ E).
Qed.

Lemma output_filename_ordinary (rows cols : Z) : ordinary (output_filename rows cols).
Proof.
  unfold output_filename. repeat split; try done.
  rewrite !elem_of_app. intros [?|[?|[?|[?|?]]]];
    try (by eapply str_of_int_no_char; [| |done]);
    by match goal with Hin : _ ∈ _ |- _ => apply (bool_decide_pack _) in Hin end.
Qed.

(** The packer on a folder whose image files are pictures, up to the
    point where it saves: the sheet is the one [pack_images] computes
    from the pictures, taken in the order of [sort_image_files]. *)
Lemma pack_spritesheet_to_save w folder_path d frames rows cols sheet :
  world_wf w -> resolve w folder_path = Ok d -> fs w !! d = Some Dir ->
  hold w d (image_files_of w d) frames ->
  pack_images frames = Ok (Some (rows, cols, sheet)) ->
  pack_spritesheet folder_path w
  = (let* _ := image_save sheet (join folder_path (output_filename rows cols)) in
     print (spritesheet_created (join folder_path (output_filename rows cols)))) w.
Proof.
  intros Hwf Hd Hdir Hhold Hpack.
  destruct (pack_images_steps _ _ _ _ Hpack)
    as (first & rest & canvas & Hfr & Hgrid & Hnew & Hpasted).
  unfold pack_spritesheet. rewrite (io_bind_ok _ _ _ _ _ (listdir_ok _ _ _ Hd Hdir)).
  fold (image_files_of w d). set (selected := select_image_files _).
  assert (len selected = len frames) as Hlen.
  { apply Forall2_length in Hhold. unfold len, image_files_of, sort_image_files in *.
    rewrite length_sorted in Hhold. fold selected in Hhold. lia. }
  rewrite Hlen, Hgrid. pose proof (len_nonneg rest).
  replace (len frames =? 0) with false by (rewrite Hfr, len_cons; lia).
  pose proof Hhold as Hhold'. rewrite Hfr in Hhold'.
  apply Forall2_cons_inv_r in Hhold' as (n0 & names & Hn0 & _ & Hnames).
  rewrite Hnames. cbn [getitem lookup list_lookup]. rewrite io_bind_lift_ok.
  rewrite (io_bind_ok _ _ _ _ _ (hold_open _ _ _ _ _ Hwf Hd Hdir Hn0)).
  rewrite io_bind_lift_ok, Hnew, io_bind_lift_ok. rewrite <- Hnames.
  unfold enumerate. erewrite io_bind_ok; [done|].
  erewrite foldM_paste_file by done. by rewrite <- Hpasted.
Qed.

(** Then it writes the sheet into the folder under the name of the grid
    and reports the path.  Nothing else changes. *)
Lemma pack_spritesheet_run w folder_path d frames rows cols sheet :
  world_wf w -> resolve w folder_path = Ok d -> fs w !! d = Some Dir ->
  hold w d (image_files_of w d) frames ->
  pack_images frames = Ok (Some (rows, cols, sheet)) ->
  fs w !! (d ++ [output_filename rows cols]) <> Some Dir ->
  pack_spritesheet folder_path w
  = (Ok tt, after_pack w folder_path d (Some (rows, cols, sheet))).
Proof.
  intros Hwf Hd Hdir Hhold Hpack Hout.
  rewrite (pack_spritesheet_to_save _ _ _ _ _ _ _ Hwf Hd Hdir Hhold Hpack).
  by erewrite io_bind_ok;
    [|apply image_save_ok; [by apply resolve_join, output_filename_ordinary | done]].
Qed.

(** Unless a directory has the name of the sheet. *)
Lemma pack_spritesheet_blocked w folder_path d frames rows cols sheet :
  world_wf w -> resolve w folder_path = Ok d -> fs w !! d = Some Dir ->
  hold w d (image_files_of w d) frames ->
  pack_images frames = Ok (Some (rows, cols, sheet)) ->
  fs w !! (d ++ [output_filename rows cols]) = Some Dir ->
  pack_spritesheet folder_path w = (Raise IsADirectoryError, w).
Proof.
  intros Hwf Hd Hdir Hhold Hpack Hout.
  rewrite (pack_spritesheet_to_save _ _ _ _ _ _ _ Hwf Hd Hdir Hhold Hpack).
  apply io_bind_raise, (image_save_raises _ _ _ (d ++ [output_filename rows cols])); [|done].
  by apply resolve_join, output_filename_ordinary.
Qed.

(** A folder without image files: one line is printed and nothing is
    written. *)
Lemma pack_spritesheet_run_empty w folder_path d :
  resolve w folder_path = Ok d -> fs w !! d = Some Dir ->
  image_files_of w d = [] ->
  pack_spritesheet folder_path w = (Ok tt, after_pack w folder_path d None).
Proof.
  intros Hd Hdir Hnone. unfold pack_spritesheet.
  rewrite (io_bind_ok _ _ _ _ _ (listdir_ok _ _ _ Hd Hdir)).
  apply (f_equal length) in Hnone. unfold image_files_of, sort_image_files in Hnone.
  rewrite length_sorted in Hnone. unfold len. by rewrite Hnone.
Qed.

(** The packer opens the selected files in sorted order and fails at the
    first that is not a picture (a directory whose name ends like an
    image file, or a file the library cannot decode), with the exception
    of [Image.open]; the files before it are opened, nothing is written. *)
Lemma pack_spritesheet_fails w folder_path d before n after frames (v : node) e :
  world_wf w -> resolve w folder_path = Ok d -> fs w !! d = Some Dir ->
  image_files_of w d = before ++ n :: after -> hold w d before frames ->
  fs w !! (d ++ [n]) = Some v -> open_error v = Some e ->
  pack_spritesheet folder_path w = (Raise e, w).
Proof.
  intros Hwf Hd Hdir Hnames Hhold Hn He.
  assert (Image_open (join folder_path n) w = (Raise e, w)) as Hopen.
  { eapply Image_open_raises; [|done..]. apply resolve_join; [done..|]. eapply wf_names; eauto. }
  unfold pack_spritesheet. rewrite (io_bind_ok _ _ _ _ _ (listdir_ok _ _ _ Hd Hdir)).
  fold (image_files_of w d). set (selected := select_image_files _).
  assert (len selected = len (before ++ n :: after)) as Hlen.
  { rewrite <- Hnames. unfold len, image_files_of, sort_image_files. by rewrite length_sorted. }
  rewrite Hlen, Hnames. pose proof (len_nonneg before). pose proof (len_nonneg after).
  replace (_ =? 0) with false by (rewrite len_app, len_cons; lia).
  destruct Hhold as [|n0 f0 before frames Hn0 Hhold].
  { cbn [app getitem lookup list_lookup]. by rewrite io_bind_lift_ok, (io_bind_raise _ _ _ _ _ Hopen). }
  cbn [app getitem lookup list_lookup]. rewrite io_bind_lift_ok.
  rewrite (io_bind_ok _ _ _ _ _ (hold_open _ _ _ _ _ Hwf Hd Hdir Hn0)).
  destruct (image_size_nonneg f0) as [? ?]; [by eapply wf_pictures|].
  destruct (canvas_ok (len (n0 :: before ++ n :: after)) (image_width f0) (image_height f0))
    as (rows & cols & canvas & -> & Hspec & Hnew & _);
    [pose proof (len_nonneg (before ++ n :: after)); rewrite len_cons; lia | done..|].
  destruct (paste_entries_ok cols (image_width f0) (image_height f0) canvas
              (enumerate_from 0 (f0 :: frames))) as [pasted Hpasted]; [destruct Hspec; lia|].
  rewrite io_bind_lift_ok, Hnew, io_bind_lift_ok.
  erewrite io_bind_raise; [done|]. unfold enumerate.
  change (n0 :: before ++ n :: after) with ((n0 :: before) ++ n :: after).
  rewrite enumerate_from_app, foldM_app.
  erewrite io_bind_ok;
    [|erewrite foldM_paste_file by (done || by constructor); by rewrite Hpasted].
  cbn [enumerate_from]. rewrite foldM_cons. apply io_bind_raise.
  unfold paste_file. by apply io_bind_raise.
Qed.

(** C15. The first selected entry that is not a picture ends the run: a
    directory whose name ends like an image file with IsADirectoryError,
    a file the library cannot decode with UnidentifiedImageError.  The
    entries before it are opened, nothing is written or printed. *)
Theorem pack_spritesheet_raises w folder_path d before n after frames (v : node) e :
  world_wf w -> resolve w folder_path = Ok d -> fs w !! d = Some Dir ->
  image_files_of w d = before ++ n :: after -> hold w d before frames ->
  fs w !! (d ++ [n]) = Some v -> open_error v = Some e ->
  pack_spritesheet folder_path w = (Raise e, w)
  /\ (e = IsADirectoryError <-> v = Dir)
  /\ (e = UnidentifiedImageError <-> v = File Bytes).
Proof.
  intros Hwf Hd Hdir Hnames Hhold Hn He. split; [by eapply pack_spritesheet_fails|].
  destruct v as [|[f|]]; simpl in He; [|done|]; injection He as <-; by repeat split.
Qed.


(** C5. The handler refines the packer on decoded images: on a folder whose
    image files are pictures, a run ends normally in the world
    [after_pack] describes for the result of [pack_images] on the
    pictures in sorted order; no output name of the folder may be a
    directory. *)
Theorem pack_spritesheet_refines w folder_path d frames :
  world_wf w -> resolve w folder_path = Ok d -> fs w !! d = Some Dir ->
  hold w d (image_files_of w d) frames ->
  (forall rows cols, fs w !! (d ++ [output_filename rows cols]) <> Some Dir) ->
  exists r, pack_images frames = Ok r
            /\ pack_spritesheet folder_path w = (Ok tt, after_pack w folder_path d r).
Proof.
  intros Hwf Hd Hdir Hhold Hout.
  destruct (pack_images_ok frames) as ([[[rows cols] sheet]|] & Hpack & Hnone);
    [by eapply hold_wf | exists (Some (rows, cols, sheet)) | exists None]; (split; [done|]).
  - by apply (pack_spritesheet_run _ _ _ frames).
  - apply (pack_spritesheet_run_empty _ _ d); [done..|].
    rewrite (proj1 Hnone eq_refl) in Hhold. by inversion Hhold.
Qed.

(** ** Every way the packer can fail *)

Lemma image_files_of_exist w d n :
  world_wf w -> n ∈ image_files_of w d -> is_Some (fs w !! (d ++ [n])).
Proof.
  intros Hwf Hn. apply (proj1 (elem_of_sorted sort_key_lt extract_number n _)) in Hn.
  apply select_image_files_elem in Hn as [Hn _]. rewrite (wf_listing w Hwf) in Hn.
  by apply elem_of_entries.
Qed.

(** Entries are all pictures, or there is a first that is not. *)
Lemma hold_cases w d names :
  (forall n, n ∈ names -> is_Some (fs w !! (d ++ [n]))) ->
  (exists frames, hold w d names frames)
  \/ (exists before n after frames (v : node) e,
        names = before ++ n :: after /\ hold w d before frames
        /\ fs w !! (d ++ [n]) = Some v /\ open_error v = Some e).
Proof.
  induction names as [|n names IH]; intros Hall; [left; exists []; constructor|].
  destruct (Hall n) as [v Hv]; [left|].
  destruct (open_error v) as [e|] eqn:He.
  { right. exists [], n, names, [], v, e. by repeat split; [constructor|..]. }
  destruct v as [|[f|]]; try done.
  destruct IH as [[frames ?]|(before & m & after & frames & u & e & -> & ? & ? & ?)];
    [intros; apply Hall; by right | left; exists (f :: frames); by constructor |].
  right. exists (n :: before), m, after, (f :: frames), u, e. by repeat split; [constructor|..].
Qed.

(** The packer on a directory raises only when an entry named like an
    image file is not a picture, or when the name of the sheet is taken
    by a directory: the test of the command line rules out the errors of
    [os.listdir], and the planner and the canvas never fail. *)
Lemma pack_spritesheet_exceptions w folder_path e w' :
  world_wf w -> isdir folder_path w = true ->
  pack_spritesheet folder_path w = (Raise e, w') ->
  e = IsADirectoryError \/ e = UnidentifiedImageError.
Proof.
  intros Hwf (d & Hd & Hdir)%isdir_inv Hrun.
  destruct (hold_cases w d (image_files_of w d))
    as [[frames Hhold]|(before & n & after & frames & v & e' & Hn & ? & ? & He)];
    [by intros; apply image_files_of_exist | |].
  - destruct (pack_images_ok frames) as ([[[rows cols] sheet]|] & Hpack & Hnone);
      [by eapply hold_wf | |].
    + destruct (fs w !! (d ++ [output_filename rows cols])) as [[|c]|] eqn:Hout;
        [|by rewrite (pack_spritesheet_run _ _ _ _ _ _ _ Hwf Hd Hdir Hhold Hpack) in Hrun
            by congruence..].
      rewrite (pack_spritesheet_blocked _ _ _ _ _ _ _ Hwf Hd Hdir Hhold Hpack) in Hrun by done.
      injection Hrun as <- _. by left.
    + rewrite (proj1 Hnone eq_refl) in Hhold. inversion Hhold as [Hnil|]. symmetry in Hnil.
      by rewrite (pack_spritesheet_run_empty _ _ _ Hd Hdir Hnil) in Hrun.
  - rewrite (pack_spritesheet_fails _ _ _ _ _ _ _ _ _ Hwf Hd Hdir Hn) in Hrun by done.
    injection Hrun as <- _. by eapply open_error_cases.
Qed.

(** ** Packing a folder again *)

(** A new entry that is not an image file does not change what the
    packer reads from the directory, when the keys of its files differ. *)
Lemma image_files_of_insert w d n (v : node) out :
  world_wf w -> is_image_file n = false ->
  NoDup (extract_number <$> image_files_of w d) ->
  image_files_of (World (<[d ++ [n] := v]> (fs w)) (cwd w) (listing_order w) out) d
  = image_files_of w d.
Proof.
  intros Hwf Hn Hnd. unfold image_files_of, sort_image_files. simpl.
  set (old := select_image_files (listing_order w (entries (fs w) d))).
  assert (select_image_files (listing_order w (entries (<[d ++ [n]:=v]> (fs w)) d)) ≡ₚ old)
    as E.
  { unfold old, select_image_files. rewrite !(wf_listing w Hwf).
    apply NoDup_Permutation; [apply NoDup_filter, NoDup_entries..|].
    intros x. rewrite !list_elem_of_filter, !elem_of_entries.
    assert (is_image_file x = true -> d ++ [n] <> d ++ [x])
      by (intros ? [_ <-]%app_inj_tail; congruence).
    split; intros [Hx Hin]; (split; [done|]); by rewrite lookup_insert_ne in * by auto. }
  apply (sorted_perm_distinct sort_key_lt extract_number _ _ E). intros x y Hx Hy.
  apply (distinct_keys (image_files_of w d)); [done|..];
    unfold image_files_of, sort_image_files; fold old;
    apply (elem_of_sorted sort_key_lt extract_number); by rewrite <- E.
Qed.

Lemma hold_insert w d names frames n (v : node) out :
  Forall (fun x => is_image_file x = true) names -> is_image_file n = false ->
  hold w d names frames ->
  hold (World (<[d ++ [n] := v]> (fs w)) (cwd w) (listing_order w) out) d names frames.
Proof.
  intros Hnames Hn Hhold. induction Hhold as [|x f names frames Hx _ IH]; [constructor|].
  apply Forall_cons in Hnames as [? ?]. constructor; [|by apply IH].
  simpl. rewrite lookup_insert_ne; [done|]. intros [_ <-]%app_inj_tail. congruence.
Qed.

Lemma image_files_of_selected w d :
  Forall (fun x => is_image_file x = true) (image_files_of w d).
Proof.
  apply Forall_forall. intros x Hx.
  apply (proj1 (elem_of_sorted sort_key_lt extract_number x _)) in Hx.
  by apply select_image_files_elem in Hx as [_ ?].
Qed.

(** The world after a run that wrote a sheet: the directories are those
    of before, paths resolve as before, and the invariant holds. *)
Section after_pack_facts.
Context (w : world) (folder_path : str) (d : path) (rows cols : Z) (sheet : image).
Context (Hout : fs w !! (d ++ [output_filename rows cols]) <> Some Dir).
#[local] Abbreviation w1 := (after_pack w folder_path d (Some (rows, cols, sheet))).

Lemma after_pack_dirs (k : path) : fs w !! k = Some Dir -> fs w1 !! k = Some Dir.
Proof. intros Hk. simpl. rewrite lookup_insert_ne; [done | by intros <-]. Qed.

Lemma after_pack_resolve (p : str) (q : path) : resolve w p = Ok q -> resolve w1 p = Ok q.
Proof. apply resolve_mono; [apply after_pack_dirs | done]. Qed.

Lemma after_pack_sheet :
  resolve w folder_path = Ok d -> fs w !! d = Some Dir ->
  resolve w1 (join folder_path (output_filename rows cols))
  = Ok (d ++ [output_filename rows cols])
  /\ fs w1 !! (d ++ [output_filename rows cols]) = Some (File (Picture sheet)).
Proof.
  intros Hd Hdir. split; [|apply lookup_insert_eq].
  apply resolve_join;
    [by apply after_pack_resolve | by apply after_pack_dirs | apply output_filename_ordinary].
Qed.

Lemma after_pack_other (k : path) n :
  n <> output_filename rows cols -> last k = Some n -> fs w1 !! k = fs w !! k.
Proof.
  intros Hn Hk. apply lookup_insert_ne. intros <-. rewrite last_snoc in Hk. congruence.
Qed.

Lemma after_pack_wf frames :
  world_wf w -> resolve w folder_path = Ok d -> fs w !! d = Some Dir ->
  hold w d (image_files_of w d) frames ->
  pack_images frames = Ok (Some (rows, cols, sheet)) -> world_wf w1.
Proof.
  intros Hwf Hd Hdir Hhold Hpack.
  pose proof (pack_spritesheet_wf folder_path w Hwf) as [Hwf1 _].
  by rewrite (pack_spritesheet_run _ _ _ _ _ _ _ Hwf Hd Hdir Hhold Hpack Hout) in Hwf1.
Qed.

End after_pack_facts.

(** C23. The packer on a folder it has packed: the sheet of the first run is
    not read, and is written again as it is, when the keys of the frame
    files differ; with equal keys the order of the frames may follow a
    listing that the new file has changed. *)
Theorem pack_spritesheet_twice w folder_path d frames rows cols sheet :
  world_wf w -> resolve w folder_path = Ok d -> fs w !! d = Some Dir ->
  hold w d (image_files_of w d) frames ->
  NoDup (extract_number <$> image_files_of w d) ->
  pack_images frames = Ok (Some (rows, cols, sheet)) ->
  (forall rows cols, fs w !! (d ++ [output_filename rows cols]) <> Some Dir) ->
  let w1 := after_pack w folder_path d (Some (rows, cols, sheet)) in
  exists w2, pack_spritesheet folder_path w1 = (Ok tt, w2) /\ fs w2 = fs w1.
Proof.
  intros Hwf Hd Hdir Hhold Hnd Hpack Hout w1.
  pose proof (output_filename_not_image rows cols) as Hsheet.
  eexists. split; [apply (pack_spritesheet_run _ _ d frames rows cols sheet)|];
    [by eapply after_pack_wf | by apply after_pack_resolve | by apply after_pack_dirs
    | | done | | apply insert_insert_eq].
  - unfold w1, after_pack. rewrite image_files_of_insert by done.
    by apply hold_insert; [apply image_files_of_selected | |].
  - simpl. by rewrite lookup_insert_eq.
Qed.

End pack_spritesheet_spec.

(** ** The packer on the scenes *)

Lemma studio_image_files :
  image_files_of studio ["frames" : str]
  = ["frame_0.png" : str; "frame_1.png" : str; "frame_2.png" : str; "frame_3.png" : str].
Proof. by vm_compute. Qed.

Lemma studio_hold :
  hold studio ["frames" : str] (image_files_of studio ["frames" : str]) four_frames.
Proof. rewrite studio_image_files. repeat constructor. Qed.

Lemma pack_spritesheet_refines_witness :
  exists r, pack_images four_frames = Ok r
            /\ pack_spritesheet "frames" studio
               = (Ok tt, after_pack studio "frames" ["frames" : str] r).
Proof.
  apply (pack_spritesheet_refines studio "frames" ["frames" : str] four_frames);
    [apply studio_wf | reflexivity | reflexivity | apply studio_hold |].
  intros rows cols [E|E]%studio_dirs; discriminate.
Defined.

Lemma pack_spritesheet_raises_witness :
  pack_spritesheet "frames" cluttered = (Raise IsADirectoryError, cluttered)
  /\ (IsADirectoryError = IsADirectoryError <-> Dir = Dir)
  /\ (IsADirectoryError = UnidentifiedImageError <-> Dir = File Bytes).
Proof.
  apply (pack_spritesheet_raises cluttered "frames" ["frames" : str]
           ["frame_0.png" : str; "frame_1.png" : str; "frame_2.png" : str; "frame_3.png" : str]
           "frame_9.png" [] four_frames Dir);
    [apply cluttered_wf | reflexivity | reflexivity | by vm_compute
    | repeat constructor | reflexivity | reflexivity].
Defined.

Lemma pack_spritesheet_twice_witness :
  exists sheet,
    pack_images four_frames = Ok (Some (2, 2, sheet))
    /\ let w1 := after_pack studio "frames" ["frames" : str] (Some (2, 2, sheet)) in
       exists w2, pack_spritesheet "frames" w1 = (Ok tt, w2) /\ fs w2 = fs w1.
Proof.
  destruct four_frames_sheet as [sheet E]. exists sheet. split; [done|].
  apply (pack_spritesheet_twice studio "frames" ["frames" : str] four_frames 2 2 sheet);
    [apply studio_wf | reflexivity | reflexivity | apply studio_hold | | done |].
  - rewrite studio_image_files. by apply (bool_decide_unpack _).
  - intros rows cols [?|?]%studio_dirs; discriminate.
Defined.
