(* ===== verification/UnpackHandler.v ===== *)
(** * UnpackHandler: what a run of the unpacker does to the world

    [unpack_spritesheet] against the unpacker on decoded images: the
    folder named after the sheet is created in the current directory, the
    frames [unpack_images] cuts are written into it under their names,
    and the count is reported.  The folder is created first, so a run
    that fails on its dimensions leaves it behind.  Every way a run on an
    existing file fails is listed ([unpack_spritesheet_exceptions]), and
    a run that succeeds leaves every other file alone. *)

From Stdlib Require Import ZArith Lia List Ascii String.
From stdpp Require Import prelude strings gmap.
From S2P Require Import Prelude Python PyString PyPath PySorted Imaging IO World.
From S2P Require Import Scenes Grid Order Pack Unpack Handlers.

Section unpack_spritesheet_spec.
Context `{Imaging}.
Implicit Types (w : world) (out : path) (named : list (str * image)).

(** The file system after the frames [named] are saved in the directory
    [out], in order. *)
Definition write_frames out named (tree : gmap path node) : gmap path node :=
  foldl (fun t entry => <[out ++ [entry.1] := File (Picture entry.2)]> t) tree named.

Lemma write_frames_cons out (entry : str * image) named (tree : gmap path node) :
  write_frames out (entry :: named) tree
  = write_frames out named (<[out ++ [entry.1] := File (Picture entry.2)]> tree).
Proof. done. Qed.

(** Looking a path up after the frames are written. *)
Lemma write_frames_other out named (tree : gmap path node) (k : path) :
  (forall n, n ∈ named.*1 -> k <> out ++ [n]) ->
  write_frames out named tree !! k = tree !! k.
Proof.
  revert tree. induction named as [|entry named IH]; intros tree Hk; [done|].
  rewrite write_frames_cons, IH by (intros n ?; apply Hk; by right).
  apply lookup_insert_ne. intros E. by apply (Hk entry.1); [left|].
Qed.

Lemma write_frames_lookup out named (tree : gmap path node) (i : nat) n (f : image) :
  NoDup named.*1 -> named !! i = Some (n, f) ->
  write_frames out named tree !! (out ++ [n]) = Some (File (Picture f)).
Proof.
  revert tree i. induction named as [|entry named IH]; intros tree i Hnd Hi; [done|].
  apply NoDup_cons in Hnd as [Hfresh Hnd]. rewrite write_frames_cons.
  destruct i as [|i]; simpl in Hi; [|by apply (IH _ i)].
  injection Hi as ->. rewrite write_frames_other; [apply lookup_insert_eq|].
  intros m Hm [_ <-]%app_inj_tail. by apply Hfresh.
Qed.

Lemma frame_name_ordinary (i : Z) : ordinary (frame_name i).
Proof.
  unfold frame_name. repeat split; try done.
  rewrite !elem_of_app. intros [?|[?|?]];
    try (by eapply format_0wd_no_char; [| |done]);
    by match goal with Hin : _ ∈ _ |- _ => apply (bool_decide_pack _) in Hin end.
Qed.

Lemma extract_frame_name (spritesheet : image) cols fw fh (cell : Z * Z) entry :
  extract_frame spritesheet cols fw fh cell = Ok entry ->
  ordinary entry.1 /\ image_wf entry.2.
Proof.
  unfold extract_frame. destruct cell as [row col].
  destruct (image_crop _ _) as [c|] eqn:E; [|done]. intros [= <-]. split.
  - apply frame_name_ordinary.
  - by eapply image_crop_wf.
Qed.

(** One frame is saved in a world where the output folder exists: its
    file is created or replaced, unless a directory has its name. *)
Lemma save_frame_step (spritesheet : image) output_folder cols fw fh cell entry w :
  ordinary output_folder -> world_wf w -> fs w !! (cwd w ++ [output_folder]) = Some Dir ->
  extract_frame spritesheet cols fw fh cell = Ok entry ->
  let target := (cwd w ++ [output_folder]) ++ [entry.1] in
  let w' := set_fs <[target := File (Picture entry.2)]> w in
  (fs w !! target = Some Dir
   /\ save_frame output_folder spritesheet cols fw fh cell w = (Raise IsADirectoryError, w))
  \/ (fs w !! target <> Some Dir
      /\ save_frame output_folder spritesheet cols fw fh cell w = (Ok tt, w')
      /\ world_wf w' /\ fs w' !! (cwd w' ++ [output_folder]) = Some Dir).
Proof.
  intros Hout Hwf Hdir Hcell target w'.
  destruct (extract_frame_name _ _ _ _ _ _ Hcell) as [Hname Himg].
  assert (resolve w (join output_folder entry.1) = Ok target) as Htarget
    by (apply resolve_join; [apply resolve_name; [apply Hwf | done] | done..]).
  unfold save_frame. rewrite Hcell, io_bind_lift_ok.
  destruct (fs w !! target) as [[|c]|] eqn:Ht;
    [left; split; [done|]; by apply (image_save_raises _ _ _ target) | right..];
    (split; [done|]); (split; [by apply image_save_ok; [|congruence]|]); split.
  all: try (apply wf_insert; [done | | congruence | by intros ? [= <-]];
            right; by exists (cwd w ++ [output_folder]), entry.1).
  all: simpl; rewrite lookup_insert_ne; [done|]; unfold target;
    intros E%(f_equal length); rewrite !length_app in E; simpl in E; lia.
Qed.

(** The loop that saves the frames, in a world where the output folder
    exists: each frame goes to the file of its name in that folder. *)
Lemma forM_save_frame (spritesheet : image) output_folder cols fw fh cells :
  ordinary output_folder ->
  forall named w,
    world_wf w -> fs w !! (cwd w ++ [output_folder]) = Some Dir ->
    mapM (extract_frame spritesheet cols fw fh) cells = Ok named ->
    (forall n, n ∈ named.*1 -> fs w !! (cwd w ++ [output_folder; n]) <> Some Dir) ->
    forM_ (save_frame output_folder spritesheet cols fw fh) cells w
    = (Ok tt, set_fs (write_frames (cwd w ++ [output_folder]) named) w).
Proof.
  intros Hout. unfold forM_.
  induction cells as [|cell cells IH]; intros named w Hwf Hdir Hmap Hfree.
  { injection Hmap as <-. by destruct w. }
  apply mapM_result_cons in Hmap as (entry & named' & Hcell & Hmap & ->).
  destruct (save_frame_step _ _ _ _ _ _ _ _ Hout Hwf Hdir Hcell)
    as [[Ht _]|(_ & Hsave & Hwf' & Hdir')].
  { destruct (Hfree entry.1); [left | by rewrite <- app_assoc in Ht]. }
  rewrite foldM_cons, (io_bind_ok _ _ _ _ _ Hsave). rewrite (IH named'); [done..|].
  intros n Hn. simpl. rewrite <- (app_assoc _ [_] [_]). simpl.
  destruct (decide (cwd w ++ [output_folder; entry.1] = cwd w ++ [output_folder; n])) as [->|].
  - by rewrite lookup_insert_eq.
  - rewrite lookup_insert_ne by done. apply Hfree. by right.
Qed.

(** The loop raises only when a directory has the name of a frame. *)
Lemma forM_save_frame_raises (spritesheet : image) output_folder cols fw fh cells :
  ordinary output_folder ->
  forall named w e w',
    world_wf w -> fs w !! (cwd w ++ [output_folder]) = Some Dir ->
    mapM (extract_frame spritesheet cols fw fh) cells = Ok named ->
    forM_ (save_frame output_folder spritesheet cols fw fh) cells w = (Raise e, w') ->
    e = IsADirectoryError.
Proof.
  intros Hout. unfold forM_.
  induction cells as [|cell cells IH]; intros named w e w' Hwf Hdir Hmap Hrun; [done|].
  apply mapM_result_cons in Hmap as (entry & named' & Hcell & Hmap & ->).
  rewrite foldM_cons in Hrun.
  destruct (save_frame_step _ _ _ _ _ _ _ _ Hout Hwf Hdir Hcell)
    as [[_ Hsave]|(_ & Hsave & Hwf' & Hdir')].
  - rewrite (io_bind_raise _ _ _ _ _ Hsave) in Hrun. by injection Hrun as <- _.
  - rewrite (io_bind_ok _ _ _ _ _ Hsave) in Hrun. by eapply IH.
Qed.

(** Where the unpacker puts the frames: the folder named after the sheet,
    in the current directory. *)
Definition output_path_of w (image_path : str) : path :=
  cwd w ++ [output_folder_of image_path].

(** The world after the folder is created: the sheet is still where it
    was. *)
Lemma Image_open_after_makedirs w image_path q (spritesheet : image) out :
  resolve w image_path = Ok q -> fs w !! q = Some (File (Picture spritesheet)) ->
  fs w !! out = None \/ fs w !! out = Some Dir ->
  Image_open image_path (set_fs <[out := Dir]> w) = (Ok spritesheet, set_fs <[out := Dir]> w).
Proof.
  intros Hq Hsheet Hfree. assert (out <> q) by (intros ->; destruct Hfree; congruence).
  apply (Image_open_ok _ _ q); [|by simpl; rewrite lookup_insert_ne].
  apply (resolve_mono w); [|done..]. intros k Hk. simpl.
  destruct (decide (out = k)) as [->|]; [by rewrite lookup_insert_eq|].
  by rewrite lookup_insert_ne.
Qed.

(** What the unpacker computes from the sheet and its second argument:
    the grid and the named frames, or the exception of the dimensions. *)
Definition cut (spritesheet : image) (dimensions : str)
    : result (Z * Z * list (str * image)) :=
  let* (rows, cols) := parse_dimensions dimensions in
  let* named := unpack_images spritesheet rows cols in
  Ok (rows, cols, named).

(** The outcome of a run of the unpacker that computed [r]: the folder is
    there in both cases; the frames and the report only when [r] is a
    result. *)
Definition after_unpack w (image_path : str)
    (r : result (Z * Z * list (str * image))) : result unit * world :=
  let out := output_path_of w image_path in
  match r with
  | Ok (rows, cols, named) =>
      (Ok tt,
       World (write_frames out named (<[out := Dir]> (fs w))) (cwd w) (listing_order w)
             (stdout w ++ [unpacked_message rows cols (output_folder_of image_path)]))
  | Raise e => (Raise e, set_fs <[out := Dir]> w)
  end.

Lemma cut_ok (spritesheet : image) dimensions rows cols named :
  cut spritesheet dimensions = Ok (rows, cols, named)
  <-> parse_dimensions dimensions = Ok (rows, cols)
      /\ unpack_images spritesheet rows cols = Ok named.
Proof.
  unfold cut. destruct (parse_dimensions dimensions) as [[r c]|]; simpl;
    [|split; [done | by intros [? _]]].
  destruct (unpack_images spritesheet r c) as [fr|] eqn:E; simpl; split;
    [by intros [= -> -> ->] | | done | ]; intros [[= -> ->] Hun]; congruence.
Qed.

(** The folder of a sheet that is a file has a name a directory can
    have. *)
Lemma output_folder_of_ordinary w image_path q (c : content) :
  world_wf w -> resolve w image_path = Ok q -> fs w !! q = Some (File c) ->
  ordinary (output_folder_of image_path).
Proof.
  intros Hwf Hq Hfile. destruct (resolve_file _ _ _ _ Hwf Hq Hfile) as (d & _ & _ & ?).
  by apply splitext_ordinary.
Qed.

Section run.
Context (w : world) (image_path dimensions : str) (q : path) (spritesheet : image).
Context (Hwf : world_wf w).
Context (Hq : resolve w image_path = Ok q).
Context (Hsheet : fs w !! q = Some (File (Picture spritesheet))).
Context (Hfree : fs w !! output_path_of w image_path = None
                 \/ fs w !! output_path_of w image_path = Some Dir).

Lemma run_folder_ordinary : ordinary (output_folder_of image_path).
Proof. by eapply output_folder_of_ordinary. Qed.

(** The first two steps: the folder is created and the sheet is read. *)
Lemma unpack_spritesheet_opened (k : image -> io world unit) :
  (let* _ := makedirs (output_folder_of image_path) in
   let* spritesheet := Image_open image_path in k spritesheet) w
  = k spritesheet (set_fs <[output_path_of w image_path := Dir]> w).
Proof.
  rewrite (io_bind_ok _ _ _ _ _ (makedirs_ok _ _ (wf_cwd _ Hwf) run_folder_ordinary Hfree)).
  by erewrite io_bind_ok; [|by eapply Image_open_after_makedirs].
Qed.

(** The world in which the loop runs. *)
Lemma made_wf :
  world_wf (set_fs <[output_path_of w image_path := Dir]> w)
  /\ fs (set_fs <[output_path_of w image_path := Dir]> w) !! output_path_of w image_path
     = Some Dir.
Proof.
  split; [|apply lookup_insert_eq].
  pose proof (makedirs_wf (output_folder_of image_path) w Hwf) as [Hw1 _].
  by rewrite (makedirs_ok _ _ (wf_cwd _ Hwf) run_folder_ordinary Hfree) in Hw1.
Qed.

(** With dimensions that parse and are not zero, the run comes to its
    loop. *)
Lemma unpack_spritesheet_to_loop rows cols named :
  parse_dimensions dimensions = Ok (rows, cols) ->
  unpack_images spritesheet rows cols = Ok named ->
  exists fw fh,
    mapM (extract_frame spritesheet cols fw fh) (grid_cells rows cols) = Ok named
    /\ unpack_spritesheet image_path dimensions w
       = (let* _ := forM_ (save_frame (output_folder_of image_path) spritesheet cols fw fh)
                          (grid_cells rows cols) in
          print (unpacked_message rows cols (output_folder_of image_path)))
           (set_fs <[output_path_of w image_path := Dir]> w).
Proof.
  intros Hdims (fw & fh & Hfw & Hfh & Hframes)%unpack_images_steps.
  exists fw, fh. split; [done|]. unfold unpack_spritesheet.
  by rewrite unpack_spritesheet_opened, Hdims, io_bind_lift_ok, Hfw, io_bind_lift_ok, Hfh,
    io_bind_lift_ok.
Qed.

(** The frames [unpack_images] cuts are written under their names,
    replacing files of these names, and the count is reported.  Nothing
    else changes. *)
Lemma unpack_spritesheet_run rows cols named :
  parse_dimensions dimensions = Ok (rows, cols) ->
  unpack_images spritesheet rows cols = Ok named ->
  (forall n, n ∈ named.*1 -> fs w !! (output_path_of w image_path ++ [n]) <> Some Dir) ->
  unpack_spritesheet image_path dimensions w
  = after_unpack w image_path (Ok (rows, cols, named)).
Proof.
  intros Hdims Hun Hnames. destruct made_wf as [Hwf1 Hdir1].
  destruct (unpack_spritesheet_to_loop _ _ _ Hdims Hun) as (fw & fh & Hmap & ->).
  set (w1 := set_fs _ w) in *.
  rewrite (io_bind_ok _ _ w1 tt (set_fs (write_frames (output_path_of w image_path) named) w1));
    [done|].
  apply (forM_save_frame _ _ _ _ _ _ run_folder_ordinary named w1); [done..|].
  intros n Hn. simpl. rewrite lookup_insert_ne.
  - specialize (Hnames n Hn). unfold output_path_of in Hnames.
    by rewrite <- app_assoc in Hnames.
  - intros E%(f_equal length). unfold output_path_of in E.
    rewrite !length_app in E. simpl in E. lia.
Qed.

(** With dimensions that do not parse, or of which one is zero: the
    exception comes after the folder is created. *)
Lemma unpack_spritesheet_run_raise e :
  cut spritesheet dimensions = Raise e ->
  unpack_spritesheet image_path dimensions w = after_unpack w image_path (Raise e).
Proof.
  intros Hcut. unfold unpack_spritesheet. rewrite unpack_spritesheet_opened.
  unfold cut in Hcut.
  destruct (parse_dimensions dimensions) as [[rows cols]|]; [|by injection Hcut as <-].
  rewrite io_bind_lift_ok. simpl in Hcut.
  destruct (unpack_images spritesheet rows cols) as [named|e'] eqn:Hun; [done|].
  injection Hcut as ->.
  apply unpack_images_raise_inv in Hun as [Hzero ->]; [|by eapply wf_pictures].
  destruct (decide (cols = 0)) as [->|]; [done|].
  rewrite (floordiv_ok _ cols), io_bind_lift_ok by done.
  destruct Hzero as [? | ->]; done.
Qed.

(** What parsing and cutting can raise. *)
Lemma cut_raises e :
  cut spritesheet dimensions = Raise e -> e = ValueError \/ e = ZeroDivisionError.
Proof.
  unfold cut. destruct (parse_dimensions dimensions) as [[rows cols]|e'] eqn:Hdims; simpl.
  - destruct (unpack_images spritesheet rows cols) as [named|e'] eqn:Hun; [done|].
    intros [= <-]. right. by eapply unpack_images_raise_inv; [eapply wf_pictures|].
  - intros [= <-]. left. by eapply parse_dimensions_raises.
Qed.

(** Every way a run on a picture can fail, once the folder is there. *)
Lemma unpack_picture_exceptions e w' :
  unpack_spritesheet image_path dimensions w = (Raise e, w') ->
  e ∈ [ValueError; ZeroDivisionError; IsADirectoryError].
Proof.
  intros Hrun. destruct (cut spritesheet dimensions) as [[[rows cols] named]|e'] eqn:Hcut.
  - apply cut_ok in Hcut as [Hdims Hun]. destruct made_wf as [Hwf1 Hdir1].
    destruct (unpack_spritesheet_to_loop _ _ _ Hdims Hun) as (fw & fh & Hmap & Hloop).
    rewrite Hloop in Hrun. unfold mbind, io_bind in Hrun.
    destruct (forM_ _ _ _) as [[[]|e2] w2] eqn:E; [done|]. injection Hrun as <- _.
    rewrite (forM_save_frame_raises _ _ _ _ _ _ run_folder_ordinary _ _ _ _ Hwf1 Hdir1 Hmap E).
    in_list.
  - rewrite (unpack_spritesheet_run_raise _ Hcut) in Hrun. injection Hrun as <- _.
    destruct (cut_raises _ Hcut) as [-> | ->]; in_list.
Qed.

(** C6. The handler refines the unpacker on decoded images: a run on a sheet
    that is a picture ends as [after_unpack] describes for what [cut]
    computes from the sheet and the dimensions, exception included; the
    output folder may exist, and may not hold directories. *)
Theorem unpack_spritesheet_refines :
  (forall n, fs w !! (output_path_of w image_path ++ [n]) <> Some Dir) ->
  unpack_spritesheet image_path dimensions w
  = after_unpack w image_path (cut spritesheet dimensions).
Proof.
  intros Hnames. destruct (cut spritesheet dimensions) as [[[rows cols] named]|e] eqn:Hcut;
    [|by apply unpack_spritesheet_run_raise].
  apply cut_ok in Hcut as [? ?]. by apply unpack_spritesheet_run.
Qed.

(** C12. What a run with positive dimensions leaves in the folder: for every
    cell of the grid, the file [frame_name i] holds the part of the sheet
    in the cell [(i // cols, i % cols)]. *)
Theorem unpack_spritesheet_frames rows cols :
  parse_dimensions dimensions = Ok (rows, cols) -> 0 < rows -> 0 < cols ->
  (forall n, fs w !! (output_path_of w image_path ++ [n]) <> Some Dir) ->
  exists w',
    unpack_spritesheet image_path dimensions w = (Ok tt, w')
    /\ forall i, 0 <= i < rows * cols ->
         exists frame,
           fs w' !! (output_path_of w image_path ++ [frame_name i])
           = Some (File (Picture frame))
           /\ is_frame_of spritesheet (image_width spritesheet / cols)
                (image_height spritesheet / rows) (i / cols, i mod cols) frame.
Proof.
  intros Hdims ? ? Hnames.
  destruct (unpack_images_cells spritesheet rows cols) as (named & Hun & Hall);
    [done.. | by eapply wf_pictures |].
  eexists. split; [by apply (unpack_spritesheet_run _ _ _ Hdims Hun)|]. intros i Hi.
  destruct (cut_from_lookup _ rows _ _ _ _ i ltac:(done) Hi Hall) as (frame & Hf & ?).
  exists frame. split; [|done]. simpl. apply (write_frames_lookup _ _ _ (Z.to_nat i)); [|done].
  rewrite (unpack_images_fst _ _ _ _ ltac:(done) Hun). apply NoDup_frame_names.
Qed.

(** C24. A run that succeeds touches the folder and the files of the frames
    and nothing else: whatever else the folder held before, frames of an
    earlier run with a larger grid included, is there afterwards. *)
Theorem unpack_spritesheet_keeps rows cols named (k : path) :
  cut spritesheet dimensions = Ok (rows, cols, named) -> 0 < cols ->
  (forall n, fs w !! (output_path_of w image_path ++ [n]) <> Some Dir) ->
  k <> output_path_of w image_path ->
  (forall i, 0 <= i < rows * cols -> k <> output_path_of w image_path ++ [frame_name i]) ->
  fs (unpack_spritesheet image_path dimensions w).2 !! k = fs w !! k.
Proof.
  intros [Hdims Hun]%cut_ok ? Hnames Hk Hframes.
  rewrite (unpack_spritesheet_run _ _ _ Hdims Hun) by auto. simpl.
  rewrite write_frames_other, lookup_insert_ne; [done..|].
  rewrite (unpack_images_fst _ _ _ _ ltac:(done) Hun).
  intros n (i & -> & Hi%elem_of_range)%list_elem_of_fmap. by apply Hframes.
Qed.

End run.

(** C16. The folder is created before the dimensions are looked at: when they
    do not parse, or one of them is zero, the unpacker raises and leaves
    the folder it has just created behind, empty. *)
Theorem unpack_spritesheet_bad_dimensions w image_path dimensions q (spritesheet : image) e :
  world_wf w ->
  resolve w image_path = Ok q -> fs w !! q = Some (File (Picture spritesheet)) ->
  fs w !! output_path_of w image_path = None ->
  cut spritesheet dimensions = Raise e ->
  unpack_spritesheet image_path dimensions w
  = (Raise e, set_fs <[output_path_of w image_path := Dir]> w)
  /\ set_fs <[output_path_of w image_path := Dir]> w <> w.
Proof.
  intros Hwf Hq Hsheet Hnone Hcut.
  split; [by eapply unpack_spritesheet_run_raise; eauto|].
  intros E%(f_equal (fun w' => fs w' !! output_path_of w image_path)).
  simpl in E. by rewrite lookup_insert_eq, Hnone in E.
Qed.

(** When a file has the name the output folder should get, [os.makedirs]
    raises although [exist_ok] is set, and nothing is done. *)
Lemma unpack_spritesheet_folder_taken w image_path dimensions (c : content) :
  world_wf w -> ordinary (output_folder_of image_path) ->
  fs w !! output_path_of w image_path = Some (File c) ->
  unpack_spritesheet image_path dimensions w = (Raise FileExistsError, w).
Proof.
  intros Hwf Hout Hfile. unfold unpack_spritesheet. apply io_bind_raise.
  unfold makedirs. rewrite resolve_name by (apply Hwf || done).
  unfold output_path_of in Hfile. by rewrite Hfile.
Qed.

(** A sheet that does not decode is found out after the folder is
    created. *)
Lemma unpack_spritesheet_not_picture w image_path dimensions q :
  world_wf w -> resolve w image_path = Ok q -> fs w !! q = Some (File Bytes) ->
  fs w !! output_path_of w image_path = None
  \/ fs w !! output_path_of w image_path = Some Dir ->
  unpack_spritesheet image_path dimensions w
  = (Raise UnidentifiedImageError, set_fs <[output_path_of w image_path := Dir]> w).
Proof.
  intros Hwf Hq Hfile Hfree. unfold unpack_spritesheet.
  pose proof (output_folder_of_ordinary _ _ _ _ Hwf Hq Hfile) as Hout.
  rewrite (io_bind_ok _ _ _ _ _ (makedirs_ok _ _ (wf_cwd _ Hwf) Hout Hfree)).
  apply io_bind_raise, (Image_open_raises _ _ q (File Bytes)); [| |done].
  - apply (resolve_mono w); [|done..]. intros k Hk. simpl.
    destruct (decide (output_path_of w image_path = k)) as [<-|];
      [apply lookup_insert_eq | by rewrite lookup_insert_ne].
  - simpl. rewrite lookup_insert_ne; [done|]. intros <-. unfold output_path_of in Hfree.
    destruct Hfree as [Hf|Hf]; by rewrite Hf in Hfile.
Qed.

(** The unpacker on a file raises only what its steps raise when the
    file exists: the test of the command line rules out the errors of a
    missing sheet. *)
Lemma unpack_spritesheet_exceptions w image_path dimensions e w' :
  world_wf w -> isfile image_path w = true ->
  unpack_spritesheet image_path dimensions w = (Raise e, w') ->
  e ∈ [FileExistsError; UnidentifiedImageError; ValueError; ZeroDivisionError;
       IsADirectoryError].
Proof.
  intros Hwf (q & c & Hq & Hfile)%isfile_inv Hrun.
  pose proof (output_folder_of_ordinary _ _ _ _ Hwf Hq Hfile) as Hout.
  destruct (fs w !! output_path_of w image_path) as [[|c']|] eqn:Hfolder.
  2: { rewrite (unpack_spritesheet_folder_taken _ _ _ c') in Hrun by done.
       injection Hrun as <- _. in_list. }
  all: destruct c as [spritesheet|];
    [eapply unpack_picture_exceptions in Hrun; eauto;
     apply list_elem_of_further, list_elem_of_further, Hrun
    | rewrite (unpack_spritesheet_not_picture _ _ _ q) in Hrun by auto;
      injection Hrun as <- _; in_list].
Qed.

(** C39. A sheet whose name has no extension cannot be unpacked from its own
    directory: the folder the unpacker wants to create has the name of
    the sheet. *)
Theorem unpack_spritesheet_no_extension w image_path dimensions (c : content) :
  world_wf w -> ordinary image_path -> "."%char ∉ image_path ->
  fs w !! (cwd w ++ [image_path]) = Some (File c) ->
  unpack_spritesheet image_path dimensions w = (Raise FileExistsError, w).
Proof.
  intros Hwf Hp Hdot Hfile. pose proof Hp as (_ & _ & _ & Hsep).
  assert (output_folder_of image_path = image_path) as Hout.
  { unfold output_folder_of. rewrite basename_id by done.
    rewrite splitext_no_dot; [done|]. by rewrite after_last_id. }
  apply (unpack_spritesheet_folder_taken _ _ _ c); unfold output_path_of; rewrite ?Hout; done.
Qed.

End unpack_spritesheet_spec.

(** ** The unpacker on the gallery *)

Lemma unpack_spritesheet_refines_witness :
  unpack_spritesheet "sheet.png" "2:3" gallery
  = after_unpack gallery "sheet.png" (cut (gradient 6 4) "2:3").
Proof.
  apply (unpack_spritesheet_refines gallery "sheet.png" "2:3" ["sheet.png" : str]);
    [apply gallery_wf | reflexivity | reflexivity | left; reflexivity |].
  intros n E%gallery_dirs. discriminate.
Defined.

Lemma unpack_spritesheet_frames_witness :
  exists w',
    unpack_spritesheet "sheet.png" "2:3" gallery = (Ok tt, w')
    /\ forall i, 0 <= i < 2 * 3 ->
         exists frame,
           fs w' !! (output_path_of gallery "sheet.png" ++ [frame_name i])
           = Some (File (Picture frame))
           /\ is_frame_of (gradient 6 4) (image_width (gradient 6 4) / 3)
                (image_height (gradient 6 4) / 2) (i / 3, i mod 3) frame.
Proof.
  apply (unpack_spritesheet_frames gallery "sheet.png" "2:3" ["sheet.png" : str]);
    [apply gallery_wf | reflexivity | reflexivity | left; reflexivity | reflexivity
    | done | done |].
  intros n E%gallery_dirs. discriminate.
Defined.

Lemma unpack_spritesheet_keeps_witness :
  fs (unpack_spritesheet "sheet.png" "2:3" reused).2 !! ["sheet" : str; "frame_0007.png" : str]
  = fs reused !! ["sheet" : str; "frame_0007.png" : str].
Proof.
  destruct (unpack_images_nonzero (gradient 6 4) 2 3) as [named Hun];
    [by apply gradient_wf | done..|].
  eapply unpack_spritesheet_keeps
    with (q := ["sheet.png" : str]) (spritesheet := gradient 6 4) (named := named)
         (rows := 2) (cols := 3);
    [apply reused_wf | reflexivity | reflexivity | right; reflexivity | by apply cut_ok
    | done | | done |].
  - intros n [E|E]%reused_dirs; discriminate.
  - intros i Hi E.
    change (["sheet" : str] ++ [frame_name 7] = ["sheet" : str] ++ [frame_name i]) in E.
    apply app_inj_tail in E as [_ E]. apply frame_name_inj in E; lia.
Defined.

Lemma unpack_spritesheet_bad_dimensions_witness :
  unpack_spritesheet "sheet.png" "2:0" gallery
  = (Raise ZeroDivisionError, set_fs <[output_path_of gallery "sheet.png" := Dir]> gallery)
  /\ set_fs <[output_path_of gallery "sheet.png" := Dir]> gallery <> gallery.
Proof.
  apply (unpack_spritesheet_bad_dimensions gallery "sheet.png" "2:0" ["sheet.png" : str]
           (gradient 6 4));
    [apply gallery_wf | reflexivity | reflexivity | reflexivity | by vm_compute].
Defined.

Lemma unpack_spritesheet_no_extension_witness :
  unpack_spritesheet "atlas" "2:3" gallery = (Raise FileExistsError, gallery).
Proof.
  apply (unpack_spritesheet_no_extension gallery "atlas" "2:3" Bytes);
    [apply gallery_wf | by apply (bool_decide_unpack _) | by apply (bool_decide_unpack _)
    | reflexivity].
Defined.
