(* ===== verification/Footprint.v ===== *)
(** * Footprint: where a run of a handler writes

    The packer writes one file, a sheet, in the folder it is given.  The
    unpacker creates one folder, named after the sheet, and writes frames
    in it.  Neither changes anything else, whether it returns or raises,
    and whatever the file system holds: [pack_spritesheet_footprint] and
    [unpack_spritesheet_footprint] say so with the relation [differs_in]
    of the file-system model.  The names of sheets and frames are given
    here by their shape, not by the functions that build them. *)

From Stdlib Require Import ZArith Lia List Ascii String.
From stdpp Require Import prelude strings gmap.
From S2P Require Import Prelude Python PyString PyPath PySorted Imaging IO World.
From S2P Require Import Grid Order Pack Unpack Handlers PackHandler UnpackHandler.

(** ** The names of the files the tool writes *)

(** "flipbook_", anything, ".tga". *)
Definition sheet_file (n : str) : Prop := exists s : str, n = "flipbook_" ++ s ++ ".tga".

(** "frame_", decimal digits, ".png". *)
Definition frame_file (n : str) : Prop :=
  exists ds : str, all_digits ds /\ n = "frame_" ++ ds ++ ".png".

Lemma output_filename_sheet_file (rows cols : Z) : sheet_file (output_filename rows cols).
Proof.
  exists (str_of_int rows ++ "x" ++ str_of_int cols). unfold output_filename.
  by rewrite <- !app_assoc.
Qed.

Lemma frame_filename_frame_file (cols row col : Z) :
  0 <= row * cols + col -> frame_file (frame_filename cols row col).
Proof.
  intros Hi. exists (format_0wd 4 (row * cols + col)).
  split; [by apply format_0wd_all_digits | done].
Qed.

Section footprint.
Context `{Imaging}.
Implicit Types (w : world) (k out : path) (F : path -> Prop).

(** Where the packer may write: a sheet in the folder of its argument. *)
Definition pack_footprint w (folder_path : str) k : Prop :=
  exists d n, resolve w folder_path = Ok d /\ k = d ++ [n] /\ sheet_file n.

(** Where the unpacker may write: the folder named after the sheet (the
    last component of its path, without the extension), if there is
    nothing under that name, and frames in that folder. *)
Definition unpack_footprint w (image_path : str) k : Prop :=
  exists out, resolve w (splitext (basename image_path)).1 = Ok out
    /\ ((k = out /\ fs w !! out = None) \/ exists n, k = out ++ [n] /\ frame_file n).

(** ** The packer *)

Lemma pack_spritesheet_footprint (folder_path : str) w :
  differs_in (pack_footprint w folder_path) w (pack_spritesheet folder_path w).2.
Proof.
  unfold pack_spritesheet. quiet_step. intros listing (d & Hd & Hdir)%listdir_inv.
  destruct (_ =? 0); [by apply differs_in_print|].
  do 2 (quiet_step; intros ? _). quiet_step. intros [rows cols] _.
  do 2 (quiet_step; intros ? _).
  apply differs_in_then_print, differs_in_image_save. intros q.
  rewrite (resolve_join _ _ _ d) by (done || apply output_filename_ordinary).
  intros [= <-]. exists d, (output_filename rows cols).
  split; [done|]. split; [done | apply output_filename_sheet_file].
Qed.

(** ** The unpacker *)

(** What the loop of the unpacker keeps: the folder is the directory
    [out], and the world differs from [w0] in [F] only. *)
Definition in_loop F (w0 : world) (output_folder : str) out w : Prop :=
  resolve w output_folder = Ok out /\ fs w !! out = Some Dir /\ differs_in F w0 w.

Lemma save_frame_footprint F w0 output_folder out (spritesheet : image)
    cols fw fh (cell : Z * Z) w :
  (forall n, frame_file n -> F (out ++ [n])) -> 0 <= cell.1 * cols + cell.2 ->
  in_loop F w0 output_folder out w ->
  in_loop F w0 output_folder out (save_frame output_folder spritesheet cols fw fh cell w).2.
Proof.
  intros HF Hcell Hin. pose proof Hin as (Hout & Hdir & Hw). unfold save_frame.
  apply io_bind_state_quiet; [apply quiet_lift | done |]. intros entry [= Hentry].
  destruct (extract_frame_name _ _ _ _ _ _ Hentry) as [Hname _].
  assert (frame_file entry.1) as Hfile.
  { destruct cell as [row col]. unfold extract_frame in Hentry.
    destruct (image_crop _ _); [|done]. injection Hentry as <-.
    by apply frame_filename_frame_file. }
  unfold image_save. rewrite (resolve_join _ _ _ out) by done.
  destruct (fs w !! (out ++ [entry.1])) as [[|c]|] eqn:Ht; [done|..];
    (split; [|split; [|by etrans; [|apply differs_in_insert, HF]]]); simpl.
  all: try (apply (resolve_mono w); [|done..]; intros k Hk; simpl).
  all: rewrite lookup_insert_ne; [done|]; intros E; try congruence.
  all: apply (f_equal length) in E; rewrite length_app in E; simpl in E; lia.
Qed.

Lemma unpack_spritesheet_footprint (image_path dimensions : str) w :
  differs_in (unpack_footprint w image_path) w (unpack_spritesheet image_path dimensions w).2.
Proof.
  set (F := unpack_footprint w image_path). unfold unpack_spritesheet.
  apply io_bind_state; [by intros e w1 ->%atomic_makedirs|].
  intros [] w1 (out & Hout & Hout1 & Hdir1 & Hw1)%makedirs_inv.
  assert (differs_in F w w1) as Hw1'.
  { eapply differs_in_mono; [|done]. intros k [-> ?]. exists out. split; [done | by left]. }
  quiet_step. intros spritesheet _. quiet_step. intros [rows cols] _.
  do 2 (quiet_step; intros ? _). apply differs_in_then_print.
  apply (foldM_state (in_loop F w (output_folder_of image_path) out)); [|done].
  intros _ [row col] w2 [? ?]%elem_of_grid_cells. apply save_frame_footprint; [|simpl; nia].
  intros n ?. exists out. split; [done|]. right. by exists n.
Qed.

End footprint.
