(* ===== verification/EndToEnd.v ===== *)
(** * EndToEnd: the packer and then the unpacker, on the file system

    One run of the tool on a folder of frames, then a second run on the
    sheet the first wrote, with the dimensions its name carries: the
    frames come back, as files of the folder named after the sheet in the
    current directory. *)

From Stdlib Require Import ZArith Lia List Ascii String.
From stdpp Require Import prelude strings gmap.
From S2P Require Import Prelude Python PyString PyPath PySorted Imaging IO World.
From S2P Require Import Scenes Grid Order Pack Unpack RoundTrip Handlers PackHandler UnpackHandler.

(** ** The names involved *)

(** The name of the sheet without its extension: the name of the folder
    the unpacker creates for it. *)
Definition sheet_stem (rows cols : Z) : str :=
  "flipbook_" ++ str_of_int rows ++ "x" ++ str_of_int cols.

(** The dimensions argument that goes with a sheet of [rows] by [cols]. *)
Definition dimensions_of (rows cols : Z) : str :=
  str_of_int rows ++ ":" ++ str_of_int cols.

Lemma output_filename_stem (rows cols : Z) :
  output_filename rows cols = sheet_stem rows cols ++ "."%char :: ("tga" : str).
Proof. unfold output_filename, sheet_stem. by rewrite <- !app_assoc. Qed.

Lemma sheet_stem_no_sep (rows cols : Z) : "/"%char ∉ sheet_stem rows cols.
Proof.
  unfold sheet_stem. rewrite !elem_of_app. intros [?|[?|[?|?]]];
    try (by eapply str_of_int_no_char; [| |done]);
    by match goal with Hin : _ ∈ _ |- _ => apply (bool_decide_pack _) in Hin end.
Qed.

Section names.
Context `{Imaging}.

(** The folder the unpacker derives from the path the packer printed. *)
Lemma output_folder_of_sheet (folder_path : str) (rows cols : Z) :
  output_folder_of (join folder_path (output_filename rows cols)) = sheet_stem rows cols.
Proof.
  unfold output_folder_of.
  rewrite basename_join by (destruct (output_filename_ordinary rows cols) as (_ & _ & _ & ?); done).
  rewrite output_filename_stem, splitext_name; [done | apply sheet_stem_no_sep | | | done];
    by intros ?%(bool_decide_pack _).
Qed.

End names.

(** ** Two runs *)

Section two_runs.
Context `{Imaging}.
Implicit Types (w : world) (d : path) (frames : list image).

(** The folder in which the second run puts the frames. *)
Definition unpacked_path w (rows cols : Z) : path := cwd w ++ [sheet_stem rows cols].

(** The frames the unpacker cuts from the sheet of [frames], under their
    names. *)
Definition named_frames frames : list (str * image) :=
  zip (frame_name <$> range (len frames)) frames.

Lemma named_frames_fst frames :
  (named_frames frames).*1 = frame_name <$> range (len frames).
Proof. apply fst_zip. rewrite length_fmap, length_range. unfold len. lia. Qed.

Lemma named_frames_lookup frames (i : nat) f :
  frames !! i = Some f -> named_frames frames !! i = Some (frame_name (Z.of_nat i), f).
Proof.
  intros Hi. apply lookup_zip_with_Some. exists (frame_name (Z.of_nat i)), f.
  split; [done|]. split; [|done]. rewrite list_lookup_fmap. unfold range.
  apply lookup_lt_Some in Hi. rewrite lookup_seqZ_lt by (unfold len; lia).
  by rewrite Z.add_0_l.
Qed.

(** The packer on a folder of frames of one size, then the unpacker on the
    sheet it wrote with the dimensions of its name: both succeed, and the
    frame number [i] in the packing order is the file [frame_name i] of
    the folder named after the sheet. *)
Lemma pack_then_unpack_spritesheet w folder_path d frames fw fh rows cols sheet :
  world_wf w -> resolve w folder_path = Ok d -> fs w !! d = Some Dir ->
  hold w d (image_files_of w d) frames -> uniform fw fh frames ->
  pack_images frames = Ok (Some (rows, cols, sheet)) ->
  fs w !! (d ++ [output_filename rows cols]) <> Some Dir ->
  fs w !! unpacked_path w rows cols = None \/ fs w !! unpacked_path w rows cols = Some Dir ->
  (forall i, fs w !! (unpacked_path w rows cols ++ [frame_name i]) <> Some Dir) ->
  exists w1 w2,
    pack_spritesheet folder_path w = (Ok tt, w1)
    /\ unpack_spritesheet (join folder_path (output_filename rows cols))
                          (dimensions_of rows cols) w1 = (Ok tt, w2)
    /\ forall (i : nat) f, frames !! i = Some f ->
         fs w2 !! (unpacked_path w rows cols ++ [frame_name (Z.of_nat i)])
         = Some (File (Picture f)).
Proof.
  intros Hwf Hd Hdir Hhold Hu Hpack Hout Hfree Hnames.
  pose proof (pack_spritesheet_run _ _ _ _ _ _ _ Hwf Hd Hdir Hhold Hpack Hout) as Hrun1.
  set (w1 := after_pack _ _ _ _) in Hrun1.
  destruct (after_pack_sheet w folder_path d rows cols sheet Hout Hd Hdir) as [Hq Hsheet].
  pose proof (after_pack_other w folder_path d rows cols sheet) as Hother.
  exists w1. eexists. split; [done|]. split.
  - eapply unpack_spritesheet_run with (w := w1) (named := named_frames frames);
      rewrite ?output_folder_of_sheet; unfold output_path_of; rewrite ?output_folder_of_sheet;
      [by eapply after_pack_wf | exact Hq | exact Hsheet
      | | apply parse_dimensions_ok | by apply (unpack_packed fw fh) |].
    + rewrite (Hother _ (sheet_stem rows cols)); [done | | apply last_snoc].
      rewrite output_filename_stem. intros E%(f_equal length).
      rewrite length_app in E. simpl in E. lia.
    + intros n. rewrite named_frames_fst. intros (i & -> & _)%list_elem_of_fmap.
      rewrite (Hother _ (frame_name i)); [apply Hnames | done | apply last_snoc].
  - intros i f Hi. simpl. unfold output_path_of. rewrite output_folder_of_sheet.
    apply (write_frames_lookup _ (named_frames frames) _ i);
      [rewrite named_frames_fst; apply NoDup_frame_names | by apply named_frames_lookup].
Qed.

End two_runs.

(** ** The two runs on the studio *)

Lemma pack_then_unpack_spritesheet_witness :
  exists sheet,
    pack_images four_frames = Ok (Some (2, 2, sheet))
    /\ exists w1 w2,
    pack_spritesheet "frames" studio = (Ok tt, w1)
    /\ unpack_spritesheet (join "frames" (output_filename 2 2)) (dimensions_of 2 2) w1
       = (Ok tt, w2)
    /\ forall (i : nat) f, four_frames !! i = Some f ->
         fs w2 !! (unpacked_path studio 2 2 ++ [frame_name (Z.of_nat i)])
         = Some (File (Picture f)).
Proof.
  destruct four_frames_sheet as [sheet E]. exists sheet. split; [done|].
  assert (forall k : path, k <> [] -> k <> ["frames" : str] -> fs studio !! k <> Some Dir)
    as Hfiles by (intros k ? ? [?|?]%studio_dirs; done).
  apply (pack_then_unpack_spritesheet studio "frames" ["frames" : str] four_frames
           10 10 2 2 sheet);
    [apply studio_wf | reflexivity | reflexivity | apply studio_hold | apply four_frames_wf
    | exact E | by apply Hfiles | left; reflexivity | intros i; by apply Hfiles].
Defined.
