(* ===== verification/Cli.v ===== *)
(** * Cli: the command line

    The block under [if __name__ == "__main__"] (src/flipbook_tool.py,
    lines 87-102): the arguments are counted, the first is looked up in
    the file system, and the packer or the unpacker is called, or a
    message is printed and the process exits with status 1.

    [invoked] is what a command line means, as a relation with one rule
    per case; [invocation_of] computes it; [main] is the code, and
    [main_refines] shows that it runs the handler of the invocation.
    [footprint] is where the run of an invocation may write, and
    [main_footprint] shows that it writes nowhere else. *)

From Stdlib Require Import ZArith Lia List Ascii String.
From stdpp Require Import prelude strings gmap.
From S2P Require Import Prelude Python PyString PyPath PySorted Imaging IO World.
From S2P Require Import Scenes Grid Order Pack Unpack Handlers PackHandler UnpackHandler.
From S2P Require Import Footprint.

(** ** The messages *)

Definition LF : ascii := ascii_of_nat 10.

(** Line 89. *)
Definition USAGE : str :=
  "Usage: " ++ [LF]
  ++ " python flipbook_tool.py <folder_of_my_frames> to pack a flipbook OR" ++ [LF]
  ++ " python flipbook_tool.py <spritesheet_image> <rows:cols> to unpack a spritesheet".

(** Line 101. *)
Definition INVALID_ARGUMENTS : str :=
  "Invalid arguments. Please provide a valid directory for packing or a valid spritesheet image with dimensions for unpacking.".

Section cli.
Context `{Imaging}.

(** [sys.exit(status)]: the exception that ends the process with the
    given status. *)
Definition sys_exit {A} (status : Z) : io world A := lift (Raise (SystemExit status)).

(** Lines 87-102, with [argv] the list [sys.argv]. *)
Definition main (argv : list str) : io world unit :=
  if len argv <? 2 then
    let* _ := print USAGE in
    sys_exit 1
  else
    let* first_arg := lift (getitem argv 1) in
    let* is_dir := reads (isdir first_arg) in
    if (is_dir : bool) then pack_spritesheet first_arg
    else
      let* is_file := reads (isfile first_arg) in
      if (is_file : bool) && (len argv =? 3) then
        let image_path := first_arg in
        let* dimensions := lift (getitem argv 2) in
        unpack_spritesheet image_path dimensions
      else
        let* _ := print INVALID_ARGUMENTS in
        sys_exit 1.

(** ** What a command line means *)

Inductive invocation : Type :=
| Pack (folder_path : str)
| Unpack (image_path dimensions : str)
| NoArgument
| Invalid.

Definition invocation_of (argv : list str) (w : world) : invocation :=
  match argv with
  | [] | [_] => NoArgument
  | _ :: first_arg :: rest =>
      if isdir first_arg w then Pack first_arg
      else
        match rest with
        | [dimensions] => if isfile first_arg w then Unpack first_arg dimensions else Invalid
        | _ => Invalid
        end
  end.

(** The same as rules: what the documentation of the tool promises, with
    the case the code adds (a directory is packed whatever follows). *)
Inductive invoked (w : world) : list str -> invocation -> Prop :=
| invoked_nothing : invoked w [] NoArgument
| invoked_program prog : invoked w [prog] NoArgument
| invoked_pack prog folder_path rest :
    isdir folder_path w = true ->
    invoked w (prog :: folder_path :: rest) (Pack folder_path)
| invoked_unpack prog image_path dimensions :
    isdir image_path w = false -> isfile image_path w = true ->
    invoked w [prog; image_path; dimensions] (Unpack image_path dimensions)
| invoked_invalid prog first_arg rest :
    isdir first_arg w = false ->
    isfile first_arg w = false \/ length rest <> 1%nat ->
    invoked w (prog :: first_arg :: rest) Invalid.

(** The exceptions with which a run can end, by what the command line
    means. *)
Definition raised_by (i : invocation) : list exn :=
  match i with
  | Pack _ => [IsADirectoryError; UnidentifiedImageError]
  | Unpack _ _ =>
      [FileExistsError; UnidentifiedImageError; ValueError; ZeroDivisionError;
       IsADirectoryError]
  | NoArgument | Invalid => [SystemExit 1]
  end.

(** Where a run may write, by what the command line means: nowhere when
    the command line is rejected. *)
Definition footprint (i : invocation) (w : world) : path -> Prop :=
  match i with
  | Pack folder_path => pack_footprint w folder_path
  | Unpack image_path _ => unpack_footprint w image_path
  | NoArgument | Invalid => fun _ => False
  end.

Definition run (i : invocation) : io world unit :=
  match i with
  | Pack folder_path => pack_spritesheet folder_path
  | Unpack image_path dimensions => unpack_spritesheet image_path dimensions
  | NoArgument => let* _ := print USAGE in sys_exit 1
  | Invalid => let* _ := print INVALID_ARGUMENTS in sys_exit 1
  end.

End cli.

(** ** The dispatch *)

Section cli_facts.
Context `{Imaging}.
Implicit Types (w : world) (argv : list str).

(** The code of [main], branch by branch, is the run of the invocation. *)
Lemma main_dispatch argv w : main argv w = run (invocation_of argv w) w.
Proof.
  unfold main. destruct argv as [|prog [|first_arg rest]]; [done..|].
  replace (len (prog :: first_arg :: rest) <? 2) with false
    by (pose proof (len_nonneg rest); rewrite !len_cons; lia).
  cbn [getitem lookup list_lookup invocation_of]. rewrite io_bind_lift_ok, io_bind_reads.
  destruct (isdir first_arg w); [done|]. rewrite io_bind_reads.
  destruct rest as [|dimensions [|extra rest]].
  - by rewrite andb_false_r.
  - rewrite andb_true_r. by destruct (isfile first_arg w).
  - replace (len _ =? 3) with false
      by (pose proof (len_nonneg rest); rewrite !len_cons; lia).
    by rewrite andb_false_r.
Qed.

(** [invocation_of] computes the relation: every command line has one
    meaning, and it is the computed one. *)
Lemma invoked_invocation_of argv w i : invoked w argv i <-> invocation_of argv w = i.
Proof.
  split.
  - destruct 1 as [| |? ? ? Hd|? ? ? Hd Hf|? ? rest Hd Hrest]; simpl; rewrite ?Hd, ?Hf; try done.
    destruct rest as [|? [|? ?]]; try done. by destruct Hrest as [->|].
  - intros <-. destruct argv as [|prog [|first_arg rest]]; simpl; [constructor..|].
    destruct (isdir first_arg w) eqn:Hd; [by constructor|].
    destruct rest as [|dimensions [|? ?]].
    + constructor; [done | by right].
    + destruct (isfile first_arg w) eqn:Hf; constructor; auto.
    + constructor; [done | by right].
Qed.

(** C9. The dispatch refines the rules: [main] runs the handler of the meaning
    of its command line, and nothing before it. *)
Theorem main_refines argv w i : invoked w argv i -> main argv w = run i w.
Proof. intros <-%invoked_invocation_of. apply main_dispatch. Qed.

(** The message of an invalid command line is not the usage message. *)
Lemma INVALID_ARGUMENTS_not_USAGE : INVALID_ARGUMENTS <> USAGE.
Proof. done. Qed.

(** C18. A command line that is neither a pack nor an unpack: the tool prints
    one line and exits with status 1, and the file system is untouched.
    The line is the usage text only when there is no argument at all. *)
Theorem main_rejects argv w :
  invocation_of argv w = NoArgument \/ invocation_of argv w = Invalid ->
  exists message,
    main argv w
    = (Raise (SystemExit 1), World (fs w) (cwd w) (listing_order w) (stdout w ++ [message]))
    /\ (message = USAGE <-> len argv < 2).
Proof.
  intros Hi. rewrite main_dispatch.
  destruct argv as [|prog [|first_arg rest]];
    try (exists USAGE; split; [done | by split]).
  pose proof (len_nonneg rest).
  assert (invocation_of (prog :: first_arg :: rest) w = Invalid) as ->
    by (destruct Hi as [Hi|Hi]; [|done]; simpl in Hi;
        destruct (isdir _ _), rest as [|? [|? ?]]; try done; by destruct (isfile _ _)).
  exists INVALID_ARGUMENTS. split; [done|]. rewrite !len_cons.
  split; [by intros ?%INVALID_ARGUMENTS_not_USAGE | lia].
Qed.

(** A directory as first argument is packed, whatever follows it on the
    command line. *)
Theorem main_packs argv w prog folder_path rest :
  argv = prog :: folder_path :: rest -> isdir folder_path w = true ->
  main argv w = pack_spritesheet folder_path w.
Proof. intros -> Hd. rewrite main_dispatch. simpl. by rewrite Hd. Qed.

(** A file as first argument is unpacked exactly when one more argument
    follows. *)
Theorem main_unpacks argv w prog image_path dimensions :
  argv = [prog; image_path; dimensions] -> isfile image_path w = true ->
  main argv w = unpack_spritesheet image_path dimensions w.
Proof.
  intros -> Hf. rewrite main_dispatch. simpl. rewrite Hf.
  destruct (isdir image_path w) eqn:Hd; [|done].
  unfold isdir, isfile in *. destruct (resolve w image_path) as [q|]; [|done].
  by destruct (fs w !! q) as [[|?]|].
Qed.

(** C14. Every way the program can fail: [SystemExit 1] for a command line it
    rejects; for a pack, an entry named like an image file that is not a
    picture, or a directory with the name of the sheet; for an unpack, a
    file with the name of the folder, a sheet that does not decode,
    dimensions that do not parse or are zero, or a directory with the name
    of a frame.  The tests of [main] rule out the rest: no run on a
    well-formed file system ends in FileNotFoundError, NotADirectoryError
    or IndexError. *)
Theorem main_exceptions argv w i e w' :
  world_wf w -> invoked w argv i -> main argv w = (Raise e, w') -> e ∈ raised_by i.
Proof.
  intros Hwf Hi. rewrite main_dispatch, (proj1 (invoked_invocation_of _ _ _) Hi).
  destruct Hi as [| |prog p rest Hd|prog p dimensions Hd Hf|]; simpl; intros Hrun;
    try (injection Hrun as <- _; in_list).
  - destruct (pack_spritesheet_exceptions _ _ _ _ Hwf Hd Hrun) as [-> | ->]; in_list.
  - by eapply unpack_spritesheet_exceptions.
Qed.

(** [main] keeps the file system well formed. *)
Lemma main_wf argv : keeps world_wf (main argv) (fun _ => True).
Proof.
  intros w Hw. rewrite main_dispatch. destruct (invocation_of argv w); simpl.
  - by apply pack_spritesheet_wf.
  - by apply unpack_spritesheet_wf.
  - split; [by apply (print_wf USAGE) | done].
  - split; [by apply (print_wf INVALID_ARGUMENTS) | done].
Qed.

(** A run changes the file system in the footprint of its command line
    only. *)
Lemma main_differs argv w :
  differs_in (footprint (invocation_of argv w) w) w (main argv w).2.
Proof.
  rewrite main_dispatch. destruct (invocation_of argv w); simpl;
    [apply pack_spritesheet_footprint | apply unpack_spritesheet_footprint
    | by apply (differs_in_print _ w w)..].
Qed.

(** C19. A run writes only where its command line says, whether it ends
    normally or with an exception and whatever the file system holds: a
    pack, at most a file named like a sheet in the folder it is given; an
    unpack, the folder named after the sheet if nothing has that name, and
    files named like frames in that folder; a rejected command line,
    nothing.  Every other path holds afterwards what it held before, and
    the current directory is the same. *)
Theorem main_footprint argv w i :
  invoked w argv i -> differs_in (footprint i w) w (main argv w).2.
Proof. intros <-%invoked_invocation_of. apply main_differs. Qed.

End cli_facts.

(** ** Command lines on the scenes *)

Lemma main_refines_witness :
  main ["flipbook_tool.py" : str; "sheet.png" : str; "2:3" : str] gallery
  = run (Unpack "sheet.png" "2:3") gallery.
Proof.
  apply (main_refines _ gallery (Unpack "sheet.png" "2:3")). by constructor.
Defined.

Lemma main_footprint_witness :
  differs_in (footprint (Unpack "sheet.png" "2:3") gallery) gallery
    (main ["flipbook_tool.py" : str; "sheet.png" : str; "2:3" : str] gallery).2.
Proof.
  apply (main_footprint _ gallery (Unpack "sheet.png" "2:3")). by constructor.
Defined.

Lemma main_rejects_witness :
  exists message,
    main ["flipbook_tool.py" : str; "sheet.png" : str] gallery
    = (Raise (SystemExit 1),
       World (fs gallery) (cwd gallery) (listing_order gallery) (stdout gallery ++ [message]))
    /\ (message = USAGE <-> len ["flipbook_tool.py" : str; "sheet.png" : str] < 2).
Proof. apply (main_rejects _ gallery). by right. Defined.

Lemma main_packs_witness :
  main ["flipbook_tool.py" : str; "frames" : str; "2:2" : str; "extra" : str] studio
  = pack_spritesheet "frames" studio.
Proof. by apply (main_packs _ studio "flipbook_tool.py" "frames" ["2:2" : str; "extra" : str]). Defined.

Lemma main_unpacks_witness :
  main ["flipbook_tool.py" : str; "sheet.png" : str; "2:3" : str] gallery
  = unpack_spritesheet "sheet.png" "2:3" gallery.
Proof. by apply (main_unpacks _ gallery "flipbook_tool.py" "sheet.png" "2:3"). Defined.

Lemma main_exceptions_witness :
  IsADirectoryError ∈ raised_by (Pack "frames").
Proof.
  apply (main_exceptions ["flipbook_tool.py" : str; "frames" : str] cluttered (Pack "frames")
           IsADirectoryError cluttered); [apply cluttered_wf | by constructor |].
  rewrite main_dispatch. cbn [invocation_of run].
  replace (isdir "frames" cluttered) with true by reflexivity.
  apply (pack_spritesheet_fails cluttered "frames" ["frames" : str]
           ["frame_0.png" : str; "frame_1.png" : str; "frame_2.png" : str; "frame_3.png" : str]
           "frame_9.png" [] four_frames Dir);
    [apply cluttered_wf | reflexivity | reflexivity | by vm_compute
    | repeat constructor | reflexivity | reflexivity].
Defined.
