(* ===== verification/Session.v ===== *)
(** * Session: runs of the tool, one after the other

    The program is run once per command line; what one run leaves in the
    file system the next run finds.  [runs] is one run with any command
    line, as a step between worlds, and [reachable] any number of them.
    Shown here: two runs, a pack and an unpack of what it wrote, give the
    frames back ([tool_round_trip]); whatever the command lines, what is
    neither a sheet nor a frame in a folder of the current directory is
    left as it was ([reachable_spares]). *)

From Stdlib Require Import ZArith Lia List Ascii String.
From stdpp Require Import prelude strings gmap.
From S2P Require Import Prelude Python PyString PyPath PySorted Imaging IO World.
From S2P Require Import Scenes Grid Order Pack Unpack RoundTrip Handlers PackHandler.
From S2P Require Import UnpackHandler Footprint EndToEnd Cli.

Section session.
Context `{Imaging}.
Implicit Types (w : world) (argv : list str).

(** One run of the program: the world it leaves, whatever it returns. *)
Inductive runs : relation world :=
| runs_main argv w : runs w (main argv w).2.

(** The worlds a sequence of runs leads to. *)
Definition reachable : relation world := rtc runs.

(** C8. The tool on a folder of frames of one size, then on the sheet it
    wrote with the dimensions of its name: both runs end normally, and
    frame number [i] of the packing order is the file [frame_name i] of
    the folder named after the sheet, in the current directory. *)
Theorem tool_round_trip prog w folder_path d frames fw fh rows cols sheet :
  world_wf w -> resolve w folder_path = Ok d -> fs w !! d = Some Dir ->
  hold w d (image_files_of w d) frames -> uniform fw fh frames ->
  pack_images frames = Ok (Some (rows, cols, sheet)) ->
  fs w !! (d ++ [output_filename rows cols]) <> Some Dir ->
  fs w !! unpacked_path w rows cols = None \/ fs w !! unpacked_path w rows cols = Some Dir ->
  (forall i, fs w !! (unpacked_path w rows cols ++ [frame_name i]) <> Some Dir) ->
  exists w1 w2,
    main [prog; folder_path] w = (Ok tt, w1)
    /\ main [prog; join folder_path (output_filename rows cols); dimensions_of rows cols] w1
       = (Ok tt, w2)
    /\ forall (i : nat) f, frames !! i = Some f ->
         fs w2 !! (unpacked_path w rows cols ++ [frame_name (Z.of_nat i)])
         = Some (File (Picture f)).
Proof.
  intros Hwf Hd Hdir Hhold Hu Hpack Hout Hfree Hnames.
  destruct (pack_then_unpack_spritesheet w folder_path d frames fw fh rows cols sheet)
    as (w1 & w2 & Hrun1 & Hrun2 & Hframes); [done..|].
  exists w1, w2. rewrite !main_dispatch. cbn [invocation_of run].
  rewrite (isdir_true _ _ _ Hd Hdir). split; [done|]. split; [|done].
  assert (w1 = after_pack w folder_path d (Some (rows, cols, sheet))) as Hw1
    by (rewrite (pack_spritesheet_run _ _ _ _ _ _ _ Hwf Hd Hdir Hhold Hpack Hout) in Hrun1;
        congruence).
  destruct (after_pack_sheet w folder_path d rows cols sheet Hout Hd Hdir) as [Hq Hsheet].
  rewrite <- Hw1 in Hq, Hsheet. by destruct (isfile_true _ _ _ _ Hq Hsheet) as [-> ->].
Qed.

(** The paths a session may change, seen from the world it started in:
    files named like sheets, anywhere, and files named like frames in
    the folders of the current directory. *)
Definition session_footprint w (k : path) : Prop :=
  (exists d n, k = d ++ [n] /\ sheet_file n)
  \/ (exists (folder n : str), k = cwd w ++ [folder; n] /\ frame_file n).

(** The folder of an unpack is an entry of the current directory. *)
Lemma unpack_folder_in_cwd argv w image_path dimensions out :
  world_wf w -> invocation_of argv w = Unpack image_path dimensions ->
  resolve w (output_folder_of image_path) = Ok out ->
  out = cwd w ++ [output_folder_of image_path].
Proof.
  intros Hwf Hi%invoked_invocation_of Hout. inversion Hi as [| | |? ? ? _ Hf|]; subst.
  apply isfile_inv in Hf as (q & c & Hq & Hfile).
  rewrite resolve_name in Hout; [by injection Hout | apply Hwf |].
  by eapply output_folder_of_ordinary.
Qed.

(** One run leaves an entry outside the footprint as it was. *)
Lemma main_spares argv w k (v : node) :
  world_wf w -> fs w !! k = Some v -> ~ session_footprint w k ->
  fs (main argv w).2 !! k = Some v.
Proof.
  intros Hwf Hk Hnot. rewrite (di_entries _ _ _ (main_differs argv w)); [done|].
  destruct (invocation_of argv w) as [folder_path|image_path dimensions| |] eqn:Hi;
    simpl; [| |tauto..].
  - intros (d & n & _ & -> & ?). apply Hnot. left. eauto.
  - intros (out & Hout & [[-> Hnone]|(n & -> & ?)]); [congruence|].
    apply Hnot. right. exists (output_folder_of image_path), n.
    rewrite (unpack_folder_in_cwd _ _ _ _ _ Hwf Hi Hout). by rewrite <- app_assoc.
Qed.

(** C40. Whatever the command lines, and however the runs end: an entry of
    the file system that is not a file named like a sheet
    ("flipbook_...tga") and not a file named like a frame
    ("frame_<digits>.png") in a folder of the current directory is still
    there after any number of runs, with the content it had. *)
Theorem reachable_spares w w' k (v : node) :
  world_wf w -> reachable w w' -> fs w !! k = Some v -> ~ session_footprint w k ->
  fs w' !! k = Some v.
Proof.
  intros Hwf Hr. induction Hr as [|? ? w3 [argv w1] _ IH]; [done|]. intros Hk Hnot.
  apply IH; [by apply main_wf | by apply main_spares|].
  unfold session_footprint. by rewrite (di_cwd _ _ _ (main_differs argv w1)).
Qed.

End session.

(** ** Sessions on the studio *)

Lemma tool_round_trip_witness :
  exists sheet,
    pack_images four_frames = Ok (Some (2, 2, sheet))
    /\ exists w1 w2,
    main ["flipbook_tool.py" : str; "frames" : str] studio = (Ok tt, w1)
    /\ main ["flipbook_tool.py" : str; join "frames" (output_filename 2 2); dimensions_of 2 2] w1
       = (Ok tt, w2)
    /\ forall (i : nat) f, four_frames !! i = Some f ->
         fs w2 !! (unpacked_path studio 2 2 ++ [frame_name (Z.of_nat i)])
         = Some (File (Picture f)).
Proof.
  destruct four_frames_sheet as [sheet E]. exists sheet. split; [done|].
  assert (forall k : path, k <> [] -> k <> ["frames" : str] -> fs studio !! k <> Some Dir)
    as Hfiles by (intros k ? ? [?|?]%studio_dirs; done).
  apply (tool_round_trip "flipbook_tool.py" studio "frames" ["frames" : str] four_frames
           10 10 2 2 sheet);
    [apply studio_wf | reflexivity | reflexivity | apply studio_hold | apply four_frames_wf
    | exact E | by apply Hfiles | left; reflexivity | intros i; by apply Hfiles].
Defined.

(** The notes in the folder of the studio are still there after a pack
    and an unpack of the sheet. *)
Lemma reachable_spares_witness :
  fs (main ["flipbook_tool.py" : str; "frames/flipbook_2x2.tga" : str; "2:2" : str]
        (main ["flipbook_tool.py" : str; "frames" : str] studio).2).2
    !! ["frames" : str; "notes.txt" : str]
  = Some (File Bytes).
Proof.
  apply (reachable_spares studio); [apply studio_wf | | reflexivity |].
  - eapply rtc_l; [constructor|]. apply rtc_once. constructor.
  - intros [(d & n & [_ <-]%(app_inj_tail ["frames" : str]) & s & ?)
           |(folder & n & [= _ <-] & ds & _ & ?)]; done.
Defined.
